(** * Sales analytics system: parser, validator, aggregators, enrichment

    A shallow embedding of [utils/file_handler.py], [utils/data_processor.py]
    and [utils/api_handler.py] (and, in [Module Old], of the superseded
    variants kept under [sales-analytics-system_old]), with the properties of
    the record parser, the validator and filter, the region and peak-day
    aggregations and the enrichment mapper.

    Conventions of the embedding:
    - a Python [str] is a [string]; its characters are read as the code
      points 0..255;
    - a Python [int] is a [Z], a Python [float] is a binary64 [float];
    - a transaction dictionary is a record with the eight keys the parser
      writes; an insertion-ordered [dict] used for grouping is an association
      list in first-insertion order; the product catalog is a [gmap];
    - a Python exception is the [Raise] alternative of [result]; a
      [try]/[except] is a [match] on it;
    - the builtins [int(str)], [float(str)] and [repr(float)] are the
      methods of the class [Builtins]: the operations that call them take
      them as a parameter, and every theorem holds for whatever they
      return;
    - the builtin [sorted] is the method of the class [ListSort], with
      what the language guarantees of it: the functions that sort take it
      as a parameter, and every theorem holds for every sort that keeps
      these guarantees. *)

From Stdlib Require Import ZArith List String Ascii Bool Lia Floats.
From Stdlib Require DecimalString DecimalZ.
From Stdlib Require Import Sorted Permutation.
From stdpp Require Import gmap strings list.

Set Default Proof Using "Type".

(** ** Exceptions *)

Inductive exn : Set :=
| ValueError
| OverflowError
| ZeroDivisionError.

Inductive result (A : Type) : Type :=
| Ok (a : A)
| Raise (e : exn).

Arguments Ok {A} a.
Arguments Raise {A} e.

Definition bind {A B : Type} (m : result A) (f : A -> result B) : result B :=
  match m with
  | Ok a => f a
  | Raise e => Raise e
  end.

Notation "'let*' x ':=' m 'in' k" := (bind m (fun x => k))
  (at level 10, x name, m at level 100, k at level 200).

Definition is_ok {A} (r : result A) : bool :=
  match r with
  | Ok _ => true
  | Raise _ => false
  end.

(** ** Python string builtins *)

Module PyStr.

(** [str.isspace] on one character: U+0009..U+000D, U+001C..U+0020, U+0085
  and U+00A0. *)
Definition isspace (c : ascii) : bool :=
let n := N_of_ascii c in
((9 <=? n) && (n <=? 13) || (28 <=? n) && (n <=? 32) || (n =? 133) || (n =? 160))%N.

(** [str.isdigit] on one character: the ten decimal digits and the
  superscripts U+00B2, U+00B3, U+00B9. *)
Definition isdigit (c : ascii) : bool :=
let n := N_of_ascii c in
((48 <=? n) && (n <=? 57) || (n =? 178) || (n =? 179) || (n =? 185))%N.

(** [str.lower] on one character: A..Z and U+00C0..U+00DE except U+00D7. *)
Definition lower_char (c : ascii) : ascii :=
let n := N_of_ascii c in
if ((65 <=? n) && (n <=? 90) || (192 <=? n) && (n <=? 222) && negb (n =? 215))%N
then ascii_of_N (n + 32)
else c.

Fixpoint lower (s : string) : string :=
match s with
| EmptyString => EmptyString
| String c r => String (lower_char c) (lower r)
end.

Fixpoint lstrip (s : string) : string :=
match s with
| EmptyString => EmptyString
| String c r => if isspace c then lstrip r else s
end.

Fixpoint rstrip (s : string) : string :=
match s with
| EmptyString => EmptyString
| String c r =>
    match rstrip r with
    | EmptyString => if isspace c then EmptyString else String c EmptyString
    | r' => String c r'
    end
end.

(** [s.strip()] *)
Definition strip (s : string) : string := rstrip (lstrip s).

(** Truth value of a string: [bool(s)]. *)
Definition truthy (s : string) : bool :=
match s with
| EmptyString => false
| String _ _ => true
end.

(** [s.split(sep)] for a one-character separator: never empty, one more
  part than there are separators. *)
Fixpoint split (sep : ascii) (s : string) : list string :=
match s with
| EmptyString => [EmptyString]
| String c r =>
    if Ascii.eqb c sep then EmptyString :: split sep r
    else match split sep r with
         | [] => [String c EmptyString]
         | p :: ps => String c p :: ps
         end
end.

(** [sep.join(parts)] *)
Fixpoint join (sep : ascii) (parts : list string) : string :=
match parts with
| [] => EmptyString
| [p] => p
| p :: rest => p ++ String sep (join sep rest)
end.

(** [s.replace(old, new)] for a one-character [old]. *)
Fixpoint replace (old : ascii) (new : string) (s : string) : string :=
match s with
| EmptyString => EmptyString
| String c r =>
    if Ascii.eqb c old then new ++ replace old new r
    else String c (replace old new r)
end.

(** [s.startswith(p)] *)
Definition startswith (s p : string) : bool := String.prefix p s.

(** ["".join(filter(pred, s))] *)
Fixpoint filter_chars (pred : ascii -> bool) (s : string) : string :=
match s with
| EmptyString => EmptyString
| String c r =>
    if pred c then String c (filter_chars pred r) else filter_chars pred r
end.

(** [c in s] for a character. *)
Fixpoint contains (c : ascii) (s : string) : bool :=
match s with
| EmptyString => false
| String d r => Ascii.eqb d c || contains c r
end.

End PyStr.

Definition pipe : ascii := "|"%char.
Definition comma : ascii := ","%char.

(** ** Python floats and mixed arithmetic *)

Module PyFloat.

Definition zero : float := PrimFloat.zero.
Definition hundred : float := 100%float.

(** [x < y], [x <= y], [x == y] on floats: false as soon as one side is a
  NaN. [x > y] is [lt y x] and [x >= y] is [le y x]. *)
Definition lt (x y : float) : bool := PrimFloat.ltb x y.
Definition le (x y : float) : bool := PrimFloat.leb x y.
Definition eq (x y : float) : bool := PrimFloat.eqb x y.

Definition notnan (x : float) : Prop := PrimFloat.is_nan x = false.

(** The conversion of an [int] operand in mixed arithmetic: the nearest
  float, ties to even; integers beyond the range raise. *)
Definition float_of_int (z : Z) : result float :=
let f := SF2Prim (binary_normalize prec emax z 0 false) in
if PrimFloat.is_infinity f then Raise OverflowError else Ok f.

(** [q * p] for an [int] [q] and a [float] [p]. *)
Definition mul_int_float (q : Z) (p : float) : result float :=
let* f := float_of_int q in Ok (PrimFloat.mul f p).

(** [x / y]: Python raises on a zero divisor instead of returning an
  infinity or a NaN. *)
Definition truediv (x y : float) : result float :=
if eq y zero then Raise ZeroDivisionError else Ok (PrimFloat.div x y).

(** [round(x, 2)]: the exact value of [x] is rounded to a multiple of 1/100,
  ties to even, and the float nearest to that decimal is returned;
  infinities and NaN round to themselves, the sign of a zero is kept. *)
Definition round_half_even (n d : Z) : Z :=
let q := (n / d)%Z in
let r := (n mod d)%Z in
if (2 * r <? d)%Z then q
else if (d <? 2 * r)%Z then (q + 1)%Z
else if Z.even q then q else (q + 1)%Z.

Definition round2 (x : float) : float :=
match Prim2SF x with
| S754_finite s m e =>
    let k :=
      if (0 <=? e)%Z then (Zpos m * 2 ^ e * 100)%Z
      else round_half_even (Zpos m * 100) (2 ^ (- e)) in
    match k with
    | Zpos p =>
        SF2Prim (SFdiv prec emax (S754_finite s p 0) (S754_finite false 100 0))
    | _ => SF2Prim (S754_zero s)
    end
| _ => x
end.

End PyFloat.

(** ** Builtins taken as parameters *)

(** [py_int s] is [int(s)] and [py_float s] is [float(s)], both raising
    [ValueError] on text they do not accept; [py_repr x] is the text that
    [str(x)] and an f-string produce for a float. *)
Class Builtins : Type := {
  py_int : string -> result Z;
  py_float : string -> result float;
  py_repr : float -> string
}.

(** [str(z)] for an [int]. *)
Definition str_of_int (z : Z) : string :=
  DecimalString.NilZero.string_of_int (Z.to_int z).

(** [str(b)] for a [bool]. *)
Definition str_of_bool (b : bool) : string :=
  if b then "True"%string else "False"%string.

(** [len(l)] *)
Definition len {A} (l : list A) : Z := Z.of_nat (length l).

(** ** Loops that may raise *)

Fixpoint foldM {A S : Type} (f : S -> A -> result S) (l : list A) (s : S) : result S :=
  match l with
  | [] => Ok s
  | x :: r => let* s' := f s x in foldM f r s'
  end.

Fixpoint mapM_r {A B : Type} (f : A -> result B) (l : list A) : result (list B) :=
  match l with
  | [] => Ok []
  | x :: r => let* y := f x in let* ys := mapM_r f r in Ok (y :: ys)
  end.

(** A list comprehension with a condition that may raise. *)
Fixpoint filterM_r {A : Type} (f : A -> result bool) (l : list A) : result (list A) :=
  match l with
  | [] => Ok []
  | x :: r =>
      let* b := f x in
      let* ys := filterM_r f r in
      Ok (if b then x :: ys else ys)
  end.

(** ** Insertion-ordered dictionaries with string keys *)

(** [if k not in d: d[k] = init] followed by [d[k] = f(d[k])]: a new key goes
    to the end, an old key keeps its place. *)
Fixpoint od_upsert {V : Type} (k : string) (init : V) (f : V -> V)
    (d : list (string * V)) : list (string * V) :=
  match d with
  | [] => [(k, f init)]
  | (k', v) :: d' =>
      if String.eqb k' k then (k', f v) :: d'
      else (k', v) :: od_upsert k init f d'
  end.

Fixpoint od_get {V : Type} (k : string) (d : list (string * V)) : option V :=
  match d with
  | [] => None
  | (k', v) :: d' => if String.eqb k' k then Some v else od_get k d'
  end.

(** ** [sorted] and [list.sort] with a float key *)

(** No key is a NaN: [<] is then a total preorder of the keys. *)
Definition comparable {A : Type} (key : A -> float) (l : list A) : Prop :=
  Forall (fun x => PyFloat.notnan (key x)) l.

Section StableSort.
Context {A : Type} (key : A -> float).

(** The stable sort in ascending order of the keys, by insertion: [x]
    passes the elements whose key is smaller and stops in front of the
    first one that is not. *)
Fixpoint insert_asc (x : A) (l : list A) : list A :=
  match l with
  | [] => [x]
  | y :: l' =>
      if PyFloat.lt (key y) (key x) then y :: insert_asc x l' else x :: l
  end.

Definition sort_asc (l : list A) : list A := foldr insert_asc [] l.
End StableSort.

(** [list_sort key l] is [sorted(l, key=key)], the sort of the
    interpreter, taken as a parameter with what the language guarantees of
    it. The result is a permutation of the list, whatever the keys. When
    no key is a NaN the sort is stable and has one possible outcome, the
    list [sort_asc] computes. With a NaN among the keys [<] does not order
    them, and the outcome depends on the runs and the binary insertions of
    the algorithm: it need not be ordered, nor keep equal keys in their
    order, and nothing but the permutation is assumed of it. *)
Class ListSort : Type := {
  list_sort : forall {A : Type}, (A -> float) -> list A -> list A;
  list_sort_permutes :
    forall (A : Type) (key : A -> float) (l : list A),
      Permutation (list_sort key l) l;
  list_sort_stable :
    forall (A : Type) (key : A -> float) (l : list A),
      comparable key l -> list_sort key l = sort_asc key l
}.

Section PySorted.
Context {sorter : ListSort} {A : Type} (key : A -> float).

(** [sorted(l, key=key, reverse=reverse)]: with [reverse=True] CPython
    reverses the list, sorts it and reverses it again, so that a stable
    sort stays stable. *)
Definition py_sorted (reverse : bool) (l : list A) : list A :=
  if reverse then rev (list_sort key (rev l)) else list_sort key l.
End PySorted.

(** [min(l)] and [max(l)] on floats: the first extremal item; [ValueError]
    on an empty list. *)
Definition py_min (l : list float) : result float :=
  match l with
  | [] => Raise ValueError
  | x :: r => Ok (fold_left (fun m i => if PyFloat.lt i m then i else m) r x)
  end.

Definition py_max (l : list float) : result float :=
  match l with
  | [] => Raise ValueError
  | x :: r => Ok (fold_left (fun m i => if PyFloat.lt m i then i else m) r x)
  end.

(** [sorted(set(l))] on strings: the distinct items in code-point order. *)
Fixpoint insert_distinct (x : string) (l : list string) : list string :=
  match l with
  | [] => [x]
  | y :: l' =>
      if String.eqb x y then l
      else if String.ltb x y then x :: l
      else y :: insert_distinct x l'
  end.

Definition sorted_set (l : list string) : list string :=
  foldr insert_distinct [] l.

(** [int(x)] for a float: truncation toward zero. *)
Definition int_of_float (x : float) : result Z :=
  match Prim2SF x with
  | S754_nan => Raise ValueError
  | S754_infinity _ => Raise OverflowError
  | S754_zero _ => Ok 0%Z
  | S754_finite s m e =>
      let a := if (0 <=? e)%Z then (Zpos m * 2 ^ e)%Z else (Zpos m / 2 ^ (- e))%Z in
      Ok (if s then (- a)%Z else a)
  end.

(** ** Data model *)

(** The dictionary [parse_transactions] builds for an accepted line. *)
Record Transaction : Type := mkTransaction {
  TransactionID : string;
  Date : string;
  ProductID : string;
  ProductName : string;
  Quantity : Z;
  UnitPrice : float;
  CustomerID : string;
  Region : string
}.

(** [txn["Quantity"] * txn["UnitPrice"]] *)
Definition amount (txn : Transaction) : result float :=
  PyFloat.mul_int_float (Quantity txn) (UnitPrice txn).

(** ** utils/file_handler.py *)

Import PyStr.

Section FileHandler.
Context `{Builtins}.

(** The body of the [try] block of [parse_transactions], for the parts of
    a line that has eight of them. A [Raise] is what the
    [except Exception] clause catches. *)
Definition parse_fields (parts : list string) : result Transaction :=
  match parts with
  | [p0; p1; p2; p3; p4; p5; p6; p7] =>
      let transaction_id := strip p0 in
      let date := strip p1 in
      let product_id := strip p2 in
      let product_name := strip (replace comma " " p3) in
      let* quantity := py_int (strip (replace comma "" p4)) in
      let* unit_price := py_float (strip (replace comma "" p5)) in
      let customer_id := strip p6 in
      let region := strip p7 in
      if negb (startswith transaction_id "T") then Raise ValueError
      else if negb (truthy customer_id) || negb (truthy region) then Raise ValueError
      else if (quantity <=? 0)%Z then Raise ValueError
      else if PyFloat.le unit_price PyFloat.zero then Raise ValueError
      else Ok {| TransactionID := transaction_id;
                 Date := date;
                 ProductID := product_id;
                 ProductName := product_name;
                 Quantity := quantity;
                 UnitPrice := unit_price;
                 CustomerID := customer_id;
                 Region := region |}
  | _ => Raise ValueError
  end.

(** The variables of the loop of [parse_transactions]. *)
Record ParseState : Type := mkParseState {
  parsed_transactions : list Transaction;
  discarded_records : list string;
  discarded_count : Z;
  total_records : Z
}.

Definition discard (line : string) (st : ParseState) : ParseState :=
  {| parsed_transactions := parsed_transactions st;
     discarded_records := discarded_records st ++ [line];
     discarded_count := discarded_count st + 1;
     total_records := total_records st |}.

Definition accept (txn : Transaction) (st : ParseState) : ParseState :=
  {| parsed_transactions := parsed_transactions st ++ [txn];
     discarded_records := discarded_records st;
     discarded_count := discarded_count st;
     total_records := total_records st |}.

Definition count_record (st : ParseState) : ParseState :=
  {| parsed_transactions := parsed_transactions st;
     discarded_records := discarded_records st;
     discarded_count := discarded_count st;
     total_records := total_records st + 1 |}.

(** What one stripped, non-empty line becomes: a transaction, or nothing
    when the line is discarded. *)
Definition parse_line (line : string) : option Transaction :=
  let parts := split pipe line in
  if negb (length parts =? 8)%nat then None
  else match parse_fields parts with
       | Ok txn => Some txn
       | Raise _ => None
       end.

(** One turn of the loop. *)
Definition parse_step (st : ParseState) (raw : string) : ParseState :=
  let line := strip raw in
  if negb (truthy line) then st
  else
    let st := count_record st in
    let parts := split pipe line in
    if negb (length parts =? 8)%nat then discard line st
    else match parse_fields parts with
         | Ok txn => accept txn st
         | Raise _ => discard line st
         end.

Definition parse_loop (raw_lines : list string) : ParseState :=
  fold_left parse_step raw_lines
    {| parsed_transactions := []; discarded_records := [];
       discarded_count := 0; total_records := 0 |}.

Definition parse_transactions (raw_lines : list string)
    : list Transaction * Z * list string :=
  let st := parse_loop raw_lines in
  (parsed_transactions st, discarded_count st, discarded_records st).

End FileHandler.

(** One turn of the validation loop of [validate_and_filter]: the five
    checks in the order of the source, each with its own increment and
    [continue]. On a record of this type no check can raise, so the
    [except] clause of the loop is never entered. *)
Definition validate_step (st : list Transaction * Z) (txn : Transaction)
    : list Transaction * Z :=
  let '(valid_transactions, invalid_count) := st in
  if (Quantity txn <=? 0)%Z then (valid_transactions, (invalid_count + 1)%Z)
  else if PyFloat.le (UnitPrice txn) PyFloat.zero
       then (valid_transactions, (invalid_count + 1)%Z)
  else if negb (startswith (TransactionID txn) "T")
       then (valid_transactions, (invalid_count + 1)%Z)
  else if negb (startswith (ProductID txn) "P")
       then (valid_transactions, (invalid_count + 1)%Z)
  else if negb (startswith (CustomerID txn) "C")
       then (valid_transactions, (invalid_count + 1)%Z)
  else (valid_transactions ++ [txn], invalid_count).

Definition validate (transactions : list Transaction) : list Transaction * Z :=
  fold_left validate_step transactions ([], 0%Z).

(** What the display step prints: the regions and, when there are amounts,
    their range. *)
Record Display : Type := mkDisplay {
  shown_regions : list string;
  shown_amount_range : option (float * float)
}.

Definition display (valid_transactions : list Transaction) : result Display :=
  let regions := sorted_set (map Region valid_transactions) in
  let* amounts := mapM_r amount valid_transactions in
  let* range :=
    match amounts with
    | [] => Ok None
    | _ :: _ =>
        let* lo := py_min amounts in
        let* hi := py_max amounts in
        Ok (Some (lo, hi))
    end in
  Ok {| shown_regions := regions; shown_amount_range := range |}.

Record Summary : Type := mkSummary {
  total_input : Z;
  invalid : Z;
  filtered_by_region : Z;
  filtered_by_amount : Z;
  final_count : Z
}.

(** [t["Region"].lower() == region.lower()] *)
Definition region_matches (region : string) (t : Transaction) : bool :=
  String.eqb (lower (Region t)) (lower region).

(** The condition of the amount comprehension, with the short circuits of
    [or] and [and]: the amount is computed once per bound that is given. *)
Definition amount_in_range (min_amount max_amount : option float)
    (t : Transaction) : result bool :=
  let* above :=
    match min_amount with
    | None => Ok true
    | Some lo => let* a := amount t in Ok (PyFloat.le lo a)
    end in
  if above then
    match max_amount with
    | None => Ok true
    | Some hi => let* a := amount t in Ok (PyFloat.le a hi)
    end
  else Ok false.

(** The region filter: applied when [region] is given and not empty. *)
Definition filter_region (region : option string) (l : list Transaction)
    : list Transaction * Z :=
  match region with
  | Some r =>
      if truthy r then
        let kept := filter (region_matches r) l in
        (kept, (len l - len kept)%Z)
      else (l, 0%Z)
  | None => (l, 0%Z)
  end.

(** The amount filter: applied when a bound is given. *)
Definition filter_amount (min_amount max_amount : option float)
    (l : list Transaction) : result (list Transaction * Z) :=
  match min_amount, max_amount with
  | None, None => Ok (l, 0%Z)
  | _, _ =>
      let* kept := filterM_r (amount_in_range min_amount max_amount) l in
      Ok (kept, (len l - len kept)%Z)
  end.

Record Validated : Type := mkValidated {
  printed : Display;
  filtered_transactions : list Transaction;
  invalid_count : Z;
  summary : Summary
}.

(** [validate_and_filter(transactions, region, min_amount, max_amount)]:
    the three values it returns, with what it printed on the way. *)
Definition validate_and_filter (transactions : list Transaction)
    (region : option string) (min_amount max_amount : option float)
    : result Validated :=
  let '(valid_transactions, invalid_count) := validate transactions in
  let* shown := display valid_transactions in
  let '(by_region, filtered_by_region) := filter_region region valid_transactions in
  let* r := filter_amount min_amount max_amount by_region in
  let '(by_amount, filtered_by_amount) := r in
  Ok {| printed := shown;
        filtered_transactions := by_amount;
        invalid_count := invalid_count;
        summary := {| total_input := len transactions;
                      invalid := invalid_count;
                      filtered_by_region := filtered_by_region;
                      filtered_by_amount := filtered_by_amount;
                      final_count := len by_amount |} |}.

(** ** utils/data_processor.py *)

(** The entry of a region while the sales are accumulated, and once the
    percentage has been added. *)
Record RegionAcc : Type := mkRegionAcc {
  acc_total_sales : float;
  acc_transaction_count : Z
}.

Record RegionStats : Type := mkRegionStats {
  total_sales : float;
  transaction_count : Z;
  percentage : float
}.

Definition region_init : RegionAcc :=
  {| acc_total_sales := PyFloat.zero; acc_transaction_count := 0 |}.

Definition region_add (a : float) (s : RegionAcc) : RegionAcc :=
  {| acc_total_sales := PrimFloat.add (acc_total_sales s) a;
     acc_transaction_count := acc_transaction_count s + 1 |}.

(** One turn of the first loop of [region_wise_sales]. The product is
    computed before the dictionary is touched; the [except] clause names
    [KeyError] and [TypeError] only, so an [OverflowError] of the product
    leaves the function. *)
Definition region_step (st : list (string * RegionAcc) * float)
    (txn : Transaction) : result (list (string * RegionAcc) * float) :=
  let '(region_stats, total_sales_all_regions) := st in
  let region := Region txn in
  let* a := amount txn in
  Ok (od_upsert region region_init (region_add a) region_stats,
      PrimFloat.add total_sales_all_regions a).

(** One turn of the second loop: the percentage (from the total not yet
    rounded), then the rounding of the total. *)
Definition region_finish (total_sales_all_regions : float)
    (e : string * RegionAcc) : result (string * RegionStats) :=
  let '(region, s) := e in
  let* pct :=
    if PyFloat.lt PyFloat.zero total_sales_all_regions then
      let* q := PyFloat.truediv (acc_total_sales s) total_sales_all_regions in
      Ok (PrimFloat.mul q PyFloat.hundred)
    else Ok PyFloat.zero in
  Ok (region, {| total_sales := PyFloat.round2 (acc_total_sales s);
                 transaction_count := acc_transaction_count s;
                 percentage := PyFloat.round2 pct |}).

Definition region_key (e : string * RegionStats) : float := total_sales (snd e).

Definition region_wise_sales `{ListSort} (transactions : list Transaction)
    : result (list (string * RegionStats)) :=
  let* st := foldM region_step transactions ([], PyFloat.zero) in
  let '(region_stats, total_sales_all_regions) := st in
  let* finished := mapM_r (region_finish total_sales_all_regions) region_stats in
  Ok (py_sorted region_key true finished).

(** The entry of a date in [find_peak_sales_day]. *)
Record DayAcc : Type := mkDayAcc {
  revenue : float;
  day_transaction_count : Z
}.

Definition day_init : DayAcc :=
  {| revenue := PyFloat.zero; day_transaction_count := 0 |}.

Definition day_add (a : float) (s : DayAcc) : DayAcc :=
  {| revenue := PrimFloat.add (revenue s) a;
     day_transaction_count := day_transaction_count s + 1 |}.

Definition day_step (daily_totals : list (string * DayAcc))
    (txn : Transaction) : result (list (string * DayAcc)) :=
  let date := Date txn in
  let* a := amount txn in
  Ok (od_upsert date day_init (day_add a) daily_totals).

(** [peak_date], [peak_revenue], [peak_txn_count] and one turn of the loop
    that updates them. *)
Definition Peak : Type := (option string * float * Z)%type.

Definition peak_init : Peak := (None, PyFloat.zero, 0%Z).

Definition peak_step (st : Peak) (e : string * DayAcc) : Peak :=
  let '(_, peak_revenue, _) := st in
  let '(date, stats) := e in
  if PyFloat.lt peak_revenue (revenue stats)
  then (Some date, revenue stats, day_transaction_count stats)
  else st.

Definition find_peak_sales_day (transactions : list Transaction) : result Peak :=
  let* daily_totals := foldM day_step transactions [] in
  let '(peak_date, peak_revenue, peak_txn_count) :=
    fold_left peak_step daily_totals peak_init in
  Ok (peak_date, PyFloat.round2 peak_revenue, peak_txn_count).

(** ** utils/api_handler.py *)

(** A value of the mapping [create_product_mapping] builds: each field is
    what [product.get(...)] returned, [None] included. *)
Record CatalogEntry : Type := mkCatalogEntry {
  title : option string;
  category : option string;
  brand : option string;
  rating : option float
}.

(** A copy of the transaction with the four [API_] keys. *)
Record EnrichedTransaction : Type := mkEnriched {
  base : Transaction;
  API_Category : option string;
  API_Brand : option string;
  API_Rating : option float;
  API_Match : bool
}.

Definition enrich_default (txn : Transaction) : EnrichedTransaction :=
  {| base := txn; API_Category := None; API_Brand := None;
     API_Rating := None; API_Match := false |}.

Definition enrich_hit (txn : Transaction) (api_info : CatalogEntry)
    : EnrichedTransaction :=
  {| base := txn; API_Category := category api_info;
     API_Brand := brand api_info; API_Rating := rating api_info;
     API_Match := true |}.

Section ApiHandler.
Context `{Builtins}.

(** The body of the [try] block of [enrich_sales_data], up to the lookup:
    the catalog entry to copy from, if any. [product_id_raw] is what
    [txn.get("ProductID")] returned. *)
Definition find_api_info (product_mapping : gmap Z CatalogEntry)
    (product_id_raw : option string) : result (option CatalogEntry) :=
  match product_id_raw with
  | Some raw =>
      if truthy raw then
        let numeric_id_str := filter_chars isdigit raw in
        if truthy numeric_id_str then
          let* numeric_id := py_int numeric_id_str in
          Ok (product_mapping !! numeric_id)
        else Ok None
      else Ok None
  | None => Ok None
  end.

(** The four enrichment fields for a raw product identifier: the defaults
    unless the [try] block reached the assignments. *)
Definition api_fields (product_mapping : gmap Z CatalogEntry)
    (product_id_raw : option string)
    : option string * option string * option float * bool :=
  match find_api_info product_mapping product_id_raw with
  | Ok (Some api_info) =>
      (category api_info, brand api_info, rating api_info, true)
  | Ok None => (None, None, None, false)
  | Raise _ => (None, None, None, false)
  end.

(** One turn of the loop of [enrich_sales_data]. *)
Definition enrich_txn (product_mapping : gmap Z CatalogEntry)
    (txn : Transaction) : EnrichedTransaction :=
  let '(c, b, r, m) := api_fields product_mapping (Some (ProductID txn)) in
  {| base := txn; API_Category := c; API_Brand := b;
     API_Rating := r; API_Match := m |}.

Definition enrich_sales_data (transactions : list Transaction)
    (product_mapping : gmap Z CatalogEntry) : list EnrichedTransaction :=
  fold_left (fun enriched_transactions txn =>
               enriched_transactions ++ [enrich_txn product_mapping txn])
            transactions [].

(** [x or ''] inside an f-string, for a string and for a float. *)
Definition or_empty_str (x : option string) : string :=
  match x with
  | Some s => s
  | None => EmptyString
  end.

Definition or_empty_float (x : option float) : string :=
  match x with
  | Some r => if PyFloat.eq r PyFloat.zero then EmptyString else py_repr r
  | None => EmptyString
  end.

(** The eight base fields of a line of the enriched file, as text. *)
Definition base_fields (t : Transaction) : list string :=
  [TransactionID t; Date t; ProductID t; ProductName t;
   str_of_int (Quantity t); py_repr (UnitPrice t); CustomerID t; Region t].

Definition api_columns (e : EnrichedTransaction) : list string :=
  [or_empty_str (API_Category e); or_empty_str (API_Brand e);
   or_empty_float (API_Rating e); str_of_bool (API_Match e)].

(** The line [save_enriched_data] writes for one transaction. *)
Definition enriched_line (e : EnrichedTransaction) : string :=
  join pipe (base_fields (base e) ++ api_columns e) ++ String "010"%char EmptyString.

Definition header : string :=
  ("TransactionID|Date|ProductID|ProductName|Quantity|UnitPrice|" ++
   "CustomerID|Region|API_Category|API_Brand|API_Rating|API_Match" ++
   String "010"%char EmptyString)%string.

(** What [save_enriched_data] writes to the file, piece by piece. *)
Definition save_enriched_data (enriched_transactions : list EnrichedTransaction)
    : list string :=
  header :: map enriched_line enriched_transactions.

End ApiHandler.


(** ** [sorted] and [list.sort] with a key of an ordered type *)

Section PySortedBy.
Context {A K : Type} (ltb : K -> K -> bool) (key : A -> K).

(** The insertion of [py_sorted], with the comparison [ltb] of the keys. *)
Fixpoint insert_by (x : A) (l : list A) : list A :=
  match l with
  | [] => [x]
  | y :: l' =>
      if ltb (key y) (key x) then y :: insert_by x l' else x :: l
  end.

Definition sort_by (l : list A) : list A := foldr insert_by [] l.

Definition py_sorted_by (reverse : bool) (l : list A) : list A :=
  if reverse then rev (sort_by (rev l)) else sort_by l.
End PySortedBy.

(** [l[:n]]: the first [n] items, or all but the last [-n] of them when
    [n] is negative. *)
Definition slice_to {A : Type} (n : Z) (l : list A) : list A :=
  if (0 <=? n)%Z then take (Z.to_nat n) l
  else take (length l - Z.to_nat (- n)) l.

(** [x / n] for a float [x] and an [int] [n]. *)
Definition truediv_int (x : float) (n : Z) : result float :=
  let* d := PyFloat.float_of_int n in PyFloat.truediv x d.

(** ** utils/file_handler.py: reading the file *)

(** What opening the file with one encoding and reading its lines comes
    to: the lines, line ends included, or one of the two errors the
    function names. *)
Inductive Opened : Type :=
| Lines (raw_lines : list string)
| UnicodeDecodeError
| FileNotFoundError.

(** The outcome of [read_sales_data]: the two values it returns, or the
    exception it raises. *)
Inductive ReadOutcome : Type :=
| Read (lines : list string) (discarded : Z)
| RaiseFileNotFoundError
| RaiseValueError.

Definition encodings : list string := ["utf-8"; "latin-1"; "cp1252"]%string.

(** The body of the [try] block after [readlines]: the header is skipped,
    the other lines are stripped and the empty ones dropped. *)
Definition clean_lines (raw_lines : list string) : list string * Z :=
  let total_lines := len raw_lines in
  let lines :=
    map strip (filter (fun line => truthy (strip line)) (drop 1 raw_lines)) in
  let discarded := (total_lines - 1 - len lines)%Z in
  (lines, discarded).

(** The loop over the encodings: [open_file encoding] stands for
    [open(data_path, "r", encoding=encoding)] followed by [readlines]. *)
Fixpoint read_loop (open_file : string -> Opened) (encs : list string)
    : ReadOutcome :=
  match encs with
  | [] => RaiseValueError
  | encoding :: rest =>
      match open_file encoding with
      | Lines raw_lines =>
          let '(lines, discarded) := clean_lines raw_lines in
          Read lines discarded
      | UnicodeDecodeError => read_loop open_file rest
      | FileNotFoundError => RaiseFileNotFoundError
      end
  end.

Definition read_sales_data (open_file : string -> Opened) : ReadOutcome :=
  read_loop open_file encodings.

(** ** utils/data_processor.py: the other aggregations *)

(** One turn of the loop of [calculate_total_revenue]. The [except] clause
    names [KeyError] and [TypeError] only: an [OverflowError] of the
    product leaves the function. *)
Definition revenue_step (total_revenue : float) (txn : Transaction)
    : result float :=
  let* a := amount txn in Ok (PrimFloat.add total_revenue a).

Definition calculate_total_revenue (transactions : list Transaction)
    : result float :=
  let* total_revenue := foldM revenue_step transactions PyFloat.zero in
  Ok (PyFloat.round2 total_revenue).

(** The entry of a product in [top_selling_products] and in
    [low_performing_products]. *)
Record ProductAcc : Type := mkProductAcc {
  total_quantity : Z;
  total_revenue : float
}.

Definition product_init : ProductAcc :=
  {| total_quantity := 0; total_revenue := PyFloat.zero |}.

Definition product_add (quantity : Z) (revenue : float) (s : ProductAcc)
    : ProductAcc :=
  {| total_quantity := total_quantity s + quantity;
     total_revenue := PrimFloat.add (total_revenue s) revenue |}.

(** One turn of the first loop of both functions: the revenue is computed
    before the dictionary is touched. *)
Definition product_step (product_stats : list (string * ProductAcc))
    (txn : Transaction) : result (list (string * ProductAcc)) :=
  let product_name := ProductName txn in
  let quantity := Quantity txn in
  let* revenue := amount txn in
  Ok (od_upsert product_name product_init (product_add quantity revenue)
        product_stats).

(** The tuple [(product, total_quantity, round(total_revenue, 2))]. *)
Definition ProductRow : Type := (string * Z * float)%type.

Definition product_row (e : string * ProductAcc) : ProductRow :=
  (fst e, total_quantity (snd e), PyFloat.round2 (total_revenue (snd e))).

(** [x[1]] *)
Definition row_quantity (x : ProductRow) : Z := snd (fst x).

Definition top_selling_products (transactions : list Transaction) (n : Z)
    : result (list ProductRow) :=
  let* product_stats := foldM product_step transactions [] in
  let product_list := map product_row product_stats in
  let product_list := py_sorted_by Z.ltb row_quantity true product_list in
  Ok (slice_to n product_list).

Definition low_performing_products (transactions : list Transaction)
    (threshold : Z) : result (list ProductRow) :=
  let* product_stats := foldM product_step transactions [] in
  let low_products :=
    map product_row
      (filter (fun e => (total_quantity (snd e) <? threshold)%Z) product_stats) in
  Ok (py_sorted_by Z.ltb row_quantity false low_products).

(** The entry of a customer while [customer_analysis] accumulates, and once
    the final calculations are made. *)
Record CustomerAcc : Type := mkCustomerAcc {
  acc_total_spent : float;
  acc_purchase_count : Z;
  acc_products_bought : gset string
}.

Record CustomerStats : Type := mkCustomerStats {
  total_spent : float;
  purchase_count : Z;
  avg_order_value : float;
  products_bought : list string
}.

Definition customer_init : CustomerAcc :=
  {| acc_total_spent := PyFloat.zero; acc_purchase_count := 0;
     acc_products_bought := ∅ |}.

Definition customer_add (product : string) (a : float) (s : CustomerAcc)
    : CustomerAcc :=
  {| acc_total_spent := PrimFloat.add (acc_total_spent s) a;
     acc_purchase_count := acc_purchase_count s + 1;
     acc_products_bought := acc_products_bought s ∪ {[ product ]} |}.

Definition customer_step (customer_stats : list (string * CustomerAcc))
    (txn : Transaction) : result (list (string * CustomerAcc)) :=
  let customer_id := CustomerID txn in
  let product := ProductName txn in
  let* a := amount txn in
  Ok (od_upsert customer_id customer_init (customer_add product a)
        customer_stats).

(** [sorted(s)] for a set of strings. *)
Definition sorted_strings (s : gset string) : list string :=
  sorted_set (elements s).

(** One turn of the second loop: the average (from the total not yet
    rounded) when the count is positive, the rounding of the total, the
    products in order. *)
Definition customer_finish (e : string * CustomerAcc)
    : result (string * CustomerStats) :=
  let '(customer_id, stats) := e in
  let count := acc_purchase_count stats in
  let* avg :=
    if (0 <? count)%Z then
      let* q := truediv_int (acc_total_spent stats) count in
      Ok (PyFloat.round2 q)
    else Ok PyFloat.zero in
  Ok (customer_id,
      {| total_spent := PyFloat.round2 (acc_total_spent stats);
         purchase_count := count;
         avg_order_value := avg;
         products_bought := sorted_strings (acc_products_bought stats) |}).

Definition customer_key (e : string * CustomerStats) : float :=
  total_spent (snd e).

Definition customer_analysis `{ListSort} (transactions : list Transaction)
    : result (list (string * CustomerStats)) :=
  let* customer_stats := foldM customer_step transactions [] in
  let* finished := mapM_r customer_finish customer_stats in
  Ok (py_sorted customer_key true finished).

(** The entry of a date in [daily_sales_trend], while it accumulates and
    once finalized. *)
Record TrendAcc : Type := mkTrendAcc {
  acc_revenue : float;
  acc_day_count : Z;
  acc_customers : gset string
}.

Record TrendStats : Type := mkTrendStats {
  trend_revenue : float;
  trend_transaction_count : Z;
  unique_customers : Z
}.

Definition trend_init : TrendAcc :=
  {| acc_revenue := PyFloat.zero; acc_day_count := 0; acc_customers := ∅ |}.

Definition trend_add (customer_id : string) (a : float) (s : TrendAcc)
    : TrendAcc :=
  {| acc_revenue := PrimFloat.add (acc_revenue s) a;
     acc_day_count := acc_day_count s + 1;
     acc_customers := acc_customers s ∪ {[ customer_id ]} |}.

Definition trend_step (daily_stats : list (string * TrendAcc))
    (txn : Transaction) : result (list (string * TrendAcc)) :=
  let date := Date txn in
  let customer_id := CustomerID txn in
  let* a := amount txn in
  Ok (od_upsert date trend_init (trend_add customer_id a) daily_stats).

Definition trend_finish (e : string * TrendAcc) : string * TrendStats :=
  (fst e,
   {| trend_revenue := PyFloat.round2 (acc_revenue (snd e));
      trend_transaction_count := acc_day_count (snd e);
      unique_customers := Z.of_nat (size (acc_customers (snd e))) |}).

(** [dict(sorted(daily_stats.items()))]: the items are compared as tuples,
    and as the dates are distinct the dates decide. *)
Definition daily_sales_trend (transactions : list Transaction)
    : result (list (string * TrendStats)) :=
  let* daily_stats := foldM trend_step transactions [] in
  Ok (py_sorted_by String.ltb fst false (map trend_finish daily_stats)).

(** ** utils/api_handler.py: the product mapping *)

(** A dictionary of the API as [create_product_mapping] reads it: what
    [product.get] returns for the five keys, [None] for a key that is
    absent. *)
Record ApiProduct : Type := mkApiProduct {
  api_id : option Z;
  api_title : option string;
  api_category : option string;
  api_brand : option string;
  api_rating : option float
}.

(** An item of the list of the API: a dictionary, or a value without a
    [get] method. *)
Inductive ApiItem : Type :=
| Dict (product : ApiProduct)
| NotADict.

(** One turn of the loop of [create_product_mapping]: an item without an
    identifier is skipped, and so is an item that is not a dictionary
    ([AttributeError]). *)
Definition mapping_step (product_map : gmap Z CatalogEntry) (item : ApiItem)
    : gmap Z CatalogEntry :=
  match item with
  | Dict product =>
      match api_id product with
      | None => product_map
      | Some product_id =>
          <[product_id := {| title := api_title product;
                             category := api_category product;
                             brand := api_brand product;
                             rating := api_rating product |}]> product_map
      end
  | NotADict => product_map
  end.

Definition create_product_mapping (api_products : list ApiItem)
    : gmap Z CatalogEntry :=
  fold_left mapping_step api_products ∅.

(** ** main.py: the enrichment summary *)

(** [sum(1 for t in enriched_txns if t.get("API_Match"))] *)
Definition matched_count (enriched_txns : list EnrichedTransaction) : Z :=
  len (filter (fun t => API_Match t) enriched_txns).

(** ** The superseded variants (sales-analytics-system_old/utils) *)

Module Old.

(** The single condition of the old validation loop. *)
Definition is_invalid (t : Transaction) : bool :=
  negb (startswith (TransactionID t) "T")
  || negb (startswith (ProductID t) "P")
  || negb (startswith (CustomerID t) "C")
  || negb (truthy (Region t))
  || (Quantity t <=? 0)%Z
  || PyFloat.le (UnitPrice t) PyFloat.zero.

Definition validate_step (st : list Transaction * Z) (t : Transaction)
    : list Transaction * Z :=
  let '(valid, invalid_count) := st in
  if is_invalid t then (valid, (invalid_count + 1)%Z)
  else (valid ++ [t], invalid_count).

Definition validate (transactions : list Transaction) : list Transaction * Z :=
  fold_left validate_step transactions ([], 0%Z).

(** The old display step: [min] and [max] are taken without a test, and
    both are truncated for printing. *)
Record Display : Type := mkDisplay {
  shown_regions : list string;
  shown_amount_range : Z * Z
}.

Definition display (valid : list Transaction) : result Display :=
  let regions := sorted_set (map Region valid) in
  let* amounts := mapM_r amount valid in
  let* min_amt := py_min amounts in
  let* max_amt := py_max amounts in
  let* lo := int_of_float min_amt in
  let* hi := int_of_float max_amt in
  Ok {| shown_regions := regions; shown_amount_range := (lo, hi) |}.

(** [t["Region"] == region] *)
Definition filter_region (region : option string) (l : list Transaction)
    : list Transaction * Z :=
  match region with
  | Some r =>
      if truthy r then
        let kept := filter (fun t => String.eqb (Region t) r) l in
        (kept, (len l - len kept)%Z)
      else (l, 0%Z)
  | None => (l, 0%Z)
  end.

Definition filter_min (min_amount : option float) (l : list Transaction)
    : result (list Transaction * Z) :=
  match min_amount with
  | Some lo =>
      let* kept := filterM_r (fun t => let* a := amount t in Ok (PyFloat.le lo a)) l in
      Ok (kept, (len l - len kept)%Z)
  | None => Ok (l, 0%Z)
  end.

Definition filter_max (max_amount : option float) (l : list Transaction)
    : result (list Transaction * Z) :=
  match max_amount with
  | Some hi =>
      let* kept := filterM_r (fun t => let* a := amount t in Ok (PyFloat.le a hi)) l in
      Ok (kept, (len l - len kept)%Z)
  | None => Ok (l, 0%Z)
  end.

Record Validated : Type := mkValidated {
  printed : Display;
  filtered : list Transaction;
  invalid_count : Z;
  summary : Summary
}.

Definition validate_and_filter (transactions : list Transaction)
    (region : option string) (min_amount max_amount : option float)
    : result Validated :=
  let '(valid, invalid_count) := validate transactions in
  let* shown := display valid in
  let '(by_region, filtered_by_region) := filter_region region valid in
  let* r1 := filter_min min_amount by_region in
  let '(by_min, removed_min) := r1 in
  let* r2 := filter_max max_amount by_min in
  let '(by_max, removed_max) := r2 in
  Ok {| printed := shown;
        filtered := by_max;
        invalid_count := invalid_count;
        summary := {| total_input := len transactions;
                      invalid := invalid_count;
                      filtered_by_region := filtered_by_region;
                      filtered_by_amount := (0 + removed_min + removed_max)%Z;
                      final_count := len by_max |} |}.

(** The old second loop of [region_wise_sales]: the division has no
    guard. *)
Definition region_finish (grand_total : float) (e : string * RegionAcc)
    : result (string * RegionStats) :=
  let '(region, s) := e in
  let* q := PyFloat.truediv (acc_total_sales s) grand_total in
  Ok (region, {| total_sales := PyFloat.round2 (acc_total_sales s);
                 transaction_count := acc_transaction_count s;
                 percentage := PyFloat.round2 (PrimFloat.mul q PyFloat.hundred) |}).

Definition region_wise_sales `{ListSort} (transactions : list Transaction)
    : result (list (string * RegionStats)) :=
  let* st := foldM region_step transactions ([], PyFloat.zero) in
  let '(region_data, grand_total) := st in
  let* finished := mapM_r (region_finish grand_total) region_data in
  Ok (py_sorted region_key true finished).

(** [max(l, key=revenue)]: the first item of greatest revenue;
    [ValueError] on an empty list. *)
Definition max_by_revenue (l : list (string * DayAcc))
    : result (string * DayAcc) :=
  match l with
  | [] => Raise ValueError
  | x :: r =>
      Ok (fold_left (fun m i =>
                       if PyFloat.lt (revenue (snd m)) (revenue (snd i))
                       then i else m) r x)
  end.

(** The old [find_peak_sales_day]: the same first loop, then [max]. *)
Definition find_peak_sales_day (transactions : list Transaction)
    : result (string * float * Z) :=
  let* daily_totals := foldM day_step transactions [] in
  let* peak := max_by_revenue daily_totals in
  let '(peak_date, peak_data) := peak in
  Ok (peak_date, PyFloat.round2 (revenue peak_data),
      day_transaction_count peak_data).

Section OldApiHandler.
Context `{Builtins}.

(** The old [try] block of [enrich_sales_data]: [int] is called on the
    digits without a test that there are any. *)
Definition find_api_info (product_mapping : gmap Z CatalogEntry)
    (product_id_raw : option string) : result (option CatalogEntry) :=
  match product_id_raw with
  | Some raw =>
      if truthy raw then
        let* numeric_id := py_int (filter_chars isdigit raw) in
        Ok (product_mapping !! numeric_id)
      else Ok None
  | None => Ok None
  end.

Definition enrich_txn (product_mapping : gmap Z CatalogEntry)
    (txn : Transaction) : EnrichedTransaction :=
  match find_api_info product_mapping (Some (ProductID txn)) with
  | Ok (Some api_info) => enrich_hit txn api_info
  | Ok None => enrich_default txn
  | Raise _ => enrich_default txn
  end.

Definition enrich_sales_data (transactions : list Transaction)
    (product_mapping : gmap Z CatalogEntry) : list EnrichedTransaction :=
  fold_left (fun enriched_transactions txn =>
               enriched_transactions ++ [enrich_txn product_mapping txn])
            transactions [].

End OldApiHandler.

End Old.

(** ** A reference instance of the builtins

    [int(str)] and [float(str)] for decimal text (sign, digits with single
    underscores between them, fraction and exponent, [inf] and [nan]), and
    the shortest text that reads back as the float for [repr]; and a
    stable sort for [sorted]. They are the instances the examples below
    are run with. *)

Module Reference.

Definition digit_of (c : ascii) : option Z :=
  let n := N_of_ascii c in
  if ((48 <=? n) && (n <=? 57))%N then Some (Z.of_N n - 48)%Z else None.

Definition starts_with_digit (s : string) : bool :=
  match s with
  | String c _ => match digit_of c with Some _ => true | None => false end
  | EmptyString => false
  end.

(** Reads [digit (["_"] digit)*]: the value read after [acc], the number
    of digits, the rest of the text. *)
Fixpoint read_digits (s : string) (acc : Z) (n : nat) : Z * nat * string :=
  match s with
  | EmptyString => (acc, n, s)
  | String c r =>
      match digit_of c with
      | Some d => read_digits r (10 * acc + d)%Z (S n)
      | None =>
          if Ascii.eqb c "_" && negb (n =? 0)%nat && starts_with_digit r
          then read_digits r acc n
          else (acc, n, s)
      end
  end.

Definition read_sign (s : string) : bool * string :=
  match s with
  | String "-" r => (true, r)
  | String "+" r => (false, r)
  | _ => (false, s)
  end.

Definition int_of_str (s : string) : result Z :=
  let '(neg, body) := read_sign (strip s) in
  match read_digits body 0 0 with
  | (v, S _, EmptyString) => Ok (if neg then (- v)%Z else v)
  | _ => Raise ValueError
  end.

(** The float nearest to [n * 10 ^ e10], with the sign [neg]. *)
Definition float_of_decimal (neg : bool) (n : Z) (e10 : Z) : float :=
  match n with
  | Zpos p =>
      if (0 <=? e10)%Z then
        SF2Prim (binary_normalize prec emax
                   (if neg then - (n * 10 ^ e10) else n * 10 ^ e10)%Z 0 false)
      else
        SF2Prim (SFdiv prec emax (S754_finite neg p 0)
                   (S754_finite false (Z.to_pos (10 ^ (- e10))) 0))
  | _ => SF2Prim (S754_zero neg)
  end.

Definition read_exponent (s : string) : option Z :=
  match s with
  | EmptyString => Some 0%Z
  | String c r =>
      if Ascii.eqb c "e" || Ascii.eqb c "E" then
        let '(neg, body) := read_sign r in
        match read_digits body 0 0 with
        | (v, S _, EmptyString) => Some (if neg then (- v)%Z else v)
        | _ => None
        end
      else None
  end.

Definition float_of_str (s : string) : result float :=
  let '(neg, body) := read_sign (strip s) in
  let word := lower body in
  if String.eqb word "inf" || String.eqb word "infinity"
  then Ok (if neg then neg_infinity else infinity)
  else if String.eqb word "nan" then Ok nan
  else
    let '(ip, ni, rest) := read_digits body 0 0 in
    let '(m, nf, rest) :=
      match rest with
      | String "." r => let '(m, n, rest) := read_digits r ip 0 in (m, n, rest)
      | _ => (ip, 0%nat, rest)
      end in
    if ((ni + nf) =? 0)%nat then Raise ValueError
    else match read_exponent rest with
         | Some x => Ok (float_of_decimal neg m (x - Z.of_nat nf))
         | None => Raise ValueError
         end.

(** [10 ^ k <= num / den] *)
Definition pow10_le (k num den : Z) : bool :=
  if (0 <=? k)%Z then (10 ^ k * den <=? num)%Z else (den <=? num * 10 ^ (- k))%Z.

(** The decimal exponent of [num / den]: the greatest [k] with
    [10 ^ k <= num / den]. *)
Definition decimal_exponent (num den : Z) : Z :=
  let est := ((Z.log2 num - Z.log2 den) * 30103 / 100000)%Z in
  if pow10_le (est + 2) num den then (est + 2)%Z
  else if pow10_le (est + 1) num den then (est + 1)%Z
  else if pow10_le est num den then est
  else if pow10_le (est - 1) num den then (est - 1)%Z
  else (est - 2)%Z.

(** The candidates with [n] digits for [x = num / den]: the decimals just
    below and just above, the nearer one first, if they read back as [x]. *)
Definition candidates (x : float) (num den k : Z) (n : Z) : list (Z * Z) :=
  let s := (n - 1 - k)%Z in
  let '(wn, wd) := if (0 <=? s)%Z then (num * 10 ^ s, den)%Z
                   else (num, den * 10 ^ (- s))%Z in
  let lo := (wn / wd)%Z in
  let r := (wn mod wd)%Z in
  let ok d := PrimFloat.eqb (float_of_decimal false d (- s)) x in
  let below := if ok lo then [(lo, (- s)%Z)] else [] in
  let above := if negb (r =? 0)%Z && ok (lo + 1)%Z then [((lo + 1)%Z, (- s)%Z)] else [] in
  if (2 * r <? wd)%Z || ((2 * r =? wd)%Z && Z.even lo)
  then below ++ above else above ++ below.

Fixpoint shortest (x : float) (num den k : Z) (fuel : nat) (n : Z) : Z * Z :=
  match candidates x num den k n with
  | c :: _ => c
  | [] =>
      match fuel with
      | O => (0%Z, 0%Z)
      | S fuel' => shortest x num den k fuel' (n + 1)%Z
      end
  end.

Fixpoint strip_zeros (fuel : nat) (d e : Z) : Z * Z :=
  match fuel with
  | O => (d, e)
  | S fuel' =>
      if (d mod 10 =? 0)%Z && negb (d =? 0)%Z then strip_zeros fuel' (d / 10)%Z (e + 1)%Z
      else (d, e)
  end.

Fixpoint zeros (n : nat) : string :=
  match n with
  | O => EmptyString
  | S n' => String "0" (zeros n')
  end.

(** The text of a positive finite float from its digits [d] and the
    position of the decimal point. *)
Definition layout (digits : string) (decpt : Z) : string :=
  let nd := Z.of_nat (String.length digits) in
  if ((decpt <=? -4) || (16 <? decpt))%Z then
    let x := (decpt - 1)%Z in
    let mant :=
      match digits with
      | String c EmptyString => digits
      | String c r => String c (String "." r)
      | EmptyString => digits
      end in
    let xs := str_of_int (Z.abs x) in
    (mant ++ "e" ++ (if (x <? 0)%Z then "-" else "+")
          ++ (if (Z.abs x <? 10)%Z then "0" else "") ++ xs)%string
  else if (decpt <=? 0)%Z then
    ("0." ++ zeros (Z.to_nat (- decpt)) ++ digits)%string
  else if (nd <=? decpt)%Z then
    (digits ++ zeros (Z.to_nat (decpt - nd)) ++ ".0")%string
  else
    (String.substring 0 (Z.to_nat decpt) digits ++ "."
     ++ String.substring (Z.to_nat decpt) (Z.to_nat (nd - decpt)) digits)%string.

Definition repr_of_float (x : float) : string :=
  match Prim2SF x with
  | S754_nan => "nan"
  | S754_infinity s => if s then "-inf" else "inf"
  | S754_zero s => if s then "-0.0" else "0.0"
  | S754_finite s m e =>
      let '(num, den) := if (0 <=? e)%Z then (Zpos m * 2 ^ e, 1)%Z
                         else (Zpos m, 2 ^ (- e))%Z in
      let k := decimal_exponent num den in
      let '(d, e10) := shortest (PrimFloat.abs x) num den k 17 1 in
      let '(d, e10) := strip_zeros 20 d e10 in
      let digits := str_of_int d in
      let decpt := (Z.of_nat (String.length digits) + e10)%Z in
      ((if s then "-" else "") ++ layout digits decpt)%string
  end.

#[export] Instance builtins : Builtins := {|
  py_int := int_of_str;
  py_float := float_of_str;
  py_repr := repr_of_float
|}.

(** A sort that keeps the guarantees of [ListSort]: the stable insertion
    sort, on every list. On keys without a NaN it is the sort of every
    interpreter; on the others it is one of the sorts the guarantees
    allow, and the order it gives is not meant to be CPython's. *)
#[export, refine] Instance sorting : ListSort := {| list_sort := @sort_asc |}.
Proof.
  - intros A key l. induction l as [|x l IH]; simpl; [reflexivity|].
    transitivity (x :: sort_asc key l); [|now constructor].
    generalize (sort_asc key l). clear IH. intros l'.
    induction l' as [|y l' IH]; simpl; [reflexivity|].
    destruct (PyFloat.lt (key y) (key x)); [|reflexivity].
    rewrite IH. apply perm_swap.
  - reflexivity.
Defined.

End Reference.

(** * Vocabulary of the properties *)

(** The lines [parse_transactions] processes: stripped, and not empty. *)
Definition lines_seen (raw_lines : list string) : list string :=
  filter (fun l => truthy l) (map strip raw_lines).

Definition is_discarded `{Builtins} (line : string) : bool :=
  match parse_line line with
  | Some _ => false
  | None => true
  end.

(** The format rules of the parser, on the eight parts of a line: a
    quantity or a unit price that is read and is not positive, a
    transaction identifier without its prefix, an empty customer or
    region. *)
Definition breaks_format_rule `{Builtins} (parts : list string) : Prop :=
  match parts with
  | [p0; p1; p2; p3; p4; p5; p6; p7] =>
      (exists q, py_int (strip (replace comma "" p4)) = Ok q /\ (q <= 0)%Z)
      \/ (exists u, py_float (strip (replace comma "" p5)) = Ok u
                    /\ PyFloat.le u PyFloat.zero = true)
      \/ startswith (strip p0) "T" = false
      \/ strip p6 = EmptyString
      \/ strip p7 = EmptyString
  | _ => False
  end.

(** A line the parser has to reject: a field count other than eight, or a
    broken format rule. *)
Definition must_reject `{Builtins} (line : string) : Prop :=
  length (split pipe line) <> 8%nat \/ breaks_format_rule (split pipe line).

(** The discard list as the specification states it: the text of every
    raw line that has to be rejected is in it as it was given. *)
Definition kept_verbatim `{Builtins} (raw_lines : list string) : Prop :=
  forall line, In line raw_lines -> must_reject line ->
    In line (snd (parse_transactions raw_lines)).

(** The validity predicate of the validator, in the words of the
    specification. *)
Definition spec_valid (t : Transaction) : bool :=
  (0 <? Quantity t)%Z
  && PyFloat.lt PyFloat.zero (UnitPrice t)
  && startswith (TransactionID t) "T"
  && startswith (ProductID t) "P"
  && startswith (CustomerID t) "C".

(** What the five checks of the validation loop let through. *)
Definition passes_checks (t : Transaction) : bool :=
  negb (Quantity t <=? 0)%Z
  && negb (PyFloat.le (UnitPrice t) PyFloat.zero)
  && startswith (TransactionID t) "T"
  && startswith (ProductID t) "P"
  && startswith (CustomerID t) "C".

(** The valid set of [validate_and_filter]. *)
Definition valid_set (transactions : list Transaction) : list Transaction :=
  fst (validate transactions).

(** Equality of two strings up to case. *)
Definition same_ignoring_case (a b : string) : bool :=
  String.eqb (lower a) (lower b).

(** An amount between the bounds that are given, both included. *)
Definition within_bounds (min_amount max_amount : option float) (a : float) : bool :=
  match min_amount with
  | Some lo => PyFloat.le lo a
  | None => true
  end
  && match max_amount with
     | Some hi => PyFloat.le a hi
     | None => true
     end.

Definition amount_within (min_amount max_amount : option float)
    (t : Transaction) : bool :=
  match amount t with
  | Ok a => within_bounds min_amount max_amount a
  | Raise _ => false
  end.

(** The transactions whose amount can be computed: their quantity is in the
    range of the floats. *)
Definition amounts_defined (l : list Transaction) : Prop :=
  Forall (fun t => is_ok (amount t) = true) l.

(** The transactions the region filter keeps: all of them when no region is
    given, or the empty one. *)
Definition kept_by_region (region : option string) (l : list Transaction)
    : list Transaction :=
  match region with
  | Some r =>
      if truthy r then filter (fun t => same_ignoring_case (Region t) r) l else l
  | None => l
  end.

(** The filters as the specification states them, for every valid set:
    the call returns the transactions of the valid set that are in the
    region that is given (up to case; an empty region is no region) and
    whose amount is within the bounds, and records the number each
    filter removed. *)
Definition filters_as_stated (transactions : list Transaction)
    (region : option string) (min_amount max_amount : option float) : Prop :=
  exists v,
    validate_and_filter transactions region min_amount max_amount = Ok v
    /\ filtered_transactions v
       = filter (fun t => amount_within min_amount max_amount t)
           (kept_by_region region (valid_set transactions))
    /\ filtered_by_region (summary v)
       = (len (valid_set transactions)
          - len (kept_by_region region (valid_set transactions)))%Z
    /\ filtered_by_amount (summary v)
       = (len (kept_by_region region (valid_set transactions))
          - len (filtered_transactions v))%Z.

(** The digit characters of a product identifier, concatenated. *)
Definition digits_of (raw : string) : string := filter_chars isdigit raw.

(** The catalog entry a raw product identifier leads to: its digits are not
    empty, they read as an integer, and that integer is a key of the
    mapping. *)
Definition matches_catalog `{Builtins} (product_mapping : gmap Z CatalogEntry)
    (product_id_raw : option string) (api_info : CatalogEntry) : Prop :=
  exists raw k,
    product_id_raw = Some raw
    /\ digits_of raw <> EmptyString
    /\ py_int (digits_of raw) = Ok k
    /\ product_mapping !! k = Some api_info.

(** The four enrichment fields of an enriched record. *)
Definition api_of (e : EnrichedTransaction)
    : option string * option string * option float * bool :=
  (API_Category e, API_Brand e, API_Rating e, API_Match e).

Definition api_defaults : option string * option string * option float * bool :=
  (None, None, None, false).

Definition api_from (api_info : CatalogEntry)
    : option string * option string * option float * bool :=
  (category api_info, brand api_info, rating api_info, true).

(** The first eight fields of a line, joined again:
    ["|".join(line.split("|")[:8])]. *)
Definition first_eight (line : string) : string :=
  join pipe (take 8 (split pipe line)).

(** The round trip through the enriched file as the specification states
    it: parsing the encoded line gives the base transaction back. *)
Definition recovers_base `{Builtins} (e : EnrichedTransaction) : Prop :=
  fst (fst (parse_transactions [enriched_line e])) = [base e].

(** What every transaction built by the parser satisfies. *)
Record parsed_shape (t : Transaction) : Prop := {
  shape_stripped :
    Forall (fun s => strip s = s)
      [TransactionID t; Date t; ProductID t; ProductName t; CustomerID t; Region t];
  shape_no_pipe :
    Forall (fun s => contains pipe s = false)
      [TransactionID t; Date t; ProductID t; ProductName t; CustomerID t; Region t];
  shape_no_comma : contains comma (ProductName t) = false;
  shape_prefix : startswith (TransactionID t) "T" = true;
  shape_customer : truthy (CustomerID t) = true;
  shape_region : truthy (Region t) = true;
  shape_quantity : (Quantity t <=? 0)%Z = false;
  shape_price : PyFloat.le (UnitPrice t) PyFloat.zero = false
}.

(** The amount of a transaction whose amount is defined. *)
Definition amount_of (t : Transaction) : float :=
  match amount t with
  | Ok a => a
  | Raise _ => PyFloat.zero
  end.

(** The sum of floats in the order of the list, from [0.0]. *)
Definition float_sum (l : list float) : float :=
  fold_left PrimFloat.add l PyFloat.zero.

(** The distinct items of a list in the order of their first occurrence. *)
Fixpoint first_seen (l : list string) : list string :=
  match l with
  | [] => []
  | x :: r => x :: filter (fun y => negb (String.eqb y x)) (first_seen r)
  end.

(** The transactions of a group, in the order of the input. *)
Definition in_group (key : Transaction -> string) (k : string)
    (transactions : list Transaction) : list Transaction :=
  filter (fun t => String.eqb (key t) k) transactions.

Definition group_sum (key : Transaction -> string) (k : string)
    (transactions : list Transaction) : float :=
  float_sum (map amount_of (in_group key k transactions)).

Definition group_size (key : Transaction -> string) (k : string)
    (transactions : list Transaction) : Z :=
  len (in_group key k transactions).

Definition grand_total (transactions : list Transaction) : float :=
  float_sum (map amount_of transactions).

(** The percentage as [region_wise_sales] computes it: the share of the
    grand total when that total is greater than zero, [0.0] otherwise. *)
Definition guarded_percentage (total grand : float) : float :=
  if PyFloat.lt PyFloat.zero grand
  then PrimFloat.mul (PrimFloat.div total grand) PyFloat.hundred
  else PyFloat.zero.

(** The percentage as the specification states it: [0.0] when the grand
    total is zero, the share of the grand total otherwise. *)
Definition stated_percentage (total grand : float) : float :=
  if PyFloat.eq grand PyFloat.zero
  then PyFloat.zero
  else PrimFloat.mul (PrimFloat.div total grand) PyFloat.hundred.

(** The entry of a region, and the regions in first-seen order. *)
Definition region_entry (transactions : list Transaction) (r : string)
    : string * RegionStats :=
  (r, {| total_sales := PyFloat.round2 (group_sum Region r transactions);
         transaction_count := group_size Region r transactions;
         percentage :=
           PyFloat.round2 (guarded_percentage (group_sum Region r transactions)
                             (grand_total transactions)) |}).

Definition region_table (transactions : list Transaction)
    : list (string * RegionStats) :=
  map (region_entry transactions) (first_seen (map Region transactions)).

(** The entry of a date, and the dates in first-seen order. *)
Definition day_entry (transactions : list Transaction) (d : string)
    : string * DayAcc :=
  (d, {| revenue := group_sum Date d transactions;
         day_transaction_count := group_size Date d transactions |}).

Definition day_table (transactions : list Transaction) : list (string * DayAcc) :=
  map (day_entry transactions) (first_seen (map Date transactions)).

(** The percentages of [region_wise_sales] as the specification states
    them. *)
Definition region_shares_as_stated `{ListSort} (transactions : list Transaction)
    : Prop :=
  forall res, region_wise_sales transactions = Ok res ->
  forall r s, In (r, s) res ->
    percentage s
    = PyFloat.round2 (stated_percentage (group_sum Region r transactions)
                        (grand_total transactions)).

(** Entry [i] of a table of dates is the first one with the greatest
    revenue: no entry has a greater revenue, and every entry before it has
    a smaller one (or one that compares with nothing, a NaN). *)
Definition first_greatest (table : list (string * DayAcc)) (i : nat)
    (d : string) (s : DayAcc) : Prop :=
  table !! i = Some (d, s)
  /\ (forall e, In e table -> PyFloat.lt (revenue s) (revenue (snd e)) = false)
  /\ (forall j e, (j < i)%nat -> table !! j = Some e ->
        PyFloat.lt (revenue (snd e)) (revenue s) = true
        \/ PrimFloat.is_nan (revenue (snd e)) = true).

Definition sentinel : Peak := (None, PyFloat.zero, 0%Z).

(** The result of [find_peak_sales_day] as the specification states it:
    the sentinel for the empty list, the first date of greatest revenue for
    every other list. *)
Definition peak_as_stated (transactions : list Transaction) : Prop :=
  match transactions with
  | [] => find_peak_sales_day transactions = Ok sentinel
  | _ :: _ =>
      exists i d s,
        first_greatest (day_table transactions) i d s
        /\ find_peak_sales_day transactions
           = Ok (Some d, PyFloat.round2 (revenue s), day_transaction_count s)
  end.

(** ** Vocabulary of the lemmas on strings *)

Fixpoint all_chars (p : ascii -> bool) (s : string) : bool :=
  match s with
  | EmptyString => true
  | String c r => p c && all_chars p r
  end.

Fixpoint count_char (c : ascii) (s : string) : nat :=
  match s with
  | EmptyString => O
  | String d r => if Ascii.eqb d c then S (count_char c r) else count_char c r
  end.

(** A character that is neither white space, nor the field separator, nor
    a comma. *)
Definition plain_char (c : ascii) : bool :=
  negb (isspace c) && negb (Ascii.eqb c pipe) && negb (Ascii.eqb c comma).

(** ** Vocabulary of sorting *)

(** [x] comes before [y] in an ascending, resp. descending, list. *)
Definition ascends {A : Type} (key : A -> float) (x y : A) : Prop :=
  PyFloat.le (key x) (key y) = true.

Definition descends {A : Type} (key : A -> float) (x y : A) : Prop :=
  PyFloat.le (key y) (key x) = true.

Definition same_key {A : Type} (key : A -> float) (k : float) (x : A) : bool :=
  PyFloat.eq (key x) k.

(** ** Vocabulary of grouping *)

(** One turn of a grouping loop: the amount, then the entry of the key. *)
Definition group_step {V : Type} (key : Transaction -> string) (init : V)
    (add : float -> V -> V) (d : list (string * V)) (t : Transaction)
    : result (list (string * V)) :=
  let* a := amount t in Ok (od_upsert (key t) init (add a) d).

(** The entry of a key: the amounts of its transactions added one by one,
    in the order of the input. *)
Definition group_value {V : Type} (key : Transaction -> string) (init : V)
    (add : float -> V -> V) (k : string) (transactions : list Transaction) : V :=
  fold_left (fun v a => add a v) (map amount_of (in_group key k transactions)) init.

Definition group_table {V : Type} (key : Transaction -> string) (init : V)
    (add : float -> V -> V) (transactions : list Transaction) : list (string * V) :=
  map (fun k => (k, group_value key init add k transactions))
      (first_seen (map key transactions)).

(** What the second loop has found after the entries of [table]: nothing
    greater than zero, or the first entry of greatest revenue. *)
Definition peak_found (table : list (string * DayAcc)) (st : Peak) : Prop :=
  let '(peak_date, peak_revenue, peak_txn_count) := st in
  (forall e, In e table -> PyFloat.lt peak_revenue (revenue (snd e)) = false)
  /\ (st = peak_init
      \/ exists i d s,
           table !! i = Some (d, s)
           /\ st = (Some d, revenue s, day_transaction_count s)
           /\ PyFloat.lt PyFloat.zero (revenue s) = true
           /\ forall j e, (j < i)%nat -> table !! j = Some e ->
                PyFloat.le (revenue s) (revenue (snd e)) = false).


(** ** Vocabulary of the lemmas on sums of floats *)

Definition emin64 : Z := SpecFloat.emin prec emax.

(** A spec float that is greater than zero: a positive finite float or
    the positive infinity. *)
Definition sf_positive (x : spec_float) : Prop :=
  x = S754_infinity false \/ exists m e, x = S754_finite false m e.

Definition sf_nonneg (x : spec_float) : Prop :=
  sf_positive x \/ exists s, x = S754_zero s.

(** Every amount is defined and greater than zero, resp. not negative. *)
Definition positive_amounts (l : list Transaction) : Prop :=
  Forall (fun t => exists a, amount t = Ok a /\ PyFloat.lt PyFloat.zero a = true) l.

Definition nonneg_amounts (l : list Transaction) : Prop :=
  Forall (fun t => exists a, amount t = Ok a /\ PyFloat.le PyFloat.zero a = true) l.

(** ** Sample data *)

Definition sample_line : string := "T001|2024-01-05|P101|Laptop|2|50000|C001|North".

Definition sample_txn : Transaction :=
  {| TransactionID := "T001"; Date := "2024-01-05"; ProductID := "P101";
     ProductName := "Laptop"; Quantity := 2; UnitPrice := 50000%float;
     CustomerID := "C001"; Region := "North" |}.

Definition mouse_txn : Transaction :=
  {| TransactionID := "T002"; Date := "2024-01-06"; ProductID := "P7";
     ProductName := "Mouse"; Quantity := 3; UnitPrice := 10.5%float;
     CustomerID := "C002"; Region := "south" |}.

(** A line with seven fields. *)
Definition short_line : string := "T001|2024-01-05|P101|Laptop|2|50000|C001".

(** A line whose unit price reads as a NaN, and the transaction the parser
    builds from it. *)
Definition nan_line : string := "T003|2024-01-07|P3|Pen|1|nan|C003|East".

Definition nan_txn : Transaction :=
  {| TransactionID := "T003"; Date := "2024-01-07"; ProductID := "P3";
     ProductName := "Pen"; Quantity := 1; UnitPrice := nan;
     CustomerID := "C003"; Region := "East" |}.

(** A return: a transaction with a negative quantity. *)
Definition return_txn : Transaction :=
  {| TransactionID := "T004"; Date := "2024-01-08"; ProductID := "P101";
     ProductName := "Laptop"; Quantity := -1; UnitPrice := 10%float;
     CustomerID := "C001"; Region := "North" |}.

(** A free item: a transaction with a unit price of zero. *)
Definition free_txn : Transaction :=
  {| TransactionID := "T005"; Date := "2024-01-09"; ProductID := "P9";
     ProductName := "Sample"; Quantity := 1; UnitPrice := 0%float;
     CustomerID := "C004"; Region := "West" |}.

Definition sample_catalog : gmap Z CatalogEntry :=
  {[ 7%Z := {| title := Some "Wireless Mouse"; category := Some "accessories";
               brand := None; rating := Some 4.5%float |} ]}.

Definition sample_enriched : EnrichedTransaction :=
  {| base := sample_txn; API_Category := None; API_Brand := None;
     API_Rating := None; API_Match := false |}.

(** The seven fields of [short_line] with white space around them. *)
Definition padded_line : string :=
  "  T001|2024-01-05|P101|Laptop|2|50000|C001 ".

(** A transaction whose quantity is beyond the range of the floats, and
    a line the parser builds it from. *)
Definition huge_txn : Transaction :=
  {| TransactionID := "T9"; Date := "2024-01-10"; ProductID := "P1";
     ProductName := "Bolt"; Quantity := 10 ^ 400; UnitPrice := 1%float;
     CustomerID := "C9"; Region := "West" |}.

Definition huge_line : string :=
  ("T9|2024-01-10|P1|Bolt|" ++ str_of_int (10 ^ 400) ++ "|1|C9|West")%string.

(** * Vocabulary of the further properties *)

(** ** Vocabulary of the lemmas on rounding *)

(** The exponent of the floats of a given magnitude, and the number of
    binary digits of an integer. *)
Definition fexp64 (x : Z) : Z := SpecFloat.fexp prec emax x.

(** A mantissa and an exponent that the rounding of [binary_round_aux]
    accepts: the exponent is not above the one of the format. *)
Definition roundable (m e : Z) : Prop :=
  (0 <= m)%Z /\ (e <= fexp64 (Zdigits2 m + e))%Z.

(** A float that is one or more and finite: a normal float with an
    exponent of -52 at least. *)
Definition sf_at_least_one (x : spec_float) : Prop :=
  exists m e, x = S754_finite false m e /\ (2 ^ 52 <= Zpos m)%Z /\ (-52 <= e)%Z.

(** A float with the sign [s] that is not a NaN. *)
Definition sf_signed (s : bool) (x : spec_float) : Prop :=
  x = S754_zero s \/ x = S754_infinity s \/ exists m e, x = S754_finite s m e.

(** ** Vocabulary of sorting with a key of an ordered type *)

(** [x] may stand before [y] in an ascending, resp. descending, list:
    the key of the second is not smaller, resp. not greater. *)
Definition ascends_by {A K : Type} (ltb : K -> K -> bool) (key : A -> K)
    (x y : A) : Prop :=
  ltb (key y) (key x) = false.

Definition descends_by {A K : Type} (ltb : K -> K -> bool) (key : A -> K)
    (x y : A) : Prop :=
  ltb (key x) (key y) = false.

(** A comparison that orders the keys: it is asymmetric, and its
    negation is transitive. *)
Record orders {K : Type} (ltb : K -> K -> bool) : Prop := {
  orders_asym : forall a b, ltb a b = true -> ltb b a = false;
  orders_trans : forall a b c, ltb b a = false -> ltb c b = false -> ltb c a = false
}.

(** ** Vocabulary of grouping with a value that depends on the transaction *)

(** One turn of a grouping loop whose update reads the transaction as
    well as its amount. *)
Definition group_step_with {V : Type} (key : Transaction -> string) (init : V)
    (add : Transaction -> float -> V -> V) (d : list (string * V))
    (t : Transaction) : result (list (string * V)) :=
  let* a := amount t in Ok (od_upsert (key t) init (add t a) d).

Definition group_value_with {V : Type} (key : Transaction -> string) (init : V)
    (add : Transaction -> float -> V -> V) (k : string)
    (transactions : list Transaction) : V :=
  fold_left (fun v t => add t (amount_of t) v) (in_group key k transactions) init.

Definition group_table_with {V : Type} (key : Transaction -> string) (init : V)
    (add : Transaction -> float -> V -> V) (transactions : list Transaction)
    : list (string * V) :=
  map (fun k => (k, group_value_with key init add k transactions))
      (first_seen (map key transactions)).

(** The sum of integers, in the order of the list. *)
Definition int_sum (l : list Z) : Z := fold_left Z.add l 0%Z.

(** The quantities of a group, added. *)
Definition group_quantity (key : Transaction -> string) (k : string)
    (transactions : list Transaction) : Z :=
  int_sum (map Quantity (in_group key k transactions)).

(** The number of distinct keys. *)
Definition number_of (key : Transaction -> string)
    (transactions : list Transaction) : Z :=
  len (first_seen (map key transactions)).

(** ** Vocabulary of the product rankings *)

(** The entry of a product, and the products in first-seen order. *)
Definition product_stats_entry (transactions : list Transaction) (p : string)
    : string * ProductAcc :=
  (p, {| total_quantity := group_quantity ProductName p transactions;
         total_revenue := group_sum ProductName p transactions |}).

Definition product_stats_table (transactions : list Transaction)
    : list (string * ProductAcc) :=
  map (product_stats_entry transactions)
      (first_seen (map ProductName transactions)).

Definition product_rows (transactions : list Transaction) : list ProductRow :=
  map product_row (product_stats_table transactions).

Definition quantity_descends (x y : ProductRow) : Prop :=
  (row_quantity y <= row_quantity x)%Z.

Definition quantity_ascends (x y : ProductRow) : Prop :=
  (row_quantity x <= row_quantity y)%Z.

Definition has_quantity (q : Z) (x : ProductRow) : bool :=
  (row_quantity x =? q)%Z.

Definition below (threshold : Z) (x : ProductRow) : bool :=
  (row_quantity x <? threshold)%Z.

(** ** Vocabulary of the customer analysis *)

(** The float of an integer that has one. *)
Definition float_of (z : Z) : float :=
  match PyFloat.float_of_int z with
  | Ok f => f
  | Raise _ => PyFloat.zero
  end.

(** The entry of a customer after the first loop. *)
Definition customer_acc_entry (transactions : list Transaction) (c : string)
    : string * CustomerAcc :=
  (c, {| acc_total_spent := group_sum CustomerID c transactions;
         acc_purchase_count := group_size CustomerID c transactions;
         acc_products_bought :=
           list_to_set (map ProductName (in_group CustomerID c transactions)) |}).

(** The entry of a customer, and the customers in first-seen order. *)
Definition customer_entry (transactions : list Transaction) (c : string)
    : string * CustomerStats :=
  (c, {| total_spent := PyFloat.round2 (group_sum CustomerID c transactions);
         purchase_count := group_size CustomerID c transactions;
         avg_order_value :=
           PyFloat.round2
             (PrimFloat.div (group_sum CustomerID c transactions)
                (float_of (group_size CustomerID c transactions)));
         products_bought :=
           sorted_set (map ProductName (in_group CustomerID c transactions)) |}).

Definition customer_table (transactions : list Transaction)
    : list (string * CustomerStats) :=
  map (customer_entry transactions) (first_seen (map CustomerID transactions)).

(** A list of strings in strictly ascending order. *)
Definition strictly_ascending (l : list string) : Prop :=
  StronglySorted (fun x y => String.ltb x y = true) l.

(** ** Vocabulary of the daily trend *)

(** The entry of a date, and the dates in first-seen order. *)
Definition trend_entry (transactions : list Transaction) (d : string)
    : string * TrendStats :=
  (d, {| trend_revenue := PyFloat.round2 (group_sum Date d transactions);
         trend_transaction_count := group_size Date d transactions;
         unique_customers :=
           len (first_seen (map CustomerID (in_group Date d transactions))) |}).

Definition trend_table (transactions : list Transaction)
    : list (string * TrendStats) :=
  map (trend_entry transactions) (first_seen (map Date transactions)).

(** ** Vocabulary of the product mapping *)

(** The dictionaries of the list whose identifier is [k], in order. *)
Definition products_with_id (k : Z) (api_products : list ApiItem)
    : list ApiProduct :=
  omap (fun item =>
          match item with
          | Dict product =>
              if decide (api_id product = Some k) then Some product else None
          | NotADict => None
          end) api_products.

(** The value the mapping holds for a dictionary. *)
Definition catalog_entry (product : ApiProduct) : CatalogEntry :=
  {| title := api_title product; category := api_category product;
     brand := api_brand product; rating := api_rating product |}.

(** The entry of a date after the first loop of [daily_sales_trend]. *)
Definition trend_acc_entry (transactions : list Transaction) (d : string)
    : string * TrendAcc :=
  (d, {| acc_revenue := group_sum Date d transactions;
         acc_day_count := group_size Date d transactions;
         acc_customers :=
           list_to_set (map CustomerID (in_group Date d transactions)) |}).

(** The entries of the trend are in strictly ascending order of the
    date. *)
Definition date_ascends (x y : string * TrendStats) : Prop :=
  String.ltb (fst x) (fst y) = true.

(** One turn of [max(..., key=revenue)]. *)
Definition greater_revenue (m i : string * DayAcc) : string * DayAcc :=
  if PyFloat.lt (revenue (snd m)) (revenue (snd i)) then i else m.

(** The triple [find_peak_sales_day] makes of an entry, before the
    rounding. *)
Definition peak_of (e : string * DayAcc) : Peak :=
  (Some (fst e), revenue (snd e), day_transaction_count (snd e)).

(** ** More sample data *)

(** The enrichment fields copied from a dictionary of the API. *)
Definition api_from_product (product : ApiProduct)
    : option string * option string * option float * bool :=
  (api_category product, api_brand product, api_rating product, true).

(** An item that [create_product_mapping] skips: no dictionary, or a
    dictionary without an identifier. *)
Definition has_no_id (item : ApiItem) : Prop :=
  match item with
  | Dict product => api_id product = None
  | NotADict => True
  end.

(** Two dictionaries of the API with the same identifier, and an item
    that is no dictionary. *)
Definition mouse_product : ApiProduct :=
  {| api_id := Some 7%Z; api_title := Some "Mouse"; api_category := Some "accessories";
     api_brand := None; api_rating := Some 4.5%float |}.

Definition mouse_product_again : ApiProduct :=
  {| api_id := Some 7%Z; api_title := Some "Mouse v2"; api_category := Some "gaming";
     api_brand := Some "Acme"; api_rating := None |}.

Definition anonymous_product : ApiProduct :=
  {| api_id := None; api_title := Some "Nameless"; api_category := None;
     api_brand := None; api_rating := None |}.

(** ** Vocabulary of the reader *)

(** A line that holds white space only. *)
Definition blank (line : string) : bool := negb (truthy (strip line)).

(** The encodings before [encoding] in the list all fail to decode the
    file, and [encoding] comes to [outcome]. *)
Definition first_to_answer (open_file : string -> Opened) (encoding : string)
    (outcome : Opened) : Prop :=
  exists pre post,
    encodings = pre ++ encoding :: post
    /\ Forall (fun enc => open_file enc = UnicodeDecodeError) pre
    /\ open_file encoding = outcome.

(** A file whose text is not valid UTF-8: the second encoding reads it. *)
Definition latin1_file (encoding : string) : Opened :=
  if String.eqb encoding "utf-8" then UnicodeDecodeError
  else Lines ["TransactionID|Date|ProductID|ProductName|Quantity|UnitPrice|CustomerID|Region";
              "T001|2024-01-05|P101|Laptop|2|50000|C001|North ";
              "   ";
              "T001|2024-01-05|P101|Laptop|2|50000|C001"]%string.

(** ** Vocabulary of the validator *)

(** The least and the greatest of the amounts, as the display step takes
    them. *)
Definition amount_range (amounts : list float) : option (float * float) :=
  match amounts with
  | [] => None
  | x :: r =>
      Some (fold_left (fun m i => if PyFloat.lt i m then i else m) r x,
            fold_left (fun m i => if PyFloat.lt m i then i else m) r x)
  end.

(** What the display step prints for a valid set. *)
Definition display_of (valid_transactions : list Transaction) : Display :=
  {| shown_regions := sorted_set (map Region valid_transactions);
     shown_amount_range := amount_range (map amount_of valid_transactions) |}.

(** What [validate_and_filter] returns when the amounts of the valid
    transactions are defined. *)
Definition validated_of (transactions : list Transaction) (region : option string)
    (min_amount max_amount : option float) : Validated :=
  let valid := valid_set transactions in
  let by_region := kept_by_region region valid in
  let by_amount := filter (fun t => amount_within min_amount max_amount t) by_region in
  {| printed := display_of valid;
     filtered_transactions := by_amount;
     invalid_count := snd (validate transactions);
     summary := {| total_input := len transactions;
                   invalid := snd (validate transactions);
                   filtered_by_region := len valid - len by_region;
                   filtered_by_amount := len by_region - len by_amount;
                   final_count := len by_amount |} |}.

(** The region of a transaction is the one asked for, if one is. *)
Definition in_region (region : option string) (t : Transaction) : Prop :=
  match region with
  | Some r => truthy r = true -> same_ignoring_case (Region t) r = true
  | None => True
  end.

(** The two checks of the validator that the parser does not make. *)
Definition prefixes_ok (t : Transaction) : bool :=
  startswith (ProductID t) "P" && startswith (CustomerID t) "C".

(** ** Vocabulary of the pipeline *)

(** No unit price is a NaN. *)
Definition prices_are_numbers (l : list Transaction) : Prop :=
  Forall (fun t => PyFloat.notnan (UnitPrice t)) l.

(** A second line of the file. *)
Definition mouse_line : string := "T002|2024-01-06|P7|Mouse|3|10.5|C002|south".

(** ** Vocabulary of the enriched file *)

Definition newline : string := String "010"%char EmptyString.

(** The twelve fields of a line of the enriched file, the last one with
    the end of the line. *)
Definition written_fields `{Builtins} (e : EnrichedTransaction) : list string :=
  base_fields (base e)
  ++ [or_empty_str (API_Category e); or_empty_str (API_Brand e);
      or_empty_float (API_Rating e); (str_of_bool (API_Match e) ++ newline)%string].

(** The number of field separators inside the fields of a list. *)
Definition separators_in (fields : list string) : nat :=
  fold_right (fun p n => (count_char pipe p + n)%nat) O fields.

(** A second purchase of the first customer, and three transactions of
    two customers, two products and two dates. *)
Definition second_mouse_txn : Transaction :=
  {| TransactionID := "T010"; Date := "2024-01-05"; ProductID := "P7";
     ProductName := "Mouse"; Quantity := 4; UnitPrice := 10.5%float;
     CustomerID := "C001"; Region := "North" |}.

Definition three_txns : list Transaction :=
  [sample_txn; mouse_txn; second_mouse_txn].

(** * Lists, loops and strings *)

#[local] Arguments String.append : simpl nomatch.

Lemma filter_bool_cons {A : Type} (f : A -> bool) (x : A) (l : list A) :
  filter (fun y => f y) (x :: l) = if f x then x :: filter (fun y => f y) l
                                   else filter (fun y => f y) l.
Proof.
  rewrite filter_cons. destruct (f x) eqn:E.
  - rewrite decide_True by (now apply Is_true_true). reflexivity.
  - rewrite decide_False by (now apply Is_true_false). reflexivity.
Qed.

Lemma omap_cons_eq {A B : Type} (f : A -> option B) (x : A) (l : list A) :
  omap f (x :: l) = match f x with
                    | Some y => y :: omap f l
                    | None => omap f l
                    end.
Proof. reflexivity. Qed.

(** ** Characters and parts of strings *)

Lemma split_not_nil (sep : ascii) (s : string) : split sep s <> [].
Proof.
  destruct s as [|c r]; simpl; [discriminate|].
  destruct (Ascii.eqb c sep); [discriminate|].
  destruct (split sep r); discriminate.
Qed.

Lemma length_split (sep : ascii) (s : string) :
  length (split sep s) = S (count_char sep s).
Proof.
  induction s as [|c r IH]; [reflexivity|]. simpl.
  destruct (Ascii.eqb c sep); simpl; [now rewrite IH|].
  destruct (split sep r) eqn:E; [now destruct (split_not_nil sep r)|].
  exact IH.
Qed.

Lemma split_parts_no_sep (sep : ascii) (s : string) :
  Forall (fun p => contains sep p = false) (split sep s).
Proof.
  induction s as [|c r IH]; simpl.
  - constructor; [reflexivity|constructor].
  - destruct (Ascii.eqb c sep) eqn:E.
    + constructor; [reflexivity|exact IH].
    + destruct (split sep r) as [|p ps]; inversion IH; subst;
        constructor; simpl; rewrite ?E; simpl; auto.
Qed.

Lemma split_no_sep (sep : ascii) (p : string) :
  contains sep p = false -> split sep p = [p].
Proof.
  induction p as [|c r IH]; [reflexivity|]. simpl.
  intros Hc. apply orb_false_iff in Hc as [Hc Hr].
  rewrite Hc, (IH Hr). reflexivity.
Qed.

Lemma split_app_sep (sep : ascii) (p rest : string) :
  contains sep p = false ->
  split sep (p ++ String sep rest) = p :: split sep rest.
Proof.
  induction p as [|c r IH]; simpl.
  - intros _. now rewrite Ascii.eqb_refl.
  - intros Hc. apply orb_false_iff in Hc as [Hc Hr].
    rewrite Hc, (IH Hr). reflexivity.
Qed.

Lemma join_cons (sep : ascii) (p : string) (l : list string) :
  l <> [] -> join sep (p :: l) = (p ++ String sep (join sep l))%string.
Proof. destruct l; [congruence|reflexivity]. Qed.

Lemma append_cons (c : ascii) (a b : string) :
  (String c a ++ b)%string = String c (a ++ b).
Proof. reflexivity. Qed.

Lemma string_app_assoc (a b c : string) : ((a ++ b) ++ c = a ++ (b ++ c))%string.
Proof. induction a as [|x a IH]; simpl; [reflexivity|now rewrite IH]. Qed.

Lemma string_app_nil_r (a : string) : (a ++ "")%string = a.
Proof. induction a as [|x a IH]; simpl; [reflexivity|now rewrite IH]. Qed.

(** Splitting a line that starts with separator-free fields gives these
    fields back, followed by the parts of the rest. *)
Lemma split_join_prefix (sep : ascii) (fields : list string) (rest : string) :
  fields <> [] ->
  Forall (fun p => contains sep p = false) fields ->
  split sep (join sep fields ++ String sep rest) = fields ++ split sep rest.
Proof.
  induction fields as [|p l IH]; [congruence|]. intros _ Hall.
  inversion Hall as [|? ? Hp Hl]; subst.
  destruct l as [|q l].
  - simpl join. now apply split_app_sep.
  - rewrite join_cons by discriminate.
    rewrite string_app_assoc, append_cons.
    rewrite (split_app_sep sep p _ Hp), IH by (discriminate || assumption).
    reflexivity.
Qed.

Lemma split_join (sep : ascii) (fields : list string) :
  fields <> [] ->
  Forall (fun p => contains sep p = false) fields ->
  split sep (join sep fields) = fields.
Proof.
  induction fields as [|p l IH]; [congruence|]. intros _ Hall.
  inversion Hall as [|? ? Hp Hl]; subst.
  destruct l as [|q l].
  - simpl join. now apply split_no_sep.
  - rewrite join_cons by discriminate.
    rewrite (split_app_sep sep p _ Hp), IH by (discriminate || assumption).
    reflexivity.
Qed.

Lemma join_app (sep : ascii) (l1 l2 : list string) :
  l1 <> [] -> l2 <> [] ->
  join sep (l1 ++ l2) = (join sep l1 ++ String sep (join sep l2))%string.
Proof.
  induction l1 as [|p l IH]; [congruence|]. intros _ H2.
  destruct l as [|q l].
  - simpl app. now rewrite join_cons.
  - change ((p :: q :: l) ++ l2) with (p :: ((q :: l) ++ l2)).
    rewrite !join_cons by (discriminate || (destruct l2; [congruence|discriminate])).
    rewrite IH by (discriminate || assumption).
    now rewrite string_app_assoc, append_cons.
Qed.

Lemma count_char_app (c : ascii) (a b : string) :
  count_char c (a ++ b) = (count_char c a + count_char c b)%nat.
Proof.
  induction a as [|x a IH]; simpl; [reflexivity|].
  destruct (Ascii.eqb x c); simpl; now rewrite IH.
Qed.

Lemma count_char_join (sep : ascii) (l : list string) :
  (length l <= S (count_char sep (join sep l)))%nat.
Proof.
  induction l as [|p l IH]; [simpl; lia|].
  destruct l as [|q l]; [simpl; lia|].
  rewrite join_cons by discriminate.
  rewrite count_char_app.
  change (count_char sep (String sep (join sep (q :: l))))
    with (if Ascii.eqb sep sep then S (count_char sep (join sep (q :: l)))
          else count_char sep (join sep (q :: l))).
  rewrite Ascii.eqb_refl.
  change (length (p :: q :: l)) with (S (length (q :: l))). lia.
Qed.

(** ** [strip] *)

Lemma count_char_lstrip (c : ascii) (s : string) :
  isspace c = false -> count_char c (lstrip s) = count_char c s.
Proof.
  intros Hc. induction s as [|x s IH]; [reflexivity|]. simpl.
  destruct (isspace x) eqn:Hx; [|reflexivity].
  rewrite IH. destruct (Ascii.eqb_spec x c); [congruence|reflexivity].
Qed.

Lemma count_char_rstrip (c : ascii) (s : string) :
  isspace c = false -> count_char c (rstrip s) = count_char c s.
Proof.
  intros Hc. induction s as [|x s IH]; [reflexivity|]. simpl.
  destruct (rstrip s) as [|y r] eqn:E.
  - destruct (isspace x) eqn:Hx; simpl; rewrite <- IH; simpl.
    + destruct (Ascii.eqb_spec x c); [congruence|reflexivity].
    + reflexivity.
  - simpl in *. rewrite <- IH. reflexivity.
Qed.

Lemma count_char_strip (c : ascii) (s : string) :
  isspace c = false -> count_char c (strip s) = count_char c s.
Proof.
  intros Hc. unfold strip. now rewrite count_char_rstrip, count_char_lstrip.
Qed.

Lemma contains_count (c : ascii) (s : string) :
  contains c s = false <-> count_char c s = O.
Proof.
  induction s as [|x s IH]; simpl; [tauto|].
  destruct (Ascii.eqb x c); simpl; [split; discriminate|exact IH].
Qed.

Lemma contains_strip (c : ascii) (s : string) :
  isspace c = false -> contains c s = false -> contains c (strip s) = false.
Proof.
  intros Hc. rewrite !contains_count, count_char_strip by assumption. tauto.
Qed.

Lemma rstrip_idem (s : string) : rstrip (rstrip s) = rstrip s.
Proof.
  induction s as [|x s IH]; [reflexivity|]. simpl.
  destruct (rstrip s) as [|y r] eqn:E.
  - destruct (isspace x) eqn:Hx; simpl; [reflexivity|now rewrite Hx].
  - simpl in IH |- *. rewrite IH. reflexivity.
Qed.

Lemma lstrip_head (s : string) :
  match lstrip s with
  | EmptyString => True
  | String c _ => isspace c = false
  end.
Proof.
  induction s as [|x s IH]; simpl; [exact I|].
  destruct (isspace x) eqn:Hx; [exact IH|exact Hx].
Qed.

Lemma lstrip_fixed (s : string) :
  match s with
  | EmptyString => True
  | String c _ => isspace c = false
  end -> lstrip s = s.
Proof. destruct s as [|c r]; simpl; [reflexivity|now intros ->]. Qed.

Lemma rstrip_head (s : string) :
  match s with
  | EmptyString => True
  | String c _ => isspace c = false
  end ->
  match rstrip s with
  | EmptyString => s = EmptyString
  | String c _ => isspace c = false
  end.
Proof.
  destruct s as [|c r]; simpl; [reflexivity|]. intros Hc.
  destruct (rstrip r); [rewrite Hc|]; exact Hc.
Qed.

Lemma lstrip_strip (s : string) : lstrip (strip s) = strip s.
Proof.
  unfold strip. apply lstrip_fixed.
  pose proof (rstrip_head (lstrip s) (lstrip_head s)) as Hr.
  destruct (rstrip (lstrip s)); [exact I|exact Hr].
Qed.

Lemma strip_idem (s : string) : strip (strip s) = strip s.
Proof.
  unfold strip at 1. rewrite lstrip_strip. unfold strip. apply rstrip_idem.
Qed.

Lemma rstrip_strip (s : string) : rstrip (strip s) = strip s.
Proof. unfold strip. apply rstrip_idem. Qed.

Lemma rstrip_app (a b : string) :
  b <> EmptyString -> rstrip b = b -> rstrip (a ++ b) = (a ++ b)%string.
Proof.
  intros Hb Hr. induction a as [|x a IH]; simpl; [exact Hr|].
  rewrite IH. destruct (a ++ b)%string eqn:E; [|reflexivity].
  destruct a; simpl in E; [contradiction|discriminate].
Qed.

Lemma lstrip_app (a b : string) :
  a <> EmptyString -> lstrip a = a -> lstrip (a ++ b) = (a ++ b)%string.
Proof.
  intros Ha Hl. destruct a as [|x a]; [contradiction|]. simpl in *.
  destruct (isspace x); [|reflexivity].
  exfalso. assert (Hlen : String.length (lstrip a) = S (String.length a))
    by (rewrite Hl; reflexivity).
  clear -Hlen. assert (String.length (lstrip a) <= String.length a)%nat; [|lia].
  clear. induction a as [|y a IH]; simpl; [lia|].
  destruct (isspace y); simpl; lia.
Qed.

Lemma strip_no_space (s : string) :
  all_chars (fun c => negb (isspace c)) s = true -> strip s = s.
Proof.
  intros Hall. unfold strip.
  assert (Hl : lstrip s = s).
  { destruct s as [|c r]; [reflexivity|]. simpl in *.
    apply andb_true_iff in Hall as [Hc _]. apply negb_true_iff in Hc.
    now rewrite Hc. }
  rewrite Hl. clear Hl. induction s as [|c r IH]; [reflexivity|].
  simpl in *. apply andb_true_iff in Hall as [Hc Hr].
  rewrite (IH Hr). apply negb_true_iff in Hc. rewrite Hc.
  destruct r; reflexivity.
Qed.

(** ** [replace] *)

Lemma replace_absent (old : ascii) (new s : string) :
  contains old s = false -> replace old new s = s.
Proof.
  induction s as [|c r IH]; [reflexivity|]. simpl.
  intros Hc. apply orb_false_iff in Hc as [Hc Hr].
  rewrite Hc, (IH Hr). reflexivity.
Qed.

Lemma contains_app (c : ascii) (a b : string) :
  contains c (a ++ b) = contains c a || contains c b.
Proof.
  induction a as [|x a IH]; simpl; [reflexivity|].
  rewrite IH. now rewrite orb_assoc.
Qed.

Lemma contains_replace (c old : ascii) (new s : string) :
  contains c new = false -> contains c s = false ->
  contains c (replace old new s) = false.
Proof.
  intros Hn. induction s as [|x s IH]; [reflexivity|]. simpl.
  intros Hc. apply orb_false_iff in Hc as [Hx Hs].
  destruct (Ascii.eqb x old).
  - rewrite contains_app, Hn, (IH Hs). reflexivity.
  - simpl. rewrite Hx, (IH Hs). reflexivity.
Qed.

Lemma contains_replace_old (old : ascii) (new s : string) :
  contains old new = false -> contains old (replace old new s) = false.
Proof.
  intros Hn. induction s as [|x s IH]; [reflexivity|]. simpl.
  destruct (Ascii.eqb x old) eqn:E.
  - rewrite contains_app, Hn, IH. reflexivity.
  - simpl. rewrite E, IH. reflexivity.
Qed.

Lemma all_chars_plain (s : string) :
  all_chars plain_char s = true ->
  contains pipe s = false /\ contains comma s = false
  /\ all_chars (fun c => negb (isspace c)) s = true.
Proof.
  induction s as [|c r IH]; simpl; [auto|].
  intros Hall. apply andb_true_iff in Hall as [Hc Hr].
  destruct (IH Hr) as (H1 & H2 & H3). unfold plain_char in Hc.
  apply andb_true_iff in Hc as [Hc Hcomma]. apply andb_true_iff in Hc as [Hsp Hpipe].
  apply negb_true_iff in Hcomma, Hpipe.
  rewrite Hcomma, Hpipe, Hsp, H1, H2, H3. auto.
Qed.

(** * Splitting a stripped line *)

Lemma lstrip_rstrip (s : string) : lstrip (rstrip s) = rstrip (lstrip s).
Proof.
  induction s as [|x s IH]; [reflexivity|]. simpl.
  destruct (isspace x) eqn:Hx.
  - rewrite <- IH. destruct (rstrip s) as [|y r]; simpl; [reflexivity|].
    now rewrite Hx.
  - change (rstrip (String x s)) with
      (match rstrip s with
       | EmptyString => if isspace x then EmptyString else String x EmptyString
       | String y r => String x (String y r)
       end).
    destruct (rstrip s) as [|y r]; rewrite ?Hx; simpl; now rewrite Hx.
Qed.

Lemma lstrip_idem (s : string) : lstrip (lstrip s) = lstrip s.
Proof. apply lstrip_fixed, lstrip_head. Qed.

Lemma strip_lstrip (s : string) : strip (lstrip s) = strip s.
Proof. unfold strip. now rewrite lstrip_idem. Qed.

Lemma strip_rstrip (s : string) : strip (rstrip s) = strip s.
Proof. unfold strip. now rewrite lstrip_rstrip, rstrip_idem. Qed.

(** White space in front of a line is white space in front of its first
    field. *)
Lemma split_lstrip (sep : ascii) (s : string) :
  isspace sep = false ->
  split sep (lstrip s)
  = match split sep s with
    | p :: ps => lstrip p :: ps
    | [] => []
    end.
Proof.
  intros Hsep. induction s as [|x s IH]; [reflexivity|]. simpl.
  destruct (isspace x) eqn:Hx.
  - destruct (Ascii.eqb_spec x sep) as [->|_]; [congruence|].
    rewrite IH. destruct (split sep s) as [|p ps] eqn:E; [|simpl; now rewrite Hx].
    now destruct (split_not_nil sep s).
  - simpl. destruct (Ascii.eqb x sep); [reflexivity|].
    destruct (split sep s) as [|p ps]; simpl; now rewrite Hx.
Qed.

Lemma split_empty (sep : ascii) (s : string) :
  split sep s = [EmptyString] -> s = EmptyString.
Proof.
  destruct s as [|x s]; [reflexivity|]. simpl.
  destruct (Ascii.eqb x sep).
  - intros [= E]. now destruct (split_not_nil sep s).
  - destruct (split sep s); discriminate.
Qed.

(** White space at the end of a line is white space at the end of its
    last field. *)
Lemma split_rstrip (sep : ascii) (s : string) :
  isspace sep = false ->
  exists ps p, split sep s = ps ++ [p] /\ split sep (rstrip s) = ps ++ [rstrip p].
Proof.
  intros Hsep. induction s as [|x s (ps & p & Hs & Hr)].
  - exists [], EmptyString. split; reflexivity.
  - change (rstrip (String x s)) with
      (match rstrip s with
       | EmptyString => if isspace x then EmptyString else String x EmptyString
       | String y r => String x (String y r)
       end).
    cbn [split]. rewrite Hs.
    destruct (rstrip s) as [|y r] eqn:E.
    + assert (Hps : ps = [] /\ rstrip p = EmptyString).
      { simpl in Hr. destruct ps as [|q [|q' ps]]; simpl in Hr.
        - injection Hr as <-. now split.
        - discriminate.
        - discriminate. }
      destruct Hps as [-> Hp]. cbn [app].
      destruct (isspace x) eqn:Hx.
      * destruct (Ascii.eqb_spec x sep) as [->|_]; [congruence|].
        exists [], (String x p). split; [reflexivity|].
        simpl. now rewrite Hp, Hx.
      * destruct (Ascii.eqb x sep) eqn:Exs.
        -- exists [EmptyString], p. split; [reflexivity|].
           simpl. rewrite Exs, Hp. reflexivity.
        -- exists [], (String x p). split; [reflexivity|].
           simpl. now rewrite Exs, Hp, Hx.
    + change (split sep (String x (String y r))) with
        (if Ascii.eqb x sep then EmptyString :: split sep (String y r)
         else match split sep (String y r) with
              | [] => [String x EmptyString]
              | q :: qs => String x q :: qs
              end).
      rewrite Hr.
      destruct (Ascii.eqb x sep) eqn:Exs.
      * exists (EmptyString :: ps), p. split; reflexivity.
      * destruct ps as [|q ps]; cbn [app].
        -- exists [], (String x p). split; [reflexivity|].
           simpl. destruct (rstrip p) as [|z w] eqn:Ep; [|reflexivity].
           apply (split_empty sep (String y r)) in Hr. discriminate.
        -- exists (String x q :: ps), p. split; reflexivity.
Qed.

(** The eight fields of a stripped line are those of the line, the
    first without the white space in front of it and the last without
    the white space after it. *)
Lemma split_strip_eight (sep : ascii) (s p0 p1 p2 p3 p4 p5 p6 p7 : string) :
  isspace sep = false ->
  split sep s = [p0; p1; p2; p3; p4; p5; p6; p7] ->
  split sep (strip s) = [lstrip p0; p1; p2; p3; p4; p5; p6; rstrip p7].
Proof.
  intros Hsep Hs. unfold strip.
  destruct (split_rstrip sep (lstrip s) Hsep) as (ps & p & Hl & Hr).
  rewrite (split_lstrip sep s Hsep), Hs in Hl.
  change [lstrip p0; p1; p2; p3; p4; p5; p6; p7]
    with ([lstrip p0; p1; p2; p3; p4; p5; p6] ++ [p7]) in Hl.
  apply app_inj_tail in Hl as [<- <-]. exact Hr.
Qed.

(** * The order of floats *)

Module FloatOrder.
Import PyFloat.

Ltac sf_cases :=
  repeat match goal with
         | x : spec_float |- _ => destruct x
         | s : bool |- _ => destruct s
         end; cbn in *; try congruence.

Ltac cmp_cases :=
  repeat match goal with
         | |- context [Z.compare ?a ?b] => destruct (Z.compare_spec a b)
         | H : context [Z.compare ?a ?b] |- _ => destruct (Z.compare_spec a b)
         | |- context [Pos.compare_cont Eq ?a ?b] =>
             change (Pos.compare_cont Eq a b) with (Pos.compare a b);
             destruct (Pos.compare_spec a b)
         | H : context [Pos.compare_cont Eq ?a ?b] |- _ =>
             change (Pos.compare_cont Eq a b) with (Pos.compare a b) in H;
             destruct (Pos.compare_spec a b)
         end; cbn in *; try congruence; try lia.

Lemma SFleb_trans x y z :
  SFleb x y = true -> SFleb y z = true -> SFleb x z = true.
Proof. unfold SFleb. sf_cases; cmp_cases. Qed.

Lemma SFltb_leb_trans x y z :
  SFltb x y = true -> SFleb y z = true -> SFltb x z = true.
Proof. unfold SFleb, SFltb. sf_cases; cmp_cases. Qed.

Lemma SFleb_ltb_trans x y z :
  SFleb x y = true -> SFltb y z = true -> SFltb x z = true.
Proof. unfold SFleb, SFltb. sf_cases; cmp_cases. Qed.

Lemma SFltb_total x y :
  x <> S754_nan -> y <> S754_nan -> SFltb x y = false -> SFleb y x = true.
Proof. unfold SFleb, SFltb. sf_cases; cmp_cases. Qed.

Lemma SFltb_asym x y : SFltb x y = true -> SFleb y x = false.
Proof. unfold SFleb, SFltb. sf_cases; cmp_cases. Qed.

Lemma SFltb_leb x y : SFltb x y = true -> SFleb x y = true.
Proof. unfold SFleb, SFltb. sf_cases; cmp_cases. Qed.

Lemma SFeqb_leb x y :
  SFeqb x y = true <-> SFleb x y = true /\ SFleb y x = true.
Proof. unfold SFleb, SFeqb. split; [|intros []]; sf_cases; cmp_cases. Qed.

Lemma SFleb_notnan x y : SFleb x y = true -> x <> S754_nan /\ y <> S754_nan.
Proof.
  unfold SFleb. intros Hl.
  split; intros E; rewrite E in Hl; [|destruct x]; cbn in Hl; congruence.
Qed.

Lemma SFeqb_refl x : x <> S754_nan -> SFeqb x x = true.
Proof. unfold SFeqb. sf_cases; cmp_cases. Qed.

Lemma SFeqb_nan x : SFeqb x x = true -> x <> S754_nan.
Proof. unfold SFeqb. intros Hl E. rewrite E in Hl. cbn in Hl. congruence. Qed.

(** The same facts on floats. *)

Lemma notnan_spec x : notnan x <-> Prim2SF x <> S754_nan.
Proof.
  unfold notnan, PrimFloat.is_nan. rewrite FloatAxioms.eqb_spec, negb_false_iff. split.
  - apply SFeqb_nan.
  - apply SFeqb_refl.
Qed.

Lemma le_trans x y z : le x y = true -> le y z = true -> le x z = true.
Proof. unfold le. rewrite !FloatAxioms.leb_spec. apply SFleb_trans. Qed.

Lemma lt_le_trans x y z : lt x y = true -> le y z = true -> lt x z = true.
Proof. unfold le, lt. rewrite !FloatAxioms.leb_spec, !FloatAxioms.ltb_spec. apply SFltb_leb_trans. Qed.

Lemma le_lt_trans x y z : le x y = true -> lt y z = true -> lt x z = true.
Proof. unfold le, lt. rewrite !FloatAxioms.leb_spec, !FloatAxioms.ltb_spec. apply SFleb_ltb_trans. Qed.

Lemma lt_false_le x y :
  notnan x -> notnan y -> lt x y = false -> le y x = true.
Proof.
  unfold le, lt. rewrite !notnan_spec, FloatAxioms.leb_spec, FloatAxioms.ltb_spec. apply SFltb_total.
Qed.

Lemma lt_asym x y : lt x y = true -> le y x = false.
Proof. unfold le, lt. rewrite FloatAxioms.leb_spec, FloatAxioms.ltb_spec. apply SFltb_asym. Qed.

Lemma le_lt_false x y : le y x = true -> lt x y = false.
Proof.
  intros Hle. destruct (lt x y) eqn:Hlt; [|reflexivity].
  apply lt_asym in Hlt. congruence.
Qed.

Lemma lt_le x y : lt x y = true -> le x y = true.
Proof. unfold le, lt. rewrite FloatAxioms.leb_spec, FloatAxioms.ltb_spec. apply SFltb_leb. Qed.

Lemma eq_le x y : eq x y = true <-> le x y = true /\ le y x = true.
Proof. unfold le, eq. rewrite FloatAxioms.eqb_spec, !FloatAxioms.leb_spec. apply SFeqb_leb. Qed.

Lemma le_notnan x y : le x y = true -> notnan x /\ notnan y.
Proof. unfold le. rewrite FloatAxioms.leb_spec, !notnan_spec. apply SFleb_notnan. Qed.

Lemma lt_notnan x y : lt x y = true -> notnan x /\ notnan y.
Proof. intros Hlt. apply le_notnan. now apply lt_le. Qed.

Lemma le_refl x : notnan x -> le x x = true.
Proof.
  intros Hx. apply (lt_false_le x x Hx Hx).
  destruct (lt x x) eqn:Hlt; [|reflexivity].
  pose proof (lt_asym _ _ Hlt) as Ha. apply lt_le in Hlt. congruence.
Qed.

(** On floats that are not NaN, [not (x <= 0)] is [x > 0]. *)
Lemma le_false_lt x y : notnan x -> notnan y -> le x y = false -> lt y x = true.
Proof.
  intros Hx Hy Hle. destruct (lt y x) eqn:Hlt; [reflexivity|].
  apply lt_false_le in Hlt; [congruence|assumption..].
Qed.

Lemma lt_trans x y z : lt x y = true -> lt y z = true -> lt x z = true.
Proof. intros Hxy Hyz. eapply lt_le_trans; [exact Hxy|now apply lt_le]. Qed.

Lemma lt_irrefl x : lt x x = false.
Proof.
  destruct (lt x x) eqn:Hlt; [|reflexivity].
  pose proof (lt_asym _ _ Hlt) as Ha. apply lt_le in Hlt. congruence.
Qed.

Lemma le_false_cases x y :
  notnan x -> le x y = false -> lt y x = true \/ PrimFloat.is_nan y = true.
Proof.
  intros Hx Hle. destruct (PrimFloat.is_nan y) eqn:Hy; [now right|left].
  now apply le_false_lt.
Qed.

Lemma notnan_zero : notnan zero.
Proof. reflexivity. Qed.

End FloatOrder.

(** * Sums of floats that are not negative *)

Module FloatSum.
Import PyFloat.

Local Open Scope Z_scope.

Lemma digits2_pos_lower (p : positive) :
  2 ^ (Zpos (digits2_pos p) - 1) <= Zpos p.
Proof.
  induction p as [p IH|p IH|]; simpl digits2_pos.
  - rewrite Pos2Z.inj_succ. replace (Z.succ (Zpos (digits2_pos p)) - 1)
      with (Z.succ (Zpos (digits2_pos p) - 1)) by lia.
    rewrite Z.pow_succ_r by lia. lia.
  - rewrite Pos2Z.inj_succ. replace (Z.succ (Zpos (digits2_pos p)) - 1)
      with (Z.succ (Zpos (digits2_pos p) - 1)) by lia.
    rewrite Z.pow_succ_r by lia. lia.
  - simpl. lia.
Qed.

Lemma shr_1_half (r : shr_record) :
  0 <= shr_m r -> shr_m (shr_1 r) = shr_m r / 2.
Proof.
  destruct r as [m b s]. simpl. intros Hm.
  destruct m as [|[p|p|]|p]; simpl; try reflexivity; try lia.
  - rewrite Pos2Z.inj_xI. apply (Z.div_unique _ _ _ 1); lia.
  - rewrite Pos2Z.inj_xO. apply (Z.div_unique _ _ _ 0); lia.
Qed.

Lemma shr_iter (n : positive) (r : shr_record) :
  0 <= shr_m r -> shr_m (SpecFloat.iter_pos shr_1 n r) = shr_m r / 2 ^ Zpos n.
Proof.
  revert r. induction n as [n IH|n IH|]; intros r Hr; cbn [SpecFloat.iter_pos].
  - assert (H1 : 0 <= shr_m (shr_1 r)) by (rewrite shr_1_half by lia; apply Z.div_pos; lia).
    assert (H2 : 0 <= shr_m (SpecFloat.iter_pos shr_1 n (shr_1 r)))
      by (rewrite IH by lia; apply Z.div_pos; lia).
    rewrite IH, IH, shr_1_half by lia.
    rewrite !Z.div_div by lia. f_equal.
    rewrite Pos2Z.inj_xI, <- Z.pow_add_r, <- (Z.pow_1_r 2) at 1 by lia.
    rewrite <- Z.pow_add_r by lia. f_equal. lia.
  - assert (H2 : 0 <= shr_m (SpecFloat.iter_pos shr_1 n r))
      by (rewrite IH by lia; apply Z.div_pos; lia).
    rewrite IH, IH by lia. rewrite Z.div_div by lia. f_equal.
    rewrite Pos2Z.inj_xO, <- Z.pow_add_r by lia. f_equal. lia.
  - rewrite shr_1_half by lia. now rewrite Z.pow_1_r.
Qed.

Lemma shr_fexp_pos (m e : Z) (l : location) :
  0 < m -> emin64 <= e ->
  0 < shr_m (fst (shr_fexp prec emax m e l))
  /\ emin64 <= snd (shr_fexp prec emax m e l).
Proof.
  intros Hm He. unfold shr_fexp, shr.
  assert (Hrec : shr_m (shr_record_of_loc m l) = m)
    by (destruct l as [|[]]; reflexivity).
  destruct m as [|p|p]; try lia. simpl Zdigits2.
  pose proof (digits2_pos_lower p) as Hd.
  set (d := Zpos (digits2_pos p)) in *.
  unfold fexp. fold emin64.
  destruct (Z.max (d + e - prec) emin64 - e) as [|q|q] eqn:En; simpl fst; simpl snd.
  - rewrite Hrec. lia.
  - rewrite shr_iter by (rewrite Hrec; lia). rewrite Hrec.
    assert (Hq : Zpos q = d - prec) by lia.
    split; [|lia].
    apply Z.div_str_pos. split; [apply Z.pow_pos_nonneg; lia|].
    etransitivity; [|exact Hd].
    apply Z.pow_le_mono_r; [lia|]. rewrite Hq. unfold prec. lia.
  - rewrite Hrec. lia.
Qed.

Lemma round_nearest_even_pos (m : Z) (l : location) :
  0 < m -> 0 < round_nearest_even m l.
Proof.
  intros Hm. destruct l as [|[]]; simpl; try lia.
  destruct (Z.even m); lia.
Qed.

Lemma binary_round_aux_pos (m e : Z) (l : location) :
  0 < m -> emin64 <= e -> sf_positive (binary_round_aux prec emax false m e l).
Proof.
  intros Hm He. unfold binary_round_aux.
  destruct (shr_fexp_pos m e l Hm He) as [H1 H2].
  destruct (shr_fexp prec emax m e l) as [mrs' e']. simpl in H1, H2.
  pose proof (round_nearest_even_pos _ (loc_of_shr_record mrs') H1) as H3.
  destruct (shr_fexp_pos _ e' loc_Exact H3 H2) as [H4 _].
  destruct (shr_fexp prec emax _ e' loc_Exact) as [mrs'' e'']. simpl in H4.
  destruct (shr_m mrs'') as [|p|p]; try lia.
  destruct (e'' <=? emax - prec); [right; eauto|now left].
Qed.

Lemma binary_round_pos (m : positive) (e : Z) :
  emin64 <= e -> sf_positive (binary_round prec emax false m e).
Proof.
  intros He. unfold binary_round, shl_align.
  assert (Hf : emin64 <= fexp prec emax (Zpos (digits2_pos m) + e))
    by (unfold fexp; fold emin64; lia).
  destruct (fexp prec emax (Zpos (digits2_pos m) + e) - e);
    apply binary_round_aux_pos; lia.
Qed.

Lemma valid_exponent (s : bool) (m : positive) (e : Z) :
  valid_binary (S754_finite s m e) = true -> emin64 <= e.
Proof.
  simpl. unfold bounded, canonical_mantissa. intros Hv.
  apply andb_true_iff in Hv as [Hc _]. apply Z.eqb_eq in Hc.
  unfold fexp in Hc. fold emin64 in Hc. lia.
Qed.

Lemma sf_positive_spec (x : spec_float) :
  SFltb (S754_zero false) x = true <-> sf_positive x.
Proof.
  unfold sf_positive. destruct x as [[]|[]| |[] m e]; simpl; split;
    try discriminate; try reflexivity; intros H;
    try (destruct H as [H|(m' & e' & H)]; discriminate); eauto.
Qed.

Lemma sf_nonneg_spec (x : spec_float) :
  SFleb (S754_zero false) x = true <-> sf_nonneg x.
Proof.
  unfold sf_nonneg, sf_positive. destruct x as [[]|[]| |[] m e]; simpl; split;
    try discriminate; try reflexivity; intros H; eauto;
    try (destruct H as [[H|(m' & e' & H)]|(s' & H)]; discriminate).
Qed.

Lemma SFadd_pos (x y : spec_float) :
  valid_binary x = true -> valid_binary y = true ->
  sf_nonneg x -> sf_positive y -> sf_positive (SFadd prec emax x y).
Proof.
  intros Vx Vy [[->|(mx & ex & ->)]|(sx & ->)] [->|(my & ey & ->)]; simpl;
    try (now left); try (right; eauto; fail).
  apply (valid_exponent false mx ex) in Vx. apply (valid_exponent false my ey) in Vy.
  unfold binary_normalize.
  destruct (Zpos (fst (shl_align mx ex (Z.min ex ey)))
            + Zpos (fst (shl_align my ey (Z.min ex ey)))) eqn:E; try lia.
  apply binary_round_pos. lia.
Qed.

Lemma SFadd_nonneg (x y : spec_float) :
  valid_binary x = true -> valid_binary y = true ->
  sf_nonneg x -> sf_nonneg y -> sf_nonneg (SFadd prec emax x y).
Proof.
  intros Vx Vy Hx [Hy|(sy & ->)].
  - left. now apply SFadd_pos.
  - destruct Hx as [[->|(mx & ex & ->)]|(sx & ->)]; simpl.
    + left. now left.
    + left. right. eauto.
    + right. destruct sx, sy; eauto.
Qed.

(** The sum of a float that is not negative and of a float greater than
    zero is greater than zero: an addition does not underflow. *)
Lemma add_pos (x y : float) :
  le zero x = true -> lt zero y = true -> lt zero (PrimFloat.add x y) = true.
Proof.
  unfold le, lt. rewrite FloatAxioms.leb_spec, !FloatAxioms.ltb_spec, add_spec.
  change (Prim2SF zero) with (S754_zero false).
  rewrite sf_nonneg_spec, !sf_positive_spec.
  apply SFadd_pos; apply Prim2SF_valid.
Qed.

Lemma add_nonneg (x y : float) :
  le zero x = true -> le zero y = true -> le zero (PrimFloat.add x y) = true.
Proof.
  unfold le. rewrite !FloatAxioms.leb_spec, add_spec.
  change (Prim2SF zero) with (S754_zero false).
  rewrite !sf_nonneg_spec.
  apply SFadd_nonneg; apply Prim2SF_valid.
Qed.

Lemma float_sum_from_nonneg (l : list float) (acc : float) :
  le zero acc = true -> Forall (fun a => le zero a = true) l ->
  le zero (fold_left PrimFloat.add l acc) = true.
Proof.
  intros Hacc Hl. revert acc Hacc.
  induction Hl as [|a l Ha Hl IH]; intros acc Hacc; simpl; [exact Hacc|].
  apply IH. now apply add_nonneg.
Qed.

Lemma float_sum_from_pos (l : list float) (acc : float) :
  lt zero acc = true -> Forall (fun a => lt zero a = true) l ->
  lt zero (fold_left PrimFloat.add l acc) = true.
Proof.
  intros Hacc Hl. revert acc Hacc.
  induction Hl as [|a l Ha Hl IH]; intros acc Hacc; simpl; [exact Hacc|].
  apply IH. apply add_pos; [now apply FloatOrder.lt_le|exact Ha].
Qed.

(** The sum of amounts that are not negative is not negative. *)
Lemma float_sum_nonneg (l : list float) :
  Forall (fun a => le zero a = true) l -> le zero (float_sum l) = true.
Proof. apply float_sum_from_nonneg. reflexivity. Qed.

(** The sum of one or more amounts greater than zero is greater than
    zero. *)
Lemma float_sum_pos (l : list float) :
  l <> [] -> Forall (fun a => lt zero a = true) l -> lt zero (float_sum l) = true.
Proof.
  intros Hne Hl. destruct Hl as [|a l Ha Hl]; [congruence|].
  unfold float_sum. simpl. apply float_sum_from_pos; [|exact Hl].
  apply add_pos; [reflexivity|exact Ha].
Qed.

End FloatSum.

(** * Rounding to a binary64 float *)

Module FloatRound.
Import PyFloat.

Local Open Scope Z_scope.

Lemma fexp64_eq (x : Z) : fexp64 x = Z.max (x - 53) (-1074).
Proof. reflexivity. Qed.

Lemma emin64_eq : emin64 = -1074.
Proof. reflexivity. Qed.

Lemma digits2_pos_upper (p : positive) : Zpos p < 2 ^ Zpos (digits2_pos p).
Proof.
  induction p as [p IH|p IH|]; simpl digits2_pos.
  - rewrite Pos2Z.inj_succ, Z.pow_succ_r by lia. lia.
  - rewrite Pos2Z.inj_succ, Z.pow_succ_r by lia. lia.
  - simpl. lia.
Qed.

Lemma Zdigits2_bounds (m : Z) :
  0 < m -> 2 ^ (Zdigits2 m - 1) <= m < 2 ^ Zdigits2 m.
Proof.
  destruct m as [|p|p]; try lia. intros _. simpl Zdigits2.
  split; [apply FloatSum.digits2_pos_lower|apply digits2_pos_upper].
Qed.

Lemma Zdigits2_pos (m : Z) : 0 < m -> 1 <= Zdigits2 m.
Proof. destruct m; simpl; lia. Qed.

Lemma Zdigits2_unique (m d : Z) :
  0 < m -> 2 ^ (d - 1) <= m < 2 ^ d -> Zdigits2 m = d.
Proof.
  intros Hm [Hlo Hhi]. pose proof (Zdigits2_bounds m Hm) as [Hlo' Hhi'].
  pose proof (Zdigits2_pos m Hm) as Hd.
  assert (Hd0 : 1 <= d).
  { destruct (Z.le_gt_cases 1 d) as [|Hlt]; [assumption|].
    assert (2 ^ d <= 1); [|lia].
    destruct (Z.eq_dec d 0) as [->|]; [simpl; lia|].
    rewrite Z.pow_neg_r by lia. lia. }
  destruct (Z.lt_trichotomy (Zdigits2 m) d) as [Hlt|[Heq|Hgt]]; [|exact Heq|].
  - assert (2 ^ Zdigits2 m <= 2 ^ (d - 1)) by (apply Z.pow_le_mono_r; lia). lia.
  - assert (2 ^ d <= 2 ^ (Zdigits2 m - 1)) by (apply Z.pow_le_mono_r; lia). lia.
Qed.

Lemma Zdigits2_mono (m m' : Z) : 0 < m -> m <= m' -> Zdigits2 m <= Zdigits2 m'.
Proof.
  intros Hm Hle.
  pose proof (Zdigits2_bounds m Hm) as [Hlo _].
  pose proof (Zdigits2_bounds m' ltac:(lia)) as [_ Hhi].
  destruct (Z.le_gt_cases (Zdigits2 m) (Zdigits2 m')) as [|Hgt]; [assumption|].
  assert (2 ^ Zdigits2 m' <= 2 ^ (Zdigits2 m - 1)).
  { apply Z.pow_le_mono_r; [lia|]. lia. }
  lia.
Qed.

Lemma Zdigits2_succ (m : Z) : 0 < m -> Zdigits2 (m + 1) <= Zdigits2 m + 1.
Proof.
  intros Hm. pose proof (Zdigits2_bounds m Hm) as [_ Hhi].
  pose proof (Zdigits2_bounds (m + 1) ltac:(lia)) as [Hlo _].
  pose proof (Zdigits2_pos m Hm) as Hd.
  destruct (Z.le_gt_cases (Zdigits2 (m + 1)) (Zdigits2 m + 1)) as [|Hgt]; [assumption|].
  assert (2 ^ (Zdigits2 m + 1) <= 2 ^ (Zdigits2 (m + 1) - 1))
    by (apply Z.pow_le_mono_r; lia).
  rewrite Z.pow_add_r in * by lia. lia.
Qed.

Lemma Zdigits2_shiftr (m k : Z) :
  0 < m -> 0 <= k < Zdigits2 m ->
  0 < m / 2 ^ k /\ Zdigits2 (m / 2 ^ k) = Zdigits2 m - k.
Proof.
  intros Hm Hk. pose proof (Zdigits2_bounds m Hm) as [Hlo Hhi].
  assert (Hp : 0 < 2 ^ k) by (apply Z.pow_pos_nonneg; lia).
  assert (H1 : 2 ^ (Zdigits2 m - k - 1) <= m / 2 ^ k).
  { apply Z.div_le_lower_bound; [exact Hp|].
    rewrite <- Z.pow_add_r by lia.
    replace (k + (Zdigits2 m - k - 1)) with (Zdigits2 m - 1) by lia. exact Hlo. }
  assert (H2 : m / 2 ^ k < 2 ^ (Zdigits2 m - k)).
  { apply Z.div_lt_upper_bound; [exact Hp|].
    rewrite <- Z.pow_add_r by lia.
    replace (k + (Zdigits2 m - k)) with (Zdigits2 m) by lia. exact Hhi. }
  assert (H3 : 0 < 2 ^ (Zdigits2 m - k - 1)) by (apply Z.pow_pos_nonneg; lia).
  split; [lia|]. apply Zdigits2_unique; [lia|].
  split; [exact H1|exact H2].
Qed.

Lemma Zdigits2_small (m k : Z) :
  0 <= m -> Zdigits2 m <= k -> m / 2 ^ k = 0.
Proof.
  intros Hm Hk. destruct (Z.eq_dec m 0) as [->|Hne]; [apply Zdiv_0_l|].
  pose proof (Zdigits2_bounds m ltac:(lia)) as [_ Hhi].
  pose proof (Zdigits2_pos m ltac:(lia)).
  apply Z.div_small. split; [lia|].
  assert (2 ^ Zdigits2 m <= 2 ^ k) by (apply Z.pow_le_mono_r; lia). lia.
Qed.

Lemma Zdigits2_shiftl (m k : Z) :
  0 < m -> 0 <= k -> Zdigits2 (m * 2 ^ k) = Zdigits2 m + k.
Proof.
  intros Hm Hk. pose proof (Zdigits2_bounds m Hm) as [Hlo Hhi].
  pose proof (Zdigits2_pos m Hm) as Hd.
  assert (Hp : 0 < 2 ^ k) by (apply Z.pow_pos_nonneg; lia).
  apply Zdigits2_unique; [nia|].
  replace (Zdigits2 m + k - 1) with ((Zdigits2 m - 1) + k) by lia.
  rewrite !Z.pow_add_r by lia. split; nia.
Qed.

(** ** The shift of [shr_fexp] *)

Lemma shr_record_m (m : Z) (l : location) : shr_m (shr_record_of_loc m l) = m.
Proof. destruct l as [|[]]; reflexivity. Qed.

Lemma shr_fexp_spec (m e : Z) (l : location) :
  0 <= m ->
  let k := fexp64 (Zdigits2 m + e) - e in
  shr_m (fst (shr_fexp prec emax m e l)) = (if 0 <? k then m / 2 ^ k else m)
  /\ snd (shr_fexp prec emax m e l) = (if 0 <? k then e + k else e).
Proof.
  intros Hm k. unfold shr_fexp, shr. fold (fexp64 (Zdigits2 m + e)). fold k.
  destruct k as [|p|p] eqn:Ek; simpl fst; simpl snd.
  - now rewrite shr_record_m.
  - rewrite FloatSum.shr_iter by (rewrite shr_record_m; lia).
    now rewrite shr_record_m.
  - now rewrite shr_record_m.
Qed.

(** A number of the magnitude of the format keeps a mantissa greater
    than zero, and gets the exponent of its magnitude. *)
Lemma shr_fexp_normal (m e : Z) (l : location) :
  0 < m -> e <= fexp64 (Zdigits2 m + e) -> emin64 < Zdigits2 m + e ->
  0 < shr_m (fst (shr_fexp prec emax m e l))
  /\ snd (shr_fexp prec emax m e l) = fexp64 (Zdigits2 m + e)
  /\ Zdigits2 (shr_m (fst (shr_fexp prec emax m e l)))
     + snd (shr_fexp prec emax m e l) = Zdigits2 m + e.
Proof.
  intros Hm He Hd. destruct (shr_fexp_spec m e l ltac:(lia)) as [-> ->].
  rewrite emin64_eq in Hd. revert He. rewrite fexp64_eq. intros He.
  destruct (Z.ltb_spec 0 (Z.max (Zdigits2 m + e - 53) (-1074) - e)) as [Hk|Hk].
  - destruct (Zdigits2_shiftr m (Z.max (Zdigits2 m + e - 53) (-1074) - e) Hm ltac:(lia))
      as [H1 H2].
    rewrite H2. lia.
  - lia.
Qed.

(** A number below the format loses its mantissa. *)
Lemma shr_fexp_tiny (m e : Z) (l : location) :
  0 <= m -> e <= fexp64 (Zdigits2 m + e) -> Zdigits2 m + e <= emin64 ->
  shr_m (fst (shr_fexp prec emax m e l)) = 0
  /\ snd (shr_fexp prec emax m e l) = emin64.
Proof.
  intros Hm He Hd. destruct (shr_fexp_spec m e l Hm) as [-> ->].
  rewrite emin64_eq in *. revert He. rewrite fexp64_eq. intros He.
  destruct (Z.ltb_spec 0 (Z.max (Zdigits2 m + e - 53) (-1074) - e)) as [Hk|Hk].
  - split; [|lia]. apply Zdigits2_small; lia.
  - assert (Hz : Zdigits2 m <= 0) by lia.
    destruct m as [|p|p]; simpl in Hz; lia.
Qed.

Lemma round_nearest_even_bounds (m : Z) (l : location) :
  m <= round_nearest_even m l <= m + 1.
Proof. destruct l as [|[]]; simpl; try lia. destruct (Z.even m); lia. Qed.

(** ** The result of [binary_round_aux] *)

Lemma canonical_of_digits (m : positive) (e x : Z) :
  Zdigits2 (Zpos m) + e = x -> e = fexp64 x ->
  canonical_mantissa prec emax m e = true.
Proof.
  intros Hd He. unfold canonical_mantissa. apply Z.eqb_eq.
  simpl in Hd. fold (fexp64 (Zpos (digits2_pos m) + e)). rewrite Hd. now symmetry.
Qed.

(** The rounding of a positive number of the magnitude of the format: a
    finite float with a canonical mantissa, or an infinity when the
    exponent is beyond the format. *)
Lemma binary_round_aux_normal (s : bool) (m e : Z) (l : location) :
  0 < m -> e <= fexp64 (Zdigits2 m + e) -> emin64 < Zdigits2 m + e ->
  exists m3 e3,
    binary_round_aux prec emax s m e l
    = (if e3 <=? emax - prec then S754_finite s m3 e3 else S754_infinity s)
    /\ canonical_mantissa prec emax m3 e3 = true
    /\ fexp64 (Zdigits2 m + e) <= e3 <= fexp64 (Zdigits2 m + e + 1).
Proof.
  intros Hm He Hd. unfold binary_round_aux.
  destruct (shr_fexp_normal m e l Hm He Hd) as (H1 & H2 & H3).
  destruct (shr_fexp prec emax m e l) as [mrs' e']. simpl in H1, H2, H3.
  pose proof (round_nearest_even_bounds (shr_m mrs') (loc_of_shr_record mrs')) as Hr.
  set (m2 := round_nearest_even (shr_m mrs') (loc_of_shr_record mrs')) in *.
  assert (Hm2 : 0 < m2) by lia.
  assert (Hd2 : Zdigits2 (shr_m mrs') <= Zdigits2 m2 <= Zdigits2 (shr_m mrs') + 1).
  { split; [apply Zdigits2_mono; lia|].
    etransitivity; [apply (Zdigits2_mono m2 (shr_m mrs' + 1)); lia|].
    now apply Zdigits2_succ. }
  assert (He2 : e' <= fexp64 (Zdigits2 m2 + e')).
  { rewrite H2 at 1. rewrite <- H3. rewrite !fexp64_eq. lia. }
  destruct (shr_fexp_normal m2 e' loc_Exact Hm2 He2 ltac:(lia)) as (H4 & H5 & H6).
  destruct (shr_fexp prec emax m2 e' loc_Exact) as [mrs'' e'']. simpl in H4, H5, H6.
  destruct (shr_m mrs'') as [|m3|m3] eqn:E3; try lia.
  exists m3, e''. split; [reflexivity|]. split.
  - apply (canonical_of_digits m3 e'' (Zdigits2 m2 + e')); [exact H6|exact H5].
  - rewrite H5, !fexp64_eq. lia.
Qed.

(** The rounding of a number that [binary_round_aux] accepts is a float
    of the format. *)
Lemma binary_round_aux_valid (s : bool) (m e : Z) (l : location) :
  roundable m e -> valid_binary (binary_round_aux prec emax s m e l) = true.
Proof.
  intros [Hm He].
  destruct (Z.le_gt_cases (Zdigits2 m + e) emin64) as [Ht|Hn].
  - unfold binary_round_aux.
    destruct (shr_fexp_tiny m e l Hm He Ht) as [H1 H2].
    destruct (shr_fexp prec emax m e l) as [mrs' e']. simpl in H1, H2. subst e'.
    pose proof (round_nearest_even_bounds (shr_m mrs') (loc_of_shr_record mrs')) as Hr.
    set (m2 := round_nearest_even (shr_m mrs') (loc_of_shr_record mrs')) in *.
    rewrite H1 in Hr.
    assert (Hm2 : m2 = 0 \/ m2 = 1) by lia.
    destruct Hm2 as [-> | ->]; reflexivity.
  - assert (Hm' : 0 < m).
    { destruct m as [|p|p]; try lia. simpl in Hn, He.
      rewrite fexp64_eq in He. rewrite emin64_eq in Hn. lia. }
    destruct (binary_round_aux_normal s m e l Hm' He Hn) as (m3 & e3 & -> & Hc & _).
    destruct (Z.leb_spec e3 (emax - prec)) as [Hle|Hgt]; [|reflexivity].
    simpl. unfold bounded. rewrite Hc. simpl. now apply Z.leb_le.
Qed.

(** ** [binary_round] and [binary_normalize] *)

Lemma iter_xO_spec (m p : positive) :
  Zpos (Pos.iter xO m p) = Zpos m * 2 ^ Zpos p.
Proof.
  induction p as [|p IH] using Pos.peano_ind.
  - simpl. lia.
  - rewrite Pos.iter_succ, Pos2Z.inj_succ, Z.pow_succ_r, Pos2Z.inj_xO, IH by lia. lia.
Qed.

Lemma shl_align_spec (m : positive) (e e' : Z) :
  let '(mz, ez) := shl_align m e e' in
  Zpos mz = Zpos m * 2 ^ (e - ez) /\ ez = Z.min e e'.
Proof.
  unfold shl_align. destruct (e' - e) as [|p|p] eqn:Ek.
  - replace (e - e) with 0 by lia. simpl. lia.
  - replace (e - e) with 0 by lia. simpl. lia.
  - split; [|lia]. replace (e - e') with (Zpos p) by lia. apply iter_xO_spec.
Qed.

Lemma binary_round_normal (s : bool) (m : positive) (e : Z) :
  emin64 < Zdigits2 (Zpos m) + e ->
  exists m3 e3,
    binary_round prec emax s m e
    = (if e3 <=? emax - prec then S754_finite s m3 e3 else S754_infinity s)
    /\ canonical_mantissa prec emax m3 e3 = true
    /\ fexp64 (Zdigits2 (Zpos m) + e) <= e3 <= fexp64 (Zdigits2 (Zpos m) + e + 1).
Proof.
  intros Hd. unfold binary_round.
  fold (fexp64 (Zpos (digits2_pos m) + e)).
  pose proof (shl_align_spec m e (fexp64 (Zpos (digits2_pos m) + e))) as Hs.
  destruct (shl_align m e (fexp64 (Zpos (digits2_pos m) + e))) as [mz ez].
  destruct Hs as [Hmz Hez]. change (Zpos (digits2_pos m)) with (Zdigits2 (Zpos m)) in *.
  assert (Hdz : Zdigits2 (Zpos mz) + ez = Zdigits2 (Zpos m) + e).
  { rewrite Hmz, Zdigits2_shiftl by lia. lia. }
  rewrite <- Hdz.
  apply binary_round_aux_normal; [lia| |lia].
  rewrite Hdz. lia.
Qed.

Lemma binary_round_valid (s : bool) (m : positive) (e : Z) :
  valid_binary (binary_round prec emax s m e) = true.
Proof.
  unfold binary_round.
  fold (fexp64 (Zpos (digits2_pos m) + e)).
  pose proof (shl_align_spec m e (fexp64 (Zpos (digits2_pos m) + e))) as Hs.
  destruct (shl_align m e (fexp64 (Zpos (digits2_pos m) + e))) as [mz ez].
  destruct Hs as [Hmz Hez]. change (Zpos (digits2_pos m)) with (Zdigits2 (Zpos m)) in *.
  apply binary_round_aux_valid. split; [lia|].
  rewrite Hmz, Zdigits2_shiftl by lia.
  replace (Zdigits2 (Zpos m) + (e - ez) + ez) with (Zdigits2 (Zpos m) + e) by lia.
  lia.
Qed.

Lemma binary_normalize_valid (m e : Z) (sz : bool) :
  valid_binary (binary_normalize prec emax m e sz) = true.
Proof. destruct m; simpl; [reflexivity|apply binary_round_valid..]. Qed.

(** ** The conversion of an integer *)

Lemma is_infinity_spec (f : float) :
  PrimFloat.is_infinity f
  = match Prim2SF f with S754_infinity _ => true | _ => false end.
Proof.
  unfold PrimFloat.is_infinity. rewrite FloatAxioms.eqb_spec, abs_spec.
  destruct (Prim2SF f) as [[]|[]| |[] m e]; reflexivity.
Qed.

Lemma float_of_int_value (z : Z) (f : float) :
  float_of_int z = Ok f -> Prim2SF f = binary_normalize prec emax z 0 false.
Proof.
  unfold float_of_int.
  destruct (PrimFloat.is_infinity _); [discriminate|]. intros [= <-].
  apply Prim2SF_SF2Prim, binary_normalize_valid.
Qed.

Lemma float_of_int_raises (z : Z) (e : exn) :
  float_of_int z = Raise e -> e = OverflowError.
Proof.
  unfold float_of_int. destruct (PrimFloat.is_infinity _); congruence.
Qed.

(** The float of a positive integer is one or more. *)
Lemma float_of_int_pos (q : Z) (f : float) :
  0 < q -> float_of_int q = Ok f -> sf_at_least_one (Prim2SF f).
Proof.
  intros Hq Hf. pose proof (float_of_int_value q f Hf) as Hv.
  destruct q as [|p|p]; try lia. simpl binary_normalize in Hv.
  destruct (binary_round_normal false p 0) as (m3 & e3 & Hr & Hc & Hlo & _).
  { rewrite emin64_eq. pose proof (Zdigits2_pos (Zpos p)). lia. }
  rewrite Hr in Hv.
  destruct (e3 <=? emax - prec).
  - exists m3, e3. split; [exact Hv|].
    pose proof (Zdigits2_pos (Zpos p) ltac:(lia)) as Hd.
    rewrite fexp64_eq in Hlo.
    unfold canonical_mantissa in Hc. apply Z.eqb_eq in Hc.
    fold (fexp64 (Zpos (digits2_pos m3) + e3)) in Hc. rewrite fexp64_eq in Hc.
    split; [|lia].
    pose proof (FloatSum.digits2_pos_lower m3) as Hm3.
    replace (Zpos (digits2_pos m3)) with 53 in Hm3 by lia. exact Hm3.
  - unfold float_of_int in Hf. rewrite is_infinity_spec in Hf.
    rewrite Prim2SF_SF2Prim in Hf by apply binary_normalize_valid.
    simpl binary_normalize in Hf. rewrite Hr in Hf.
    destruct (e3 <=? emax - prec); discriminate.
Qed.

(** The integers below [2 ^ 1023] have a float. *)
Lemma float_of_int_small (q : Z) :
  0 <= q < 2 ^ 1023 -> exists f, float_of_int q = Ok f.
Proof.
  intros [Hq Hhi]. destruct q as [|p|p]; try lia.
  - eexists. reflexivity.
  - destruct (binary_round_normal false p 0) as (m3 & e3 & Hr & Hc & _ & Hup).
    { rewrite emin64_eq. pose proof (Zdigits2_pos (Zpos p)). lia. }
    assert (Hd : Zdigits2 (Zpos p) <= 1023).
    { pose proof (Zdigits2_bounds (Zpos p) ltac:(lia)) as [Hlo _].
      destruct (Z.le_gt_cases (Zdigits2 (Zpos p)) 1023) as [|Hgt]; [assumption|].
      assert (2 ^ 1023 <= 2 ^ (Zdigits2 (Zpos p) - 1))
        by (apply Z.pow_le_mono_r; lia).
      lia. }
    rewrite fexp64_eq in Hup.
    assert (He3 : (e3 <=? emax - prec) = true)
      by (apply Z.leb_le; change (emax - prec) with 971; lia).
    rewrite He3 in Hr.
    unfold float_of_int. rewrite is_infinity_spec.
    rewrite Prim2SF_SF2Prim by apply binary_normalize_valid.
    simpl binary_normalize. rewrite Hr. eexists. reflexivity.
Qed.

(** ** Products *)

Lemma SFmul_pos (x y : spec_float) :
  sf_at_least_one x -> valid_binary y = true -> sf_positive y ->
  sf_positive (SFmul prec emax x y).
Proof.
  intros (mx & ex & -> & Hmx & Hex) Vy [->|(my & ey & ->)]; [now left|].
  apply (FloatSum.valid_exponent false my ey) in Vy. rewrite emin64_eq in Vy.
  simpl SFmul.
  assert (Hm : 2 ^ 52 <= Zpos (mx * my)) by (rewrite Pos2Z.inj_mul; nia).
  assert (Hd : 53 <= Zdigits2 (Zpos (mx * my))).
  { change 53 with (Zdigits2 (2 ^ 52)). apply Zdigits2_mono; [reflexivity|exact Hm]. }
  destruct (binary_round_aux_normal false (Zpos (mx * my)) (ex + ey) loc_Exact)
    as (m3 & e3 & -> & _).
  - lia.
  - rewrite fexp64_eq. lia.
  - rewrite emin64_eq. lia.
  - destruct (e3 <=? emax - prec); [right; eauto|now left].
Qed.

(** The product of a positive integer and of a float greater than zero
    is greater than zero: it does not underflow. *)
Lemma mul_int_float_pos (q : Z) (p a : float) :
  0 < q -> lt zero p = true -> mul_int_float q p = Ok a -> lt zero a = true.
Proof.
  intros Hq Hp. unfold mul_int_float.
  destruct (float_of_int q) as [f|] eqn:Hf; simpl; [|discriminate].
  intros [= <-]. revert Hp. unfold lt.
  rewrite !FloatAxioms.ltb_spec, mul_spec.
  change (Prim2SF zero) with (S754_zero false).
  rewrite !FloatSum.sf_positive_spec. intros Hp.
  apply SFmul_pos; [now apply (float_of_int_pos q)|apply Prim2SF_valid|exact Hp].
Qed.

(** ** Quotients and [round2] *)

Lemma binary_round_aux_signed (s : bool) (m e : Z) (l : location) :
  roundable m e -> sf_signed s (binary_round_aux prec emax s m e l).
Proof.
  intros [Hm He].
  destruct (Z.le_gt_cases (Zdigits2 m + e) emin64) as [Ht|Hn].
  - unfold binary_round_aux.
    destruct (shr_fexp_tiny m e l Hm He Ht) as [H1 H2].
    destruct (shr_fexp prec emax m e l) as [mrs' e']. simpl in H1, H2. subst e'.
    pose proof (round_nearest_even_bounds (shr_m mrs') (loc_of_shr_record mrs')) as Hr.
    set (m2 := round_nearest_even (shr_m mrs') (loc_of_shr_record mrs')) in *.
    rewrite H1 in Hr.
    assert (Hm2 : m2 = 0 \/ m2 = 1) by lia.
    destruct Hm2 as [-> | ->]; [now left|]. right. right. eexists _, _. reflexivity.
  - assert (Hm' : 0 < m).
    { destruct m as [|p|p]; try lia. simpl in Hn, He.
      rewrite fexp64_eq in He. rewrite emin64_eq in Hn. lia. }
    destruct (binary_round_aux_normal s m e l Hm' He Hn) as (m3 & e3 & -> & _).
    destruct (e3 <=? emax - prec); right; [right; eauto|now left].
Qed.

Lemma fst_div_eucl (a b : Z) : fst (Z.div_eucl a b) = a / b.
Proof. reflexivity. Qed.

(** The quotient and the exponent [SFdiv_core_binary] computes can be
    rounded. *)
Lemma SFdiv_core_roundable (m1 m2 : positive) (e1 e2 : Z) :
  roundable (fst (fst (SFdiv_core_binary prec emax (Zpos m1) e1 (Zpos m2) e2)))
            (snd (fst (SFdiv_core_binary prec emax (Zpos m1) e1 (Zpos m2) e2))).
Proof.
  unfold SFdiv_core_binary.
  set (d1 := Zdigits2 (Zpos m1)). set (d2 := Zdigits2 (Zpos m2)).
  fold (fexp64 (d1 + e1 - (d2 + e2))).
  set (e' := Z.min (fexp64 (d1 + e1 - (d2 + e2))) (e1 - e2)).
  set (s := e1 - e2 - e').
  assert (Hs : 0 <= s) by (unfold s, e'; lia).
  set (m' := match s with Z.pos _ => Z.shiftl (Zpos m1) s | 0 => Zpos m1 | Z.neg _ => 0 end).
  assert (Hm' : m' = Zpos m1 * 2 ^ s).
  { unfold m'. destruct s as [|p|p] eqn:Es; try lia.
    apply Z.shiftl_mul_pow2. lia. }
  assert (Hdm : Zdigits2 m' = d1 + s) by (rewrite Hm'; now apply Zdigits2_shiftl).
  assert (Hpos : 0 < m') by (rewrite Hm'; assert (0 < 2 ^ s) by (now apply Z.pow_pos_nonneg); nia).
  pose proof (fst_div_eucl m' (Zpos m2)) as Hq.
  pose proof (Z.div_mod m' (Zpos m2) ltac:(lia)) as Hdiv.
  pose proof (Z.mod_pos_bound m' (Zpos m2) ltac:(lia)) as Hmod.
  destruct (Z.div_eucl m' (Zpos m2)) as [q r]. simpl in Hq. subst q. simpl fst. simpl snd.
  set (q := m' / Zpos m2) in *.
  assert (Hq0 : 0 <= q) by (apply Z.div_pos; lia).
  split; [exact Hq0|].
  pose proof (Zdigits2_bounds m' Hpos) as [Hlo Hhi].
  pose proof (Zdigits2_bounds (Zpos m2) ltac:(lia)) as [Hlo2 Hhi2]. fold d2 in Hlo2, Hhi2.
  pose proof (Zdigits2_pos (Zpos m2) ltac:(lia)) as Hd2. fold d2 in Hd2.
  assert (Hx : d1 + e1 - (d2 + e2) = Zdigits2 m' - d2 + e') by (unfold s in *; lia).
  assert (He' : e' <= fexp64 (d1 + e1 - (d2 + e2))) by (unfold e'; lia).
  assert (Hdq : Zdigits2 m' - d2 <= Zdigits2 q \/ (q = 0 /\ Zdigits2 m' <= d2)).
  { destruct (Z.le_gt_cases (Zdigits2 m') d2) as [Hsmall|Hbig].
    - destruct (Z.eq_dec q 0) as [Hz|Hnz]; [now right|].
      left. pose proof (Zdigits2_pos q ltac:(lia)). lia.
    - left. assert (Hql : 2 ^ (Zdigits2 m' - d2 - 1) <= q).
      { assert (H1 : 2 ^ (Zdigits2 m' - 1) = 2 ^ (Zdigits2 m' - d2 - 1) * 2 ^ d2).
        { rewrite <- Z.pow_add_r by lia. f_equal. lia. }
        assert (0 < 2 ^ (Zdigits2 m' - d2 - 1)) by (apply Z.pow_pos_nonneg; lia).
        nia. }
      assert (0 < q).
      { assert (0 < 2 ^ (Zdigits2 m' - d2 - 1)) by (apply Z.pow_pos_nonneg; lia). lia. }
      pose proof (Zdigits2_bounds q ltac:(lia)) as [_ Hqh].
      destruct (Z.le_gt_cases (Zdigits2 m' - d2) (Zdigits2 q)) as [|Hgt]; [assumption|].
      assert (2 ^ Zdigits2 q <= 2 ^ (Zdigits2 m' - d2 - 1)).
      { apply Z.pow_le_mono_r; [lia|]. lia. }
      lia. }
  rewrite Hx in He'. revert He'. rewrite !fexp64_eq.
  destruct Hdq as [Hdq|[Hz Hsmall]].
  - lia.
  - rewrite Hz. simpl Zdigits2. lia.
Qed.

Lemma SFdiv_finite (sx sy : bool) (mx my : positive) (ex ey : Z) :
  valid_binary (SFdiv prec emax (S754_finite sx mx ex) (S754_finite sy my ey)) = true
  /\ sf_signed (xorb sx sy)
       (SFdiv prec emax (S754_finite sx mx ex) (S754_finite sy my ey)).
Proof.
  simpl SFdiv. pose proof (SFdiv_core_roundable mx my ex ey) as Hr.
  destruct (SFdiv_core_binary prec emax (Zpos mx) ex (Zpos my) ey) as [[mz ez] lz].
  simpl in Hr. split; [now apply binary_round_aux_valid|now apply binary_round_aux_signed].
Qed.

(** [round(x, 2)] keeps the sign of a finite float, and leaves the
    other floats as they are. *)
Lemma round2_finite (x : float) (s : bool) (m : positive) (e : Z) :
  Prim2SF x = S754_finite s m e -> sf_signed s (Prim2SF (round2 x)).
Proof.
  intros Hx. unfold round2. rewrite Hx.
  match goal with |- context [match ?k with Zpos _ => _ | _ => _ end] => destruct k as [|p|p] end.
  - left. now apply Prim2SF_SF2Prim.
  - destruct (SFdiv_finite s false p 100 0 0) as [Hv Hs].
    rewrite Prim2SF_SF2Prim by exact Hv. now rewrite xorb_false_r in Hs.
  - left. now apply Prim2SF_SF2Prim.
Qed.

Lemma round2_other (x : float) :
  (forall s m e, Prim2SF x <> S754_finite s m e) -> round2 x = x.
Proof.
  intros Hx. unfold round2. destruct (Prim2SF x) as [| | |s m e]; try reflexivity.
  now destruct (Hx s m e).
Qed.

Lemma round2_notnan (x : float) : notnan x -> notnan (round2 x).
Proof.
  rewrite !FloatOrder.notnan_spec. intros Hx.
  destruct (Prim2SF x) as [s|s| |s m e] eqn:E.
  - rewrite round2_other by (intros; rewrite E; discriminate). now rewrite E.
  - rewrite round2_other by (intros; rewrite E; discriminate). now rewrite E.
  - congruence.
  - destruct (round2_finite x s m e E) as [->|[->|(m' & e' & ->)]]; discriminate.
Qed.

Lemma round2_nonneg (x : float) : le zero x = true -> le zero (round2 x) = true.
Proof.
  unfold le. rewrite !FloatAxioms.leb_spec.
  change (Prim2SF zero) with (S754_zero false).
  destruct (Prim2SF x) as [s|s| |s m e] eqn:E; intros Hx.
  - rewrite round2_other by (intros; rewrite E; discriminate). now rewrite E.
  - rewrite round2_other by (intros; rewrite E; discriminate). now rewrite E.
  - discriminate.
  - destruct s; [discriminate|].
    destruct (round2_finite x false m e E) as [->|[->|(m' & e' & ->)]]; reflexivity.
Qed.

End FloatRound.

(** * [sorted] *)

Section SortedProperties.
Context {sorter : ListSort} {A : Type} (key : A -> float).

Lemma insert_asc_perm (x : A) (l : list A) : Permutation (insert_asc key x l) (x :: l).
Proof.
  induction l as [|y l IH]; simpl; [reflexivity|].
  destruct (PyFloat.lt (key y) (key x)); [|reflexivity].
  rewrite IH. apply perm_swap.
Qed.

Lemma sort_asc_perm (l : list A) : Permutation (sort_asc key l) l.
Proof.
  induction l as [|x l IH]; simpl; [reflexivity|].
  rewrite insert_asc_perm. now constructor.
Qed.

(** The sorted list has the entries of the input, each as often. *)
Lemma py_sorted_perm (reverse : bool) (l : list A) :
  Permutation (py_sorted key reverse l) l.
Proof.
  unfold py_sorted. destruct reverse; [|apply list_sort_permutes].
  rewrite <- Permutation_rev, list_sort_permutes. symmetry. apply Permutation_rev.
Qed.

Lemma comparable_rev (l : list A) : comparable key l -> comparable key (rev l).
Proof. unfold comparable. intros Hl. now rewrite <- Permutation_rev. Qed.

(** With comparable keys, [sorted] is the stable sort. *)
Lemma py_sorted_comparable (reverse : bool) (l : list A) :
  comparable key l ->
  py_sorted key reverse l
  = if reverse then rev (sort_asc key (rev l)) else sort_asc key l.
Proof.
  intros Hl. unfold py_sorted. destruct reverse.
  - now rewrite list_sort_stable by (now apply comparable_rev).
  - now apply list_sort_stable.
Qed.

Lemma insert_asc_sorted (x : A) (l : list A) :
  PyFloat.notnan (key x) -> comparable key l ->
  StronglySorted (ascends key) l -> StronglySorted (ascends key) (insert_asc key x l).
Proof.
  unfold comparable. intros Hx Hl Hs. induction Hs as [|y l Hs IH Hy]; simpl.
  - repeat constructor.
  - inversion Hl as [|? ? Hny Hnl]; subst.
    destruct (PyFloat.lt (key y) (key x)) eqn:Hlt.
    + constructor; [now apply IH|].
      rewrite (insert_asc_perm x l). constructor; [|exact Hy].
      now apply FloatOrder.lt_le.
    + assert (Hxy : ascends key x y) by (now apply FloatOrder.lt_false_le).
      constructor; [now constructor|].
      constructor; [exact Hxy|].
      eapply Forall_impl; [exact Hy|]. intros z Hz.
      eapply FloatOrder.le_trans; [exact Hxy|exact Hz].
Qed.

Lemma sort_asc_sorted (l : list A) :
  comparable key l -> StronglySorted (ascends key) (sort_asc key l).
Proof.
  unfold comparable. induction 1 as [|x l Hx Hl IH]; simpl; [constructor|].
  apply insert_asc_sorted; [assumption| |assumption].
  unfold comparable. now rewrite sort_asc_perm.
Qed.

Lemma sorted_snoc (R : A -> A -> Prop) (l : list A) (x : A) :
  StronglySorted R l -> Forall (fun y => R y x) l -> StronglySorted R (l ++ [x]).
Proof.
  induction 1 as [|y l Hs IH Hy]; intros Hx; simpl.
  - repeat constructor.
  - inversion Hx; subst. constructor; [now apply IH|].
    apply Forall_app. split; [assumption|]. now repeat constructor.
Qed.

Lemma sorted_rev (l : list A) :
  StronglySorted (ascends key) l -> StronglySorted (descends key) (rev l).
Proof.
  induction 1 as [|y l Hs IH Hy]; simpl; [constructor|].
  apply sorted_snoc; [exact IH|].
  rewrite <- Permutation_rev. exact Hy.
Qed.

(** With comparable keys, [sorted(..., reverse=True)] is in descending
    order of the key: no entry has a greater key than an entry before
    it. *)
Lemma py_sorted_descending (l : list A) :
  comparable key l -> StronglySorted (descends key) (py_sorted key true l).
Proof.
  intros Hl. rewrite py_sorted_comparable by exact Hl.
  apply sorted_rev, sort_asc_sorted. now apply comparable_rev.
Qed.

Lemma py_sorted_ascending (l : list A) :
  comparable key l -> StronglySorted (ascends key) (py_sorted key false l).
Proof.
  intros Hl. rewrite py_sorted_comparable by exact Hl. now apply sort_asc_sorted.
Qed.

(** Stability: the entries with a given key keep their order. *)

Lemma lt_not_same_key (k : float) (x y : A) :
  PyFloat.lt (key y) (key x) = true ->
  same_key key k x = true -> same_key key k y = true -> False.
Proof.
  unfold same_key. intros Hlt Hx Hy.
  apply FloatOrder.eq_le in Hx as [Hx1 Hx2], Hy as [Hy1 Hy2].
  apply FloatOrder.lt_asym in Hlt.
  rewrite (FloatOrder.le_trans _ _ _ Hx1 Hy2) in Hlt. discriminate.
Qed.

Lemma insert_asc_stable (k : float) (x : A) (l : list A) :
  filter (fun y => same_key key k y) (insert_asc key x l)
  = filter (fun y => same_key key k y) (x :: l).
Proof.
  induction l as [|y l IH]; simpl; [reflexivity|].
  destruct (PyFloat.lt (key y) (key x)) eqn:Hlt; [|reflexivity].
  rewrite !filter_bool_cons in *. rewrite IH.
  destruct (same_key key k x) eqn:Hx, (same_key key k y) eqn:Hy; try reflexivity.
  destruct (lt_not_same_key k x y Hlt Hx Hy).
Qed.

Lemma sort_asc_stable (k : float) (l : list A) :
  filter (fun y => same_key key k y) (sort_asc key l)
  = filter (fun y => same_key key k y) l.
Proof.
  induction l as [|x l IH]; simpl; [reflexivity|].
  rewrite insert_asc_stable, !filter_bool_cons, IH. reflexivity.
Qed.

Lemma same_key_refl (x : A) :
  PyFloat.notnan (key x) -> same_key key (key x) x = true.
Proof.
  intros Hx. unfold same_key. apply FloatOrder.eq_le.
  split; now apply FloatOrder.le_refl.
Qed.

Lemma in_same_key (k : float) (x : A) (l1 l2 : list A) :
  same_key key k x = true ->
  x :: filter (fun y => same_key key k y) l1
  = filter (fun y => same_key key k y) l2 ->
  In x l2.
Proof.
  intros _ E.
  assert (Hin : In x (filter (fun y => same_key key k y) l2))
    by (rewrite <- E; now left).
  apply list_elem_of_In, list_elem_of_filter in Hin as [_ Hin].
  now apply list_elem_of_In.
Qed.

(** A stable sort has one outcome on comparable keys: two sorted lists
    that have, under every key, the same entries in the same order are
    the same list. *)
Lemma stable_sorted_unique (l1 l2 : list A) :
  comparable key l1 -> comparable key l2 ->
  StronglySorted (ascends key) l1 -> StronglySorted (ascends key) l2 ->
  (forall k, filter (fun y => same_key key k y) l1
             = filter (fun y => same_key key k y) l2) ->
  l1 = l2.
Proof.
  intros H1. revert l2. induction l1 as [|x l1 IH]; intros l2 H2 S1 S2 Hf.
  - destruct l2 as [|y l2]; [reflexivity|].
    inversion H2 as [|? ? Hy _]; subst.
    specialize (Hf (key y)).
    rewrite filter_bool_cons, (same_key_refl y Hy) in Hf. discriminate.
  - inversion H1 as [|? ? Hx H1']; subst.
    destruct l2 as [|y l2].
    + specialize (Hf (key x)).
      rewrite filter_bool_cons, (same_key_refl x Hx) in Hf. discriminate.
    + inversion H2 as [|? ? Hy H2']; subst.
      inversion S1 as [|? ? S1' Fx]; subst.
      inversion S2 as [|? ? S2' Fy]; subst.
      assert (E : x = y).
      { pose proof (Hf (key x)) as Hk.
        rewrite !filter_bool_cons, (same_key_refl x Hx) in Hk.
        destruct (same_key key (key x) y) eqn:Eyx; [now injection Hk|].
        exfalso.
        pose proof (in_same_key _ _ _ _ (same_key_refl x Hx) Hk) as Hin2.
        pose proof (Hf (key y)) as Hk'.
        rewrite !filter_bool_cons, (same_key_refl y Hy) in Hk'.
        assert (Exy : same_key key (key y) x = false).
        { unfold same_key in *.
          destruct (PyFloat.eq (key x) (key y)) eqn:E'; [|reflexivity].
          apply FloatOrder.eq_le in E' as [Ha Hb].
          assert (Hc : PyFloat.eq (key y) (key x) = true)
            by (apply FloatOrder.eq_le; now split).
          congruence. }
        rewrite Exy in Hk'. symmetry in Hk'.
        pose proof (in_same_key _ _ _ _ (same_key_refl y Hy) Hk') as Hin1.
        pose proof (proj1 (List.Forall_forall _ _) Fx y Hin1) as Hxy.
        pose proof (proj1 (List.Forall_forall _ _) Fy x Hin2) as Hyx.
        unfold ascends, same_key in *.
        assert (Hc : PyFloat.eq (key y) (key x) = true)
          by (apply FloatOrder.eq_le; now split).
        congruence. }
      subst y. f_equal. apply IH; try assumption.
      intros k. specialize (Hf k). rewrite !filter_bool_cons in Hf.
      destruct (same_key key k x); [now injection Hf|exact Hf].
Qed.

(** On comparable keys, a sort that returns the entries of the list in
    ascending order of the key, the entries of equal key in their order,
    returns the list of [sort_asc]: the second guarantee of [ListSort]
    says that [sorted] is a stable sort, and no more. *)
Lemma stable_sort_is_sort_asc (l l' : list A) :
  comparable key l -> Permutation l' l ->
  StronglySorted (ascends key) l' ->
  (forall k, filter (fun y => same_key key k y) l'
             = filter (fun y => same_key key k y) l) ->
  l' = sort_asc key l.
Proof.
  intros Hl Hp Hs Hf. apply stable_sorted_unique; try assumption.
  - unfold comparable in *. now rewrite Hp.
  - unfold comparable in *. now rewrite sort_asc_perm.
  - now apply sort_asc_sorted.
  - intros k. now rewrite sort_asc_stable.
Qed.

Lemma filter_bool_app (f : A -> bool) (l1 l2 : list A) :
  filter (fun y => f y) (l1 ++ l2)
  = filter (fun y => f y) l1 ++ filter (fun y => f y) l2.
Proof. apply filter_app. Qed.

Lemma filter_bool_rev (f : A -> bool) (l : list A) :
  filter (fun y => f y) (rev l) = rev (filter (fun y => f y) l).
Proof.
  induction l as [|x l IH]; simpl; [reflexivity|].
  rewrite filter_bool_app, IH, !filter_bool_cons.
  destruct (f x); simpl; [reflexivity|]. now rewrite app_nil_r.
Qed.

(** With comparable keys, the entries of [sorted(...)] that have the same
    key stand in the order they had in the input, also with
    [reverse=True]. *)
Lemma py_sorted_stable (reverse : bool) (k : float) (l : list A) :
  comparable key l ->
  filter (fun y => same_key key k y) (py_sorted key reverse l)
  = filter (fun y => same_key key k y) l.
Proof.
  intros Hl. rewrite py_sorted_comparable by exact Hl.
  destruct reverse; [|apply sort_asc_stable].
  rewrite filter_bool_rev, sort_asc_stable, filter_bool_rev. apply rev_involutive.
Qed.

End SortedProperties.

(** * [sorted] with a key of an ordered type *)

Section SortedByProperties.
Context {A K : Type} (ltb : K -> K -> bool) (key : A -> K).

Lemma insert_by_perm (x : A) (l : list A) :
  Permutation (insert_by ltb key x l) (x :: l).
Proof.
  induction l as [|y l IH]; simpl; [reflexivity|].
  destruct (ltb (key y) (key x)); [|reflexivity].
  rewrite IH. apply perm_swap.
Qed.

Lemma sort_by_perm (l : list A) : Permutation (sort_by ltb key l) l.
Proof.
  induction l as [|x l IH]; simpl; [reflexivity|].
  rewrite insert_by_perm. now constructor.
Qed.

Lemma py_sorted_by_perm (reverse : bool) (l : list A) :
  Permutation (py_sorted_by ltb key reverse l) l.
Proof.
  unfold py_sorted_by. destruct reverse; [|apply sort_by_perm].
  rewrite <- Permutation_rev, sort_by_perm. symmetry. apply Permutation_rev.
Qed.

Lemma insert_by_sorted (x : A) (l : list A) :
  orders ltb ->
  StronglySorted (ascends_by ltb key) l ->
  StronglySorted (ascends_by ltb key) (insert_by ltb key x l).
Proof.
  intros [Hasym Htrans] Hs. induction Hs as [|y l Hs IH Hy]; simpl.
  - repeat constructor.
  - destruct (ltb (key y) (key x)) eqn:Hlt.
    + constructor; [exact IH|].
      rewrite (insert_by_perm x l). constructor; [|exact Hy].
      now apply Hasym.
    + constructor; [now constructor|].
      constructor; [exact Hlt|].
      eapply Forall_impl; [exact Hy|]. intros z Hz.
      exact (Htrans _ _ _ Hlt Hz).
Qed.

Lemma sort_by_sorted (l : list A) :
  orders ltb -> StronglySorted (ascends_by ltb key) (sort_by ltb key l).
Proof.
  intros Ho. induction l as [|x l IH]; simpl; [constructor|].
  now apply insert_by_sorted.
Qed.

Lemma sorted_by_rev (l : list A) :
  StronglySorted (ascends_by ltb key) l ->
  StronglySorted (descends_by ltb key) (rev l).
Proof.
  induction 1 as [|y l Hs IH Hy]; simpl; [constructor|].
  apply sorted_snoc; [exact IH|].
  rewrite <- Permutation_rev. exact Hy.
Qed.

(** [sorted(..., reverse=True)] is in descending order of the key, and
    [sorted(...)] in ascending order. *)
Lemma py_sorted_by_descending (l : list A) :
  orders ltb -> StronglySorted (descends_by ltb key) (py_sorted_by ltb key true l).
Proof. intros Ho. unfold py_sorted_by. now apply sorted_by_rev, sort_by_sorted. Qed.

Lemma py_sorted_by_ascending (l : list A) :
  orders ltb -> StronglySorted (ascends_by ltb key) (py_sorted_by ltb key false l).
Proof. apply sort_by_sorted. Qed.

(** Stability: the entries that [same] selects, of which none has a
    smaller key than another, keep their order. *)
Section Stable.
Context (same : A -> bool).
Hypothesis same_not_lt :
  forall x y, same x = true -> same y = true -> ltb (key y) (key x) = false.

Lemma insert_by_stable (x : A) (l : list A) :
  filter (fun y => same y) (insert_by ltb key x l)
  = filter (fun y => same y) (x :: l).
Proof using same_not_lt.
  induction l as [|y l IH]; simpl; [reflexivity|].
  destruct (ltb (key y) (key x)) eqn:Hlt; [|reflexivity].
  rewrite !filter_bool_cons in *. rewrite IH.
  destruct (same x) eqn:Hx, (same y) eqn:Hy; try reflexivity.
  rewrite (same_not_lt x y Hx Hy) in Hlt. discriminate.
Qed.

Lemma sort_by_stable (l : list A) :
  filter (fun y => same y) (sort_by ltb key l) = filter (fun y => same y) l.
Proof using same_not_lt.
  induction l as [|x l IH]; simpl; [reflexivity|].
  rewrite insert_by_stable, !filter_bool_cons, IH. reflexivity.
Qed.

Lemma py_sorted_by_stable (reverse : bool) (l : list A) :
  filter (fun y => same y) (py_sorted_by ltb key reverse l)
  = filter (fun y => same y) l.
Proof using same_not_lt.
  unfold py_sorted_by. destruct reverse; [|apply sort_by_stable].
  rewrite filter_bool_rev, sort_by_stable, filter_bool_rev. apply rev_involutive.
Qed.

End Stable.

End SortedByProperties.

(** ** The order of the integers and of the strings *)

Lemma orders_Z : orders Z.ltb.
Proof.
  split.
  - intros a b H. apply Z.ltb_lt in H. apply Z.ltb_ge. lia.
  - intros a b c H1 H2. apply Z.ltb_ge in H1, H2. apply Z.ltb_ge. lia.
Qed.

Lemma ascii_compare_lt (a b : ascii) :
  Ascii.compare a b = Lt <-> (N_of_ascii a < N_of_ascii b)%N.
Proof. unfold Ascii.compare. apply N.compare_lt_iff. Qed.

Lemma ascii_compare_eq (a b : ascii) : Ascii.compare a b = Eq <-> a = b.
Proof.
  split; [apply Ascii.compare_eq_iff|]. intros ->. apply N.compare_refl.
Qed.

Lemma ascii_compare_gt (a b : ascii) :
  Ascii.compare a b = Gt <-> (N_of_ascii b < N_of_ascii a)%N.
Proof. unfold Ascii.compare. apply N.compare_gt_iff. Qed.

Lemma string_compare_refl (s : string) : String.compare s s = Eq.
Proof.
  induction s as [|c s IH]; simpl; [reflexivity|].
  now rewrite (proj2 (ascii_compare_eq c c) eq_refl).
Qed.

Lemma string_compare_lt_trans (a b c : string) :
  String.compare a b = Lt -> String.compare b c = Lt -> String.compare a c = Lt.
Proof.
  revert b c. induction a as [|x a IH]; intros [|y b] [|z c]; simpl;
    try discriminate; try reflexivity.
  destruct (Ascii.compare x y) eqn:Exy; try discriminate.
  - apply ascii_compare_eq in Exy as ->.
    destruct (Ascii.compare y z) eqn:Eyz; try discriminate; [|reflexivity].
    apply IH.
  - intros _. destruct (Ascii.compare y z) eqn:Eyz; try discriminate.
    + apply ascii_compare_eq in Eyz as <-. now rewrite Exy.
    + intros _. apply ascii_compare_lt in Exy, Eyz.
      assert (H : Ascii.compare x z = Lt)
        by (apply ascii_compare_lt; eapply N.lt_trans; eassumption).
      now rewrite H.
Qed.

Lemma string_ltb_lt (a b : string) : String.ltb a b = true <-> String.compare a b = Lt.
Proof. unfold String.ltb. destruct (String.compare a b); split; congruence. Qed.

Lemma string_ltb_ge (a b : string) :
  String.ltb b a = false <-> a = b \/ String.ltb a b = true.
Proof.
  unfold String.ltb. rewrite (String.compare_antisym a b).
  destruct (String.compare b a) eqn:E; simpl; split; try tauto; try congruence.
  - intros _. left. symmetry. now apply String.compare_eq_iff.
  - intros [->|H]; [|discriminate]. now rewrite string_compare_refl in E.
Qed.

Lemma string_ltb_trans (a b c : string) :
  String.ltb a b = true -> String.ltb b c = true -> String.ltb a c = true.
Proof. rewrite !string_ltb_lt. apply string_compare_lt_trans. Qed.

Lemma string_ltb_irrefl (a : string) : String.ltb a a = false.
Proof. unfold String.ltb. now rewrite string_compare_refl. Qed.

Lemma orders_string : orders String.ltb.
Proof.
  split.
  - intros a b H. apply string_ltb_ge. now right.
  - intros a b c H1 H2. apply string_ltb_ge in H1, H2. apply string_ltb_ge.
    destruct H1 as [->|H1], H2 as [->|H2]; auto.
    right. now apply (string_ltb_trans a b c).
Qed.

Lemma sorted_weaken {A : Type} (R S : A -> A -> Prop) (l : list A) :
  (forall x y, R x y -> S x y) -> StronglySorted R l -> StronglySorted S l.
Proof.
  intros HRS. induction 1 as [|x l Hs IH Hx]; constructor; [exact IH|].
  eapply Forall_impl; [exact Hx|]. auto.
Qed.

(** * Grouping in an insertion-ordered dictionary *)

Lemma foldM_snoc {A S : Type} (f : S -> A -> result S) (l : list A) (x : A) (s : S) :
  foldM f (l ++ [x]) s = (let* s' := foldM f l s in f s' x).
Proof.
  revert s. induction l as [|y l IH]; intros s; simpl.
  - destruct (f s x); reflexivity.
  - destruct (f s y); simpl; [apply IH|reflexivity].
Qed.

Lemma amounts_defined_snoc (l : list Transaction) (t : Transaction) :
  amounts_defined (l ++ [t]) ->
  amounts_defined l /\ amount t = Ok (amount_of t).
Proof.
  unfold amounts_defined. intros Hd. apply Forall_app in Hd as [Hl Ht].
  split; [exact Hl|]. inversion Ht as [|? ? Hok _]; subst.
  unfold amount_of. destruct (amount t); [reflexivity|discriminate].
Qed.

Lemma amount_defined (t : Transaction) :
  is_ok (amount t) = true -> amount t = Ok (amount_of t).
Proof. unfold amount_of. destruct (amount t); [reflexivity|discriminate]. Qed.

Lemma amounts_defined_dec (l : list Transaction) :
  amounts_defined l \/ ~ amounts_defined l.
Proof.
  unfold amounts_defined. induction l as [|t l [IH|IH]].
  - left. constructor.
  - destruct (is_ok (amount t)) eqn:E.
    + left. now constructor.
    + right. intros Hd. inversion Hd; subst. congruence.
  - right. intros Hd. inversion Hd; subst. contradiction.
Qed.

(** The product of an [int] and a float raises nothing but the
    [OverflowError] of the conversion of the [int]. *)
Lemma amount_raises (t : Transaction) (e : exn) :
  amount t = Raise e -> e = OverflowError.
Proof.
  unfold amount, PyFloat.mul_int_float.
  destruct (PyFloat.float_of_int (Quantity t)) as [f|e'] eqn:Hf; [discriminate|].
  simpl. intros [= <-]. now apply (FloatRound.float_of_int_raises _ _ Hf).
Qed.

(** ** First occurrences *)

Lemma elem_of_first_seen (x : string) (l : list string) :
  x ∈ first_seen l <-> x ∈ l.
Proof.
  induction l as [|y l IH]; simpl; [reflexivity|].
  rewrite !elem_of_cons, list_elem_of_filter, IH.
  destruct (String.eqb_spec x y) as [->|Hne]; simpl; tauto.
Qed.

Lemma NoDup_first_seen (l : list string) : NoDup (first_seen l).
Proof.
  induction l as [|y l IH]; simpl; constructor.
  - rewrite list_elem_of_filter, String.eqb_refl. simpl. tauto.
  - now apply NoDup_filter.
Qed.

Lemma first_seen_snoc (l : list string) (x : string) :
  first_seen (l ++ [x]) = first_seen l ++ (if decide (x ∈ l) then [] else [x]).
Proof.
  induction l as [|y l IH].
  - rewrite decide_False by apply not_elem_of_nil. reflexivity.
  - cbn [app first_seen]. rewrite IH, filter_app. cbn [app]. f_equal. f_equal.
    destruct (decide (x ∈ l)) as [Hl|Hl].
    + rewrite decide_True by (now apply elem_of_cons; right). reflexivity.
    + rewrite filter_bool_cons.
      destruct (String.eqb_spec x y) as [->|Hne]; simpl.
      * rewrite decide_True by (now apply elem_of_cons; left). reflexivity.
      * rewrite decide_False; [reflexivity|].
        intros [?|?]%elem_of_cons; contradiction.
Qed.

Lemma elem_of_map {A B : Type} (f : A -> B) (l : list A) (y : B) :
  y ∈ map f l <-> exists x, y = f x /\ x ∈ l.
Proof.
  rewrite list_elem_of_In, in_map_iff. split.
  - intros (x & <- & Hx). exists x. now rewrite list_elem_of_In.
  - intros (x & -> & Hx). exists x. now rewrite <- list_elem_of_In.
Qed.

(** ** The grouping loop *)

Section GroupBy.
Context {V : Type} (key : Transaction -> string) (init : V) (add : float -> V -> V).

Lemma od_upsert_new (k : string) (f : V -> V) (ks : list string) (g : string -> V) :
  k ∉ ks ->
  od_upsert k init f (map (fun k' => (k', g k')) ks)
  = map (fun k' => (k', g k')) ks ++ [(k, f init)].
Proof.
  induction ks as [|k1 ks IH]; intros Hk; simpl; [reflexivity|].
  apply not_elem_of_cons in Hk as [Hne Hk].
  destruct (String.eqb_spec k1 k) as [->|_]; [congruence|].
  now rewrite IH.
Qed.

Lemma od_upsert_old (k : string) (f : V -> V) (ks : list string) (g : string -> V) :
  NoDup ks -> k ∈ ks ->
  od_upsert k init f (map (fun k' => (k', g k')) ks)
  = map (fun k' => (k', if String.eqb k' k then f (g k') else g k')) ks.
Proof.
  induction ks as [|k1 ks IH]; intros Hnd Hk; [now apply elem_of_nil in Hk|].
  apply NoDup_cons in Hnd as [Hk1 Hnd]. simpl.
  destruct (String.eqb_spec k1 k) as [->|Hne].
  - f_equal. apply map_ext_in. intros k' Hk'. apply list_elem_of_In in Hk'.
    destruct (String.eqb_spec k' k) as [->|_]; [contradiction|reflexivity].
  - f_equal. apply IH; [assumption|].
    apply elem_of_cons in Hk as [->|Hk]; [congruence|assumption].
Qed.

Lemma in_group_snoc (k : string) (l : list Transaction) (t : Transaction) :
  in_group key k (l ++ [t])
  = in_group key k l ++ (if String.eqb (key t) k then [t] else []).
Proof. unfold in_group. rewrite filter_app, filter_bool_cons. reflexivity. Qed.

Lemma group_value_snoc (k : string) (l : list Transaction) (t : Transaction) :
  group_value key init add k (l ++ [t])
  = if String.eqb (key t) k then add (amount_of t) (group_value key init add k l)
    else group_value key init add k l.
Proof.
  unfold group_value. rewrite in_group_snoc.
  destruct (String.eqb (key t) k).
  - rewrite map_app, fold_left_app. reflexivity.
  - now rewrite app_nil_r.
Qed.

Lemma in_group_absent (k : string) (l : list Transaction) :
  k ∉ map key l -> in_group key k l = [].
Proof.
  unfold in_group. induction l as [|t l IH]; [reflexivity|]. simpl map.
  intros Hk. apply not_elem_of_cons in Hk as [Hne Hk].
  rewrite filter_bool_cons.
  destruct (String.eqb_spec (key t) k) as [E|_]; [congruence|]. now apply IH.
Qed.

Lemma group_table_snoc (l : list Transaction) (t : Transaction) :
  od_upsert (key t) init (add (amount_of t)) (group_table key init add l)
  = group_table key init add (l ++ [t]).
Proof.
  unfold group_table. rewrite map_app. simpl map at 3.
  rewrite first_seen_snoc.
  destruct (decide (key t ∈ map key l)) as [Hin|Hout].
  - rewrite app_nil_r.
    rewrite od_upsert_old
      by (apply NoDup_first_seen || now apply elem_of_first_seen).
    apply map_ext. intros k. rewrite group_value_snoc.
    rewrite (String.eqb_sym k). reflexivity.
  - rewrite od_upsert_new by (now rewrite elem_of_first_seen).
    rewrite map_app. simpl map at 3. f_equal.
    + apply map_ext_in. intros k Hk.
      apply (proj2 (list_elem_of_In _ _)) in Hk.
      apply (proj1 (elem_of_first_seen _ _)) in Hk.
      rewrite group_value_snoc.
      destruct (String.eqb_spec (key t) k) as [E|_]; [congruence|reflexivity].
    + cbn [map]. rewrite group_value_snoc, String.eqb_refl. unfold group_value.
      rewrite (in_group_absent _ _ Hout). reflexivity.
Qed.

(** The loop builds the table of the groups: the keys in first-seen
    order, each with the amounts of its transactions added in order. *)
Lemma group_loop (l : list Transaction) :
  amounts_defined l -> foldM (group_step key init add) l [] = Ok (group_table key init add l).
Proof.
  induction l as [|t l IH] using rev_ind; [reflexivity|].
  intros Hd. apply amounts_defined_snoc in Hd as [Hl Ht].
  rewrite foldM_snoc, (IH Hl). simpl. unfold group_step.
  rewrite Ht. simpl. now rewrite group_table_snoc.
Qed.

End GroupBy.

(** * Grouping with a value that depends on the transaction *)

Lemma ok_inj {A : Type} (a b : A) : Ok a = Ok b -> a = b.
Proof. congruence. Qed.

Section GroupWith.
Context {V : Type} (key : Transaction -> string) (init : V)
        (add : Transaction -> float -> V -> V).

Lemma group_value_with_snoc (k : string) (l : list Transaction) (t : Transaction) :
  group_value_with key init add k (l ++ [t])
  = if String.eqb (key t) k
    then add t (amount_of t) (group_value_with key init add k l)
    else group_value_with key init add k l.
Proof.
  unfold group_value_with. rewrite in_group_snoc.
  destruct (String.eqb (key t) k).
  - rewrite fold_left_app. reflexivity.
  - now rewrite app_nil_r.
Qed.

Lemma group_table_with_snoc (l : list Transaction) (t : Transaction) :
  od_upsert (key t) init (add t (amount_of t)) (group_table_with key init add l)
  = group_table_with key init add (l ++ [t]).
Proof.
  unfold group_table_with. rewrite map_app. simpl map at 3.
  rewrite first_seen_snoc.
  destruct (decide (key t ∈ map key l)) as [Hin|Hout].
  - rewrite app_nil_r.
    rewrite od_upsert_old
      by (apply NoDup_first_seen || now apply elem_of_first_seen).
    apply map_ext. intros k. rewrite group_value_with_snoc.
    rewrite (String.eqb_sym k). reflexivity.
  - rewrite od_upsert_new by (now rewrite elem_of_first_seen).
    rewrite map_app. simpl map at 3. f_equal.
    + apply map_ext_in. intros k Hk.
      apply (proj2 (list_elem_of_In _ _)) in Hk.
      apply (proj1 (elem_of_first_seen _ _)) in Hk.
      rewrite group_value_with_snoc.
      destruct (String.eqb_spec (key t) k) as [E|_]; [congruence|reflexivity].
    + cbn [map]. rewrite group_value_with_snoc, String.eqb_refl.
      unfold group_value_with.
      rewrite (in_group_absent _ _ _ Hout). reflexivity.
Qed.

(** The loop builds the table of the groups: the keys in first-seen
    order, each with the updates of its transactions made in order. *)
Lemma group_loop_with (l : list Transaction) :
  amounts_defined l ->
  foldM (group_step_with key init add) l [] = Ok (group_table_with key init add l).
Proof.
  induction l as [|t l IH] using rev_ind; [reflexivity|].
  intros Hd. apply amounts_defined_snoc in Hd as [Hl Ht].
  rewrite foldM_snoc, (IH Hl). simpl. unfold group_step_with.
  rewrite Ht. simpl. now rewrite group_table_with_snoc.
Qed.

(** A loop that raises stops at the first amount that is not defined. *)
Lemma group_loop_with_raises (l : list Transaction) (d : list (string * V)) :
  ~ amounts_defined l ->
  foldM (group_step_with key init add) l d = Raise OverflowError.
Proof.
  revert d. induction l as [|t l IH]; intros d Hn.
  - destruct Hn. constructor.
  - simpl. unfold group_step_with at 1.
    destruct (amount t) as [a|e] eqn:Ha; simpl.
    + apply IH. intros Hl. apply Hn. constructor; [|exact Hl]. now rewrite Ha.
    + f_equal. unfold amount, PyFloat.mul_int_float in Ha.
      destruct (PyFloat.float_of_int (Quantity t)) as [f|e'] eqn:Hf; [discriminate|].
      simpl in Ha. injection Ha as <-. now apply (FloatRound.float_of_int_raises _ _ Hf).
Qed.

End GroupWith.

(** ** Sums over the groups *)

Lemma int_sum_from (l : list Z) (acc : Z) : fold_left Z.add l acc = (acc + int_sum l)%Z.
Proof.
  unfold int_sum. revert acc. induction l as [|x l IH]; intros acc; simpl; [lia|].
  rewrite (IH (acc + x)%Z), (IH (0 + x)%Z). lia.
Qed.

Lemma int_sum_cons (x : Z) (l : list Z) : int_sum (x :: l) = (x + int_sum l)%Z.
Proof. unfold int_sum at 1. simpl. apply int_sum_from. Qed.

Lemma int_sum_app (l1 l2 : list Z) : int_sum (l1 ++ l2) = (int_sum l1 + int_sum l2)%Z.
Proof.
  induction l1 as [|x l1 IH]; simpl; [reflexivity|].
  rewrite !int_sum_cons, IH. lia.
Qed.

Lemma int_sum_perm (l1 l2 : list Z) : Permutation l1 l2 -> int_sum l1 = int_sum l2.
Proof.
  induction 1 as [|x l1 l2 _ IH|x y l|l1 l2 l3 _ IH1 _ IH2];
    rewrite ?int_sum_cons; lia.
Qed.

Lemma in_group_cons (key : Transaction -> string) (k : string) (t : Transaction)
    (l : list Transaction) :
  in_group key k (t :: l)
  = if String.eqb (key t) k then t :: in_group key k l else in_group key k l.
Proof. unfold in_group. rewrite filter_bool_cons. reflexivity. Qed.

(** Every transaction is in the group of one key: a sum over the
    transactions is the sum over the keys of the sums of the groups. *)
Lemma sum_over_keys (F : string -> Z) (k : string) (ks : list string) :
  NoDup ks ->
  int_sum (map F ks)
  = ((if decide (k ∈ ks) then F k else 0)
     + int_sum (map F (filter (fun y => negb (String.eqb y k)) ks)))%Z.
Proof.
  induction 1 as [|x ks Hx Hnd IH]; [reflexivity|].
  cbn [map]. rewrite filter_bool_cons, int_sum_cons, IH.
  destruct (String.eqb_spec x k) as [->|Hne]; simpl;
    [|cbn [map]; rewrite int_sum_cons];
    repeat case_decide; try lia; exfalso;
    rewrite ?elem_of_cons in *; intuition congruence.
Qed.

Lemma sum_of_groups (key : Transaction -> string) (g : Transaction -> Z)
    (l : list Transaction) :
  int_sum (map (fun k => int_sum (map g (in_group key k l)))
               (first_seen (map key l)))
  = int_sum (map g l).
Proof.
  induction l as [|t l IH]; [reflexivity|].
  cbn [map first_seen]. rewrite !int_sum_cons, in_group_cons, String.eqb_refl.
  cbn [map]. rewrite int_sum_cons, <- IH.
  rewrite (sum_over_keys (fun k => int_sum (map g (in_group key k l))) (key t))
    by apply NoDup_first_seen.
  assert (Hrest :
    map (fun k => int_sum (map g (in_group key k (t :: l))))
        (filter (fun y => negb (String.eqb y (key t))) (first_seen (map key l)))
    = map (fun k => int_sum (map g (in_group key k l)))
        (filter (fun y => negb (String.eqb y (key t))) (first_seen (map key l)))).
  { apply map_ext_in. intros k Hk.
    apply (proj2 (list_elem_of_In _ _)) in Hk.
    apply list_elem_of_filter in Hk as [Hk _].
    rewrite in_group_cons.
    destruct (String.eqb_spec (key t) k) as [E|_]; [|reflexivity].
    subst k. rewrite String.eqb_refl in Hk. now destruct Hk. }
  rewrite Hrest. cbv beta.
  destruct (decide (key t ∈ first_seen (map key l))) as [Hin|Hout]; [lia|].
  rewrite in_group_absent by (now rewrite <- elem_of_first_seen).
  change (int_sum (map g [])) with 0%Z. lia.
Qed.

Lemma int_sum_ones {A : Type} (l : list A) : int_sum (map (fun _ => 1%Z) l) = len l.
Proof.
  unfold len. induction l as [|x l IH]; [reflexivity|].
  cbn [map length]. rewrite int_sum_cons, IH. lia.
Qed.

(** The sizes of the groups add up to the number of transactions. *)
Lemma sum_of_group_sizes (key : Transaction -> string) (l : list Transaction) :
  int_sum (map (fun k => group_size key k l) (first_seen (map key l))) = len l.
Proof.
  rewrite <- (int_sum_ones l), <- (sum_of_groups key (fun _ => 1%Z) l).
  f_equal. apply map_ext. intros k. unfold group_size. now rewrite int_sum_ones.
Qed.

(** The group of a key that occurs is not empty. *)
Lemma group_size_pos (key : Transaction -> string) (k : string)
    (l : list Transaction) :
  k ∈ first_seen (map key l) -> (1 <= group_size key k l <= len l)%Z.
Proof.
  intros Hk. apply (proj1 (elem_of_first_seen _ _)) in Hk.
  unfold group_size, len, in_group. split.
  - apply (proj1 (elem_of_map _ _ _)) in Hk as (t & -> & Ht).
    induction l as [|u l IH]; [now apply elem_of_nil in Ht|].
    rewrite filter_bool_cons.
    destruct (String.eqb_spec (key u) (key t)) as [_|Hne]; [simpl; lia|].
    apply IH. apply elem_of_cons in Ht as [->|Ht]; [congruence|exact Ht].
  - pose proof (length_filter (fun t => String.eqb (key t) k) l). lia.
Qed.

(** * The record parser *)

Section ParserProperties.
Context `{Builtins}.

Lemma parse_step_unfold (st : ParseState) (raw : string) :
  parse_step st raw =
    if truthy (strip raw) then
      match parse_line (strip raw) with
      | Some txn => accept txn (count_record st)
      | None => discard (strip raw) (count_record st)
      end
    else st.
Proof.
  unfold parse_step, parse_line.
  destruct (truthy (strip raw)); simpl; [|reflexivity].
  destruct (negb _); [reflexivity|].
  destruct (parse_fields _); reflexivity.
Qed.

Lemma lines_seen_cons (raw : string) (rest : list string) :
  lines_seen (raw :: rest) =
    if truthy (strip raw) then strip raw :: lines_seen rest else lines_seen rest.
Proof. unfold lines_seen. simpl map. apply filter_bool_cons. Qed.

(** The loop, from any state: accepted lines are appended to the parsed
    transactions, the others to the discarded records, and both counters
    follow. *)
Lemma parse_loop_from (raw_lines : list string) (st : ParseState) :
  fold_left parse_step raw_lines st =
    {| parsed_transactions :=
         parsed_transactions st ++ omap parse_line (lines_seen raw_lines);
       discarded_records :=
         discarded_records st ++ filter (fun l => is_discarded l) (lines_seen raw_lines);
       discarded_count :=
         discarded_count st + len (filter (fun l => is_discarded l) (lines_seen raw_lines));
       total_records := total_records st + len (lines_seen raw_lines) |}.
Proof.
  revert st. induction raw_lines as [|raw rest IH]; intros st.
  - destruct st; simpl. unfold len; simpl.
    rewrite !app_nil_r, !Z.add_0_r. reflexivity.
  - simpl fold_left. rewrite IH, parse_step_unfold, lines_seen_cons.
    destruct (truthy (strip raw)); [|reflexivity].
    rewrite filter_bool_cons, omap_cons_eq.
    assert (Hd : is_discarded (strip raw) =
                 match parse_line (strip raw) with Some _ => false | None => true end)
      by reflexivity.
    rewrite Hd. clear Hd.
    destruct (parse_line (strip raw)) as [txn|]; simpl;
      rewrite <- ?app_assoc; simpl; f_equal; unfold len; simpl length; lia.
Qed.

Lemma parse_loop_spec (raw_lines : list string) :
  parse_loop raw_lines =
    {| parsed_transactions := omap parse_line (lines_seen raw_lines);
       discarded_records := filter (fun l => is_discarded l) (lines_seen raw_lines);
       discarded_count := len (filter (fun l => is_discarded l) (lines_seen raw_lines));
       total_records := len (lines_seen raw_lines) |}.
Proof. unfold parse_loop. rewrite parse_loop_from. reflexivity. Qed.

Lemma length_omap_filter (l : list string) :
  (length (omap parse_line l) + length (filter (fun l => is_discarded l) l))%nat
  = length l.
Proof.
  induction l as [|x l IH]; [reflexivity|].
  rewrite filter_bool_cons, omap_cons_eq.
  assert (Hd : is_discarded x =
               match parse_line x with Some _ => false | None => true end)
    by reflexivity.
  rewrite Hd. clear Hd.
  destruct (parse_line x); simpl; lia.
Qed.

(** C1. Whatever the raw lines, the number of parsed transactions plus
    the discarded count is the number of non-empty lines processed (the
    counter [total_records]), and the list of discarded records has
    exactly [discarded_count] entries. *)
Theorem parse_transactions_accounting (raw_lines : list string) :
  let '(parsed, discarded, records) := parse_transactions raw_lines in
  (len parsed + discarded)%Z = total_records (parse_loop raw_lines)
  /\ total_records (parse_loop raw_lines) = len (lines_seen raw_lines)
  /\ len records = discarded.
Proof.
  unfold parse_transactions. rewrite parse_loop_spec. simpl.
  split; [|split; reflexivity].
  unfold len. rewrite <- (length_omap_filter (lines_seen raw_lines)). lia.
Qed.

Lemma must_reject_discarded (line : string) :
  must_reject line -> parse_line line = None.
Proof.
  unfold must_reject, parse_line. intros [Hcount | Hrule].
  - destruct (Nat.eqb_spec (length (split pipe line)) 8); [contradiction|reflexivity].
  - destruct (split pipe line) as [|p0 [|p1 [|p2 [|p3 [|p4 [|p5 [|p6 [|p7 [|? ?]]]]]]]]];
      try contradiction.
    simpl negb. cbv iota. unfold parse_fields, bind.
    destruct Hrule as [(q & -> & Hq) | [(u & Hu & Hle) | [HT | [Hc | Hr]]]].
    + destruct (py_float _); [|reflexivity].
      destruct (negb (startswith _ _)); [reflexivity|].
      destruct (_ || _); [reflexivity|].
      destruct (Z.leb_spec q 0); [reflexivity | lia].
    + destruct (py_int _); [|reflexivity]. rewrite Hu.
      destruct (negb (startswith _ _)); [reflexivity|].
      destruct (_ || _); [reflexivity|].
      destruct (_ <=? _)%Z; [reflexivity|].
      rewrite Hle. reflexivity.
    + destruct (py_int _); [|reflexivity].
      destruct (py_float _); [|reflexivity].
      rewrite HT. reflexivity.
    + destruct (py_int _); [|reflexivity].
      destruct (py_float _); [|reflexivity].
      destruct (negb (startswith _ _)); [reflexivity|].
      rewrite Hc. reflexivity.
    + destruct (py_int _); [|reflexivity].
      destruct (py_float _); [|reflexivity].
      destruct (negb (startswith _ _)); [reflexivity|].
      rewrite Hr. simpl. rewrite orb_true_r. reflexivity.
Qed.

(** Every processed line that is not accepted is kept as it was
    processed, in the order of the input. *)
Lemma discarded_records_spec (raw_lines : list string) :
  snd (parse_transactions raw_lines)
  = filter (fun l => is_discarded l) (lines_seen raw_lines).
Proof. unfold parse_transactions. rewrite parse_loop_spec. reflexivity. Qed.

(** A raw line that has to be rejected has a stripped text that has to
    be: the white space around a line is around its first and its last
    field, where the parser strips it again. *)
Lemma must_reject_strip (line : string) :
  must_reject line -> must_reject (strip line).
Proof.
  unfold must_reject. intros [Hcount | Hrule].
  - left. rewrite length_split, (count_char_strip pipe line eq_refl).
    now rewrite <- length_split.
  - right.
    destruct (split pipe line)
      as [|p0 [|p1 [|p2 [|p3 [|p4 [|p5 [|p6 [|p7 [|? ?]]]]]]]]] eqn:Hs;
      try contradiction.
    rewrite (split_strip_eight pipe line _ _ _ _ _ _ _ _ eq_refl Hs).
    unfold breaks_format_rule in *. now rewrite strip_lstrip, strip_rstrip.
Qed.

(** The discarded records are stripped texts that are not empty. *)
Lemma discarded_records_stripped (raw_lines : list string) (line : string) :
  In line (snd (parse_transactions raw_lines)) ->
  strip line = line /\ line <> EmptyString.
Proof.
  rewrite discarded_records_spec. intros Hin.
  apply list_elem_of_In, list_elem_of_filter in Hin as [_ Hin].
  unfold lines_seen in Hin. apply list_elem_of_filter in Hin as [Ht Hin].
  apply list_elem_of_In, in_map_iff in Hin as (raw & <- & _).
  split; [apply strip_idem|].
  destruct (strip raw); [destruct Ht|discriminate].
Qed.

(** C8 (amended). Of a raw line whose field count is not eight or that
    breaks a format rule, the parser keeps the stripped text: unless the
    line is blank, its stripped text yields no transaction and is in the
    list of discarded records. The text of the line as it was given is in
    that list exactly when the line has no white space around it and is
    not empty; a blank line is skipped and recorded nowhere. *)
Theorem rejected_line_kept_stripped (raw_lines : list string) (line : string) :
  In line raw_lines ->
  must_reject line ->
  (strip line <> EmptyString ->
   parse_line (strip line) = None
   /\ In (strip line) (snd (parse_transactions raw_lines)))
  /\ (In line (snd (parse_transactions raw_lines))
      <-> strip line = line /\ line <> EmptyString).
Proof.
  intros Hin Hrej.
  pose proof (must_reject_discarded _ (must_reject_strip line Hrej)) as Hnone.
  assert (Hkept : strip line <> EmptyString ->
                  In (strip line) (snd (parse_transactions raw_lines))).
  { intros Hne. rewrite discarded_records_spec.
    apply list_elem_of_In, list_elem_of_filter. split.
    - unfold is_discarded. rewrite Hnone. exact I.
    - unfold lines_seen. apply list_elem_of_filter. split.
      + destruct (strip line); [contradiction|exact I].
      + apply list_elem_of_In. now apply in_map. }
  split; [intros Hne; split; [exact Hnone|now apply Hkept]|].
  split; [apply discarded_records_stripped|].
  intros [Hs Hne]. rewrite <- Hs at 1. apply Hkept. now rewrite Hs.
Qed.

End ParserProperties.

(** * The validator and the filters *)

Section ValidatorProperties.

Lemma validate_step_unfold (valid : list Transaction) (n : Z) (t : Transaction) :
  validate_step (valid, n) t =
    if passes_checks t then (valid ++ [t], n) else (valid, (n + 1)%Z).
Proof.
  unfold validate_step, passes_checks.
  destruct (Quantity t <=? 0)%Z; [reflexivity|].
  destruct (PyFloat.le _ _); [reflexivity|].
  destruct (startswith (TransactionID t) _); [|reflexivity].
  destruct (startswith (ProductID t) _); [|reflexivity].
  destruct (startswith (CustomerID t) _); reflexivity.
Qed.

Lemma validate_from (transactions valid : list Transaction) (n : Z) :
  fold_left validate_step transactions (valid, n) =
    (valid ++ filter (fun t => passes_checks t) transactions,
     (n + len (filter (fun t => negb (passes_checks t)) transactions))%Z).
Proof.
  revert valid n. induction transactions as [|t rest IH]; intros valid n.
  - simpl. unfold len. simpl. rewrite app_nil_r, Z.add_0_r. reflexivity.
  - cbn [fold_left]. rewrite validate_step_unfold, !filter_bool_cons.
    destruct (passes_checks t); simpl negb; cbv iota; rewrite IH.
    + rewrite <- app_assoc. reflexivity.
    + f_equal. unfold len. simpl length. lia.
Qed.

(** The loop keeps the transactions that pass the five checks, in their
    order, and counts each of the others once. *)
Lemma validate_spec (transactions : list Transaction) :
  validate transactions =
    (filter (fun t => passes_checks t) transactions,
     len (filter (fun t => negb (passes_checks t)) transactions)).
Proof. unfold validate. rewrite validate_from. reflexivity. Qed.

Lemma length_filter_negb {A : Type} (f : A -> bool) (l : list A) :
  (len (filter (fun x => f x) l) + len (filter (fun x => negb (f x)) l))%Z = len l.
Proof.
  unfold len. induction l as [|x l IH]; [reflexivity|].
  rewrite !filter_bool_cons. destruct (f x); simpl negb; cbv iota; simpl length; lia.
Qed.

(** Valid and invalid transactions make up the input: nothing is counted
    twice and nothing is lost. *)
Lemma validate_counts (transactions : list Transaction) :
  (len (fst (validate transactions)) + snd (validate transactions))%Z
  = len transactions.
Proof. rewrite validate_spec. simpl. apply length_filter_negb. Qed.

(** On a unit price that is not a NaN the checks of the loop are the
    predicate of the specification. *)
Lemma passes_checks_spec_valid (t : Transaction) :
  PyFloat.notnan (UnitPrice t) -> passes_checks t = spec_valid t.
Proof.
  intros Hn. unfold passes_checks, spec_valid. f_equal. f_equal. f_equal. f_equal.
  - destruct (Z.leb_spec (Quantity t) 0), (Z.ltb_spec 0 (Quantity t)); simpl; (reflexivity || lia).
  - destruct (PyFloat.le (UnitPrice t) PyFloat.zero) eqn:Hle; simpl.
    + symmetry. now apply FloatOrder.le_lt_false.
    + symmetry. apply FloatOrder.le_false_lt; [assumption|reflexivity|assumption].
Qed.

(** When no unit price is a NaN, the valid set is the set of the
    transactions that satisfy the predicate of the specification, and the
    invalid counter is the number of the others. *)
Lemma validate_spec_valid (transactions : list Transaction) :
  Forall (fun t => PyFloat.notnan (UnitPrice t)) transactions ->
  validate transactions =
    (filter (fun t => spec_valid t) transactions,
     len (filter (fun t => negb (spec_valid t)) transactions)).
Proof.
  intros Hall. rewrite validate_spec.
  induction Hall as [|t rest Ht Hrest IH]; [reflexivity|].
  rewrite !filter_bool_cons, (passes_checks_spec_valid t Ht).
  injection IH as IH1 IH2. unfold len in *.
  destruct (spec_valid t); simpl negb; cbv iota; simpl length; f_equal;
    congruence || lia.
Qed.

(** ** The display step *)

Lemma mapM_amount_defined (l : list Transaction) :
  amounts_defined l ->
  exists amounts, mapM_r amount l = Ok amounts /\ length amounts = length l.
Proof.
  induction 1 as [|t rest Ht Hrest (amounts & IH & Hlen)].
  - exists []. split; reflexivity.
  - simpl. destruct (amount t) as [a|e]; [|discriminate].
    exists (a :: amounts). simpl. rewrite IH. simpl. split; [reflexivity|congruence].
Qed.

(** With amounts for every valid transaction the display step prints and
    returns: the minimum and the maximum are taken of a list that is not
    empty. *)
Lemma display_defined (valid : list Transaction) :
  amounts_defined valid -> exists shown, display valid = Ok shown.
Proof.
  intros Hd. destruct (mapM_amount_defined valid Hd) as (amounts & Hm & _).
  unfold display. rewrite Hm. simpl.
  destruct amounts as [|a amounts]; simpl; eexists; reflexivity.
Qed.

Lemma display_nil :
  display [] = Ok {| shown_regions := []; shown_amount_range := None |}.
Proof. reflexivity. Qed.

(** ** The filters *)

Lemma filter_region_spec (region : option string) (l : list Transaction) :
  filter_region region l =
    (kept_by_region region l, (len l - len (kept_by_region region l))%Z).
Proof.
  unfold filter_region, kept_by_region. destruct region as [r|].
  - destruct (truthy r); [reflexivity|]. f_equal. lia.
  - f_equal. lia.
Qed.

Lemma amount_in_range_spec (lo hi : option float) (t : Transaction) :
  is_ok (amount t) = true ->
  amount_in_range lo hi t = Ok (amount_within lo hi t).
Proof.
  unfold amount_in_range, amount_within, within_bounds.
  destruct (amount t) as [a|e]; [intros _|discriminate].
  destruct lo as [lo|], hi as [hi|]; simpl;
    try destruct (PyFloat.le lo a); reflexivity.
Qed.

Lemma filterM_amount_spec (lo hi : option float) (l : list Transaction) :
  amounts_defined l ->
  filterM_r (amount_in_range lo hi) l
  = Ok (filter (fun t => amount_within lo hi t) l).
Proof.
  induction 1 as [|t rest Ht Hrest IH]; [reflexivity|].
  simpl. rewrite (amount_in_range_spec lo hi t Ht), IH, filter_bool_cons.
  reflexivity.
Qed.

Lemma filter_within_unbounded (l : list Transaction) :
  amounts_defined l -> filter (fun t => amount_within None None t) l = l.
Proof.
  induction 1 as [|t rest Ht Hrest IH]; [reflexivity|].
  rewrite filter_bool_cons, IH. unfold amount_within.
  destruct (amount t); [reflexivity|discriminate].
Qed.

Lemma filter_amount_spec (lo hi : option float) (l : list Transaction) :
  amounts_defined l ->
  filter_amount lo hi l =
    Ok (filter (fun t => amount_within lo hi t) l,
        (len l - len (filter (fun t => amount_within lo hi t) l))%Z).
Proof.
  intros Hd. unfold filter_amount.
  destruct lo as [lo|], hi as [hi|];
    try (rewrite (filterM_amount_spec _ _ l Hd); reflexivity).
  rewrite (filter_within_unbounded l Hd). f_equal. f_equal. lia.
Qed.

Lemma amounts_defined_filter (f : Transaction -> bool) (l : list Transaction) :
  amounts_defined l -> amounts_defined (filter (fun t => f t) l).
Proof.
  induction 1 as [|t rest Ht Hrest IH]; [constructor|].
  rewrite filter_bool_cons. destruct (f t); [constructor|]; assumption.
Qed.

Lemma amounts_defined_kept (region : option string) (l : list Transaction) :
  amounts_defined l -> amounts_defined (kept_by_region region l).
Proof.
  intros Hd. unfold kept_by_region. destruct region as [r|]; [|exact Hd].
  destruct (truthy r); [|exact Hd]. now apply amounts_defined_filter.
Qed.

Lemma mapM_amount_raises (l : list Transaction) :
  ~ amounts_defined l -> mapM_r amount l = Raise OverflowError.
Proof.
  induction l as [|t l IH]; intros Hn.
  - destruct Hn. constructor.
  - simpl. destruct (amount t) as [a|e] eqn:Ha; simpl.
    + rewrite IH; [reflexivity|].
      intros Hl. apply Hn. constructor; [now rewrite Ha|exact Hl].
    + f_equal. now apply (amount_raises t).
Qed.

(** The display step computes every amount: it raises when one of them
    cannot be computed, and the filters are not reached. *)
Lemma validate_and_filter_raises (transactions : list Transaction)
    (region : option string) (min_amount max_amount : option float) :
  ~ amounts_defined (valid_set transactions) ->
  validate_and_filter transactions region min_amount max_amount
  = Raise OverflowError.
Proof.
  unfold valid_set. intros Hn. unfold validate_and_filter.
  destruct (validate transactions) as [valid n]. simpl in Hn.
  unfold display. now rewrite (mapM_amount_raises valid Hn).
Qed.

(** C5 (amended). On a valid set whose amounts can be computed (no
    quantity beyond the range of the floats), [validate_and_filter] first
    keeps the transactions whose region equals the given one up to case
    (all of them when no region, or an empty one, is given) and records
    how many it removed as [filtered_by_region]; it then keeps exactly
    those whose amount lies between the bounds that are given, both
    included, and records how many it removed as [filtered_by_amount].
    When an amount of the valid set cannot be computed, the call raises
    [OverflowError] in the display step, before any filter: the filters
    are applied as the specification states exactly when the amounts of
    the valid set can be computed. *)
Theorem filters_applied_in_order (transactions : list Transaction)
    (region : option string) (min_amount max_amount : option float) :
  (amounts_defined (valid_set transactions) ->
   exists v,
     validate_and_filter transactions region min_amount max_amount = Ok v
     /\ filtered_transactions v
        = filter (fun t => amount_within min_amount max_amount t)
            (kept_by_region region (valid_set transactions))
     /\ filtered_by_region (summary v)
        = (len (valid_set transactions)
           - len (kept_by_region region (valid_set transactions)))%Z
     /\ filtered_by_amount (summary v)
        = (len (kept_by_region region (valid_set transactions))
           - len (filtered_transactions v))%Z
     /\ final_count (summary v) = len (filtered_transactions v))
  /\ (~ amounts_defined (valid_set transactions) ->
      validate_and_filter transactions region min_amount max_amount
      = Raise OverflowError)
  /\ (filters_as_stated transactions region min_amount max_amount
      <-> amounts_defined (valid_set transactions)).
Proof.
  assert (Hok : amounts_defined (valid_set transactions) ->
    exists v,
      validate_and_filter transactions region min_amount max_amount = Ok v
      /\ filtered_transactions v
         = filter (fun t => amount_within min_amount max_amount t)
             (kept_by_region region (valid_set transactions))
      /\ filtered_by_region (summary v)
         = (len (valid_set transactions)
            - len (kept_by_region region (valid_set transactions)))%Z
      /\ filtered_by_amount (summary v)
         = (len (kept_by_region region (valid_set transactions))
            - len (filtered_transactions v))%Z
      /\ final_count (summary v) = len (filtered_transactions v)).
  { unfold valid_set. intros Hd.
    unfold validate_and_filter.
    destruct (validate transactions) as [valid n] eqn:Hv. simpl in Hd |- *.
    destruct (display_defined valid Hd) as (shown & ->). simpl.
    rewrite filter_region_spec.
    rewrite (filter_amount_spec min_amount max_amount _
               (amounts_defined_kept region valid Hd)).
    simpl. eexists. split; [reflexivity|]. simpl. repeat split. }
  split; [exact Hok|]. split; [apply validate_and_filter_raises|].
  split.
  - intros (v & Hv & _).
    destruct (amounts_defined_dec (valid_set transactions)) as [Hd|Hn]; [exact Hd|].
    rewrite (validate_and_filter_raises _ region min_amount max_amount Hn) in Hv.
    discriminate.
  - intros Hd. destruct (Hok Hd) as (v & Hv & H1 & H2 & H3 & _).
    exists v. repeat split; assumption.
Qed.

(** C6. When no transaction is valid, [validate_and_filter] returns: it
    prints no amount range, takes no minimum and no maximum, and gives
    back the empty list with every input counted as invalid. *)
Theorem empty_valid_set_returns (transactions : list Transaction)
    (region : option string) (min_amount max_amount : option float) :
  valid_set transactions = [] ->
  validate_and_filter transactions region min_amount max_amount =
    Ok {| printed := {| shown_regions := []; shown_amount_range := None |};
          filtered_transactions := [];
          invalid_count := len transactions;
          summary := {| total_input := len transactions;
                        invalid := len transactions;
                        filtered_by_region := 0;
                        filtered_by_amount := 0;
                        final_count := 0 |} |}.
Proof.
  unfold valid_set. intros Hempty.
  pose proof (validate_counts transactions) as Hc.
  unfold validate_and_filter.
  destruct (validate transactions) as [valid n]. simpl in Hempty, Hc. subst valid.
  change (len (@nil Transaction)) with 0%Z in Hc.
  replace n with (len transactions) by lia.
  rewrite display_nil. simpl.
  rewrite filter_region_spec.
  assert (Hk : kept_by_region region [] = [])
    by (unfold kept_by_region; destruct region as [r|]; [destruct (truthy r)|]; reflexivity).
  rewrite Hk, (filter_amount_spec min_amount max_amount [] (List.Forall_nil _)).
  reflexivity.
Qed.

(** The superseded variant takes the minimum of the amounts without a
    test: with an empty valid set it raises. *)
Lemma old_empty_valid_set_raises (transactions : list Transaction)
    (region : option string) (min_amount max_amount : option float) :
  fst (Old.validate transactions) = [] ->
  Old.validate_and_filter transactions region min_amount max_amount
  = Raise ValueError.
Proof.
  intros Hempty. unfold Old.validate_and_filter.
  destruct (Old.validate transactions) as [valid n]. simpl in Hempty. subst valid.
  reflexivity.
Qed.

End ValidatorProperties.

(** * The enrichment mapper *)

Section EnrichProperties.
Context `{Builtins}.

Lemma append_loop_map {A B : Type} (f : A -> B) (l : list A) (acc : list B) :
  fold_left (fun out x => out ++ [f x]) l acc = acc ++ map f l.
Proof.
  revert acc. induction l as [|x l IH]; intros acc; simpl.
  - now rewrite app_nil_r.
  - rewrite IH, <- app_assoc. reflexivity.
Qed.

(** The loop appends one enriched record per transaction, in order. *)
Lemma enrich_sales_data_map (transactions : list Transaction)
    (product_mapping : gmap Z CatalogEntry) :
  enrich_sales_data transactions product_mapping
  = map (enrich_txn product_mapping) transactions.
Proof. unfold enrich_sales_data. now rewrite append_loop_map. Qed.

Lemma truthy_false (s : string) : truthy s = false <-> s = EmptyString.
Proof. destruct s; simpl; split; congruence. Qed.

Lemma api_fields_hit (product_mapping : gmap Z CatalogEntry)
    (product_id_raw : option string) (api_info : CatalogEntry) :
  matches_catalog product_mapping product_id_raw api_info ->
  api_fields product_mapping product_id_raw = api_from api_info.
Proof.
  intros (raw & k & -> & Hd & Hk & Hm).
  unfold api_fields, find_api_info, digits_of in *.
  destruct raw as [|c raw]; [now destruct Hd|]. cbn [truthy].
  destruct (truthy (filter_chars isdigit (String c raw))) eqn:Ht.
  - rewrite Hk. simpl. rewrite Hm. reflexivity.
  - apply truthy_false in Ht. contradiction.
Qed.

Lemma api_fields_miss (product_mapping : gmap Z CatalogEntry)
    (product_id_raw : option string) :
  (forall api_info, ~ matches_catalog product_mapping product_id_raw api_info) ->
  api_fields product_mapping product_id_raw = api_defaults.
Proof.
  intros Hno. unfold api_fields, find_api_info.
  destruct product_id_raw as [raw|]; [|reflexivity].
  destruct (truthy raw); [|reflexivity].
  destruct (truthy (filter_chars isdigit raw)) eqn:Ht; [|reflexivity].
  destruct (py_int (filter_chars isdigit raw)) as [k|e] eqn:Hk; [|reflexivity].
  simpl. destruct (product_mapping !! k) as [api_info|] eqn:Hm; [|reflexivity].
  exfalso. apply (Hno api_info). exists raw, k. unfold digits_of.
  repeat split; try assumption.
  intros E. rewrite E in Ht. discriminate.
Qed.

(** An exception inside the [try] block leaves the defaults. *)
Lemma api_fields_raise (product_mapping : gmap Z CatalogEntry)
    (product_id_raw : option string) (e : exn) :
  find_api_info product_mapping product_id_raw = Raise e ->
  api_fields product_mapping product_id_raw = api_defaults.
Proof. unfold api_fields. now intros ->. Qed.

Lemma api_of_enrich_txn (product_mapping : gmap Z CatalogEntry) (txn : Transaction) :
  api_of (enrich_txn product_mapping txn)
  = api_fields product_mapping (Some (ProductID txn))
  /\ base (enrich_txn product_mapping txn) = txn.
Proof.
  unfold enrich_txn, api_of.
  destruct (api_fields _ _) as [[[c b] r] m]. split; reflexivity.
Qed.

(** C3. [enrich_sales_data] is total: it returns one enriched record per
    transaction, whatever the identifiers are. The four enrichment fields
    of a raw product identifier are those of a catalog entry, with
    [API_Match = true], exactly when the digits of the identifier are not
    empty and read as an integer that is a key of the mapping; in every
    other case (no such key, digits that do not read as an integer, no
    digit, an empty or absent identifier) they are the defaults. *)
Theorem enrichment_matches_exactly (transactions : list Transaction)
    (product_mapping : gmap Z CatalogEntry) :
  (forall i txn, transactions !! i = Some txn ->
     exists e, enrich_sales_data transactions product_mapping !! i = Some e
               /\ api_of e = api_fields product_mapping (Some (ProductID txn)))
  /\ (forall product_id_raw,
        (forall api_info,
           matches_catalog product_mapping product_id_raw api_info ->
           api_fields product_mapping product_id_raw = api_from api_info)
        /\ ((forall api_info,
               ~ matches_catalog product_mapping product_id_raw api_info) ->
            api_fields product_mapping product_id_raw = api_defaults))
  /\ api_fields product_mapping None = api_defaults
  /\ api_fields product_mapping (Some EmptyString) = api_defaults.
Proof.
  split; [|split; [|split; reflexivity]].
  - intros i txn Hi. rewrite enrich_sales_data_map.
    exists (enrich_txn product_mapping txn). split.
    + change (map (enrich_txn product_mapping) transactions)
        with (enrich_txn product_mapping <$> transactions).
      rewrite list_lookup_fmap, Hi. reflexivity.
    + apply api_of_enrich_txn.
  - intros product_id_raw. split.
    + apply api_fields_hit.
    + apply api_fields_miss.
Qed.

(** C10. The enriched list has the length and the order of the input,
    and the base record of each entry is the input transaction itself:
    its eight fields are unchanged, and the four [API_] fields are all
    that is added. *)
Theorem enrichment_preserves_base (transactions : list Transaction)
    (product_mapping : gmap Z CatalogEntry) :
  map base (enrich_sales_data transactions product_mapping) = transactions
  /\ length (enrich_sales_data transactions product_mapping) = length transactions.
Proof.
  rewrite enrich_sales_data_map. split.
  - rewrite map_map. induction transactions as [|t l IH]; [reflexivity|].
    simpl. rewrite IH. f_equal. apply api_of_enrich_txn.
  - apply length_map.
Qed.

End EnrichProperties.

(** * The fields of a line of the enriched file *)

Lemma join_last_app (sep : ascii) (l : list string) (x s : string) :
  (join sep (l ++ [x]) ++ s)%string = join sep (l ++ [x ++ s]%string).
Proof.
  induction l as [|p l IH]; [reflexivity|].
  cbn [app]. rewrite !join_cons by (destruct l; discriminate).
  now rewrite string_app_assoc, append_cons, IH.
Qed.

Lemma count_char_join_exact (sep : ascii) (l : list string) :
  l <> [] ->
  S (count_char sep (join sep l))
  = (length l + fold_right (fun p n => count_char sep p + n) 0 l)%nat.
Proof.
  induction l as [|p l IH]; [congruence|]. intros _.
  destruct l as [|q l]; [simpl; lia|].
  rewrite join_cons by discriminate.
  rewrite count_char_app. cbn [count_char]. rewrite Ascii.eqb_refl.
  specialize (IH ltac:(discriminate)). cbn [length fold_right] in *. lia.
Qed.

Lemma separators_in_app (l1 l2 : list string) :
  separators_in (l1 ++ l2) = (separators_in l1 + separators_in l2)%nat.
Proof.
  unfold separators_in. induction l1 as [|p l1 IH]; [reflexivity|].
  cbn [app fold_right]. rewrite IH. lia.
Qed.

Lemma separators_none (l : list string) :
  Forall (fun p => contains pipe p = false) l <-> separators_in l = O.
Proof.
  unfold separators_in. induction l as [|p l IH]; cbn [fold_right].
  - split; [reflexivity|constructor].
  - split.
    + intros Hl. inversion Hl as [|? ? Hp Hr]; subst.
      apply contains_count in Hp. apply IH in Hr. lia.
    + intros Hz. constructor; [apply contains_count; lia|apply IH; lia].
Qed.

Section WrittenLine.
Context `{Builtins}.

Lemma enriched_line_written (e : EnrichedTransaction) :
  enriched_line e = join pipe (written_fields e).
Proof.
  unfold enriched_line, written_fields, api_columns.
  change (String "010" "") with newline.
  set (c := or_empty_str (API_Category e)). set (b := or_empty_str (API_Brand e)).
  set (r := or_empty_float (API_Rating e)). set (m := str_of_bool (API_Match e)).
  change [c; b; r; m] with ([c; b; r] ++ [m]).
  change [c; b; r; (m ++ newline)%string] with ([c; b; r] ++ [(m ++ newline)%string]).
  now rewrite !app_assoc, join_last_app.
Qed.

Lemma separators_written (e : EnrichedTransaction) :
  separators_in (written_fields e)
  = separators_in (base_fields (base e) ++ api_columns e).
Proof.
  unfold written_fields, api_columns. rewrite !separators_in_app.
  f_equal. unfold separators_in. cbn [fold_right]. rewrite count_char_app.
  destruct (API_Match e); reflexivity.
Qed.

(** A line of the enriched file has twelve fields more than the number
    of separators inside the texts it writes. *)
Lemma enriched_line_field_count (e : EnrichedTransaction) :
  length (split pipe (enriched_line e))
  = (12 + separators_in (base_fields (base e) ++ api_columns e))%nat.
Proof.
  rewrite length_split, enriched_line_written.
  rewrite count_char_join_exact by (unfold written_fields, base_fields; discriminate).
  fold (separators_in (written_fields e)). rewrite separators_written.
  unfold written_fields, base_fields. simpl length. lia.
Qed.

End WrittenLine.

(** * The enriched file and the parser *)

Section RoundTrip.
Context `{Builtins}.

Lemma isspace_pipe : isspace pipe = false.
Proof. reflexivity. Qed.

Lemma isspace_comma : isspace comma = false.
Proof. reflexivity. Qed.

(** ** Every encoded line is discarded *)

Lemma enriched_line_fields (e : EnrichedTransaction) :
  (12 <= length (split pipe (strip (enriched_line e))))%nat.
Proof.
  rewrite length_split, (count_char_strip _ _ isspace_pipe).
  unfold enriched_line. rewrite count_char_app.
  pose proof (count_char_join pipe (base_fields (base e) ++ api_columns e)) as Hc.
  rewrite length_app in Hc. simpl length in Hc. lia.
Qed.

Lemma enriched_line_not_blank (e : EnrichedTransaction) :
  truthy (strip (enriched_line e)) = true.
Proof.
  pose proof (enriched_line_fields e) as Hf.
  destruct (strip (enriched_line e)); [simpl in Hf; lia|reflexivity].
Qed.

(** The line written for an enriched transaction has twelve fields or
    more: the parser discards it, whatever the transaction is. *)
Lemma enriched_line_discarded (e : EnrichedTransaction) :
  parse_transactions [enriched_line e] = ([], 1%Z, [strip (enriched_line e)]).
Proof.
  unfold parse_transactions, parse_loop. cbn [fold_left]. unfold parse_step.
  rewrite enriched_line_not_blank. cbn [negb].
  pose proof (enriched_line_fields e) as Hf.
  destruct (Nat.eqb_spec (length (split pipe (strip (enriched_line e)))) 8) as [E|_];
    [lia|].
  reflexivity.
Qed.

(** ** What the parser builds *)

Lemma parse_fields_shape (parts : list string) (t : Transaction) :
  Forall (fun p => contains pipe p = false) parts ->
  parse_fields parts = Ok t -> parsed_shape t.
Proof.
  intros Hparts.
  destruct parts as [|p0 [|p1 [|p2 [|p3 [|p4 [|p5 [|p6 [|p7 [|? ?]]]]]]]]];
    try discriminate.
  unfold parse_fields, bind.
  destruct (py_int _) as [q|]; [|discriminate].
  destruct (py_float _) as [u|]; [|discriminate].
  destruct (startswith (strip p0) "T") eqn:HT; [|discriminate]. cbn [negb].
  destruct (truthy (strip p6)) eqn:H6; [|discriminate].
  destruct (truthy (strip p7)) eqn:H7; [|discriminate]. cbn [negb orb].
  destruct (q <=? 0)%Z eqn:Hq; [discriminate|].
  destruct (PyFloat.le u PyFloat.zero) eqn:Hu; [discriminate|].
  intros [= <-].
  repeat match goal with
         | Hf : Forall _ (_ :: _) |- _ => inversion Hf; subst; clear Hf
         end.
  constructor; cbn; try assumption.
  - repeat constructor; apply strip_idem.
  - repeat constructor; apply contains_strip;
      try apply contains_replace; auto using isspace_pipe.
  - apply contains_strip; [apply isspace_comma|].
    now apply contains_replace_old.
Qed.

Lemma parse_line_shape (line : string) (t : Transaction) :
  parse_line line = Some t -> parsed_shape t.
Proof.
  unfold parse_line. destruct (negb _); [discriminate|].
  destruct (parse_fields (split pipe line)) as [t'|] eqn:Hp; [|discriminate].
  intros [= <-]. eapply parse_fields_shape; [|exact Hp].
  apply split_parts_no_sep.
Qed.

(** ** The text of the numbers *)

Lemma string_of_uint_plain (d : Decimal.uint) :
  all_chars plain_char (DecimalString.NilEmpty.string_of_uint d) = true.
Proof. induction d; simpl; try rewrite IHd; reflexivity. Qed.

Lemma str_of_int_plain (z : Z) : all_chars plain_char (str_of_int z) = true.
Proof.
  unfold str_of_int, DecimalString.NilZero.string_of_int,
    DecimalString.NilZero.string_of_uint.
  destruct (Z.to_int z) as [d|d]; destruct d; simpl;
    rewrite ?string_of_uint_plain; reflexivity.
Qed.

Lemma plain_text_unchanged (s : string) :
  all_chars plain_char s = true -> strip (replace comma "" s) = s.
Proof.
  intros Hp. destruct (all_chars_plain s Hp) as (_ & Hc & Hs).
  rewrite (replace_absent _ _ _ Hc). now apply strip_no_space.
Qed.

(** ** Parsing the base fields of an encoded line *)

Lemma base_fields_no_pipe (t : Transaction) :
  parsed_shape t ->
  all_chars plain_char (py_repr (UnitPrice t)) = true ->
  Forall (fun p => contains pipe p = false) (base_fields t).
Proof.
  intros [_ Hp _ _ _ _ _ _] Hr.
  repeat match goal with
         | Hf : Forall _ (_ :: _) |- _ => inversion Hf; subst; clear Hf
         end.
  unfold base_fields. repeat constructor; try assumption.
  - apply (all_chars_plain _ (str_of_int_plain (Quantity t))).
  - apply (all_chars_plain _ Hr).
Qed.

Lemma reparse_fields (t : Transaction) :
  parsed_shape t ->
  py_int (str_of_int (Quantity t)) = Ok (Quantity t) ->
  py_float (py_repr (UnitPrice t)) = Ok (UnitPrice t) ->
  all_chars plain_char (py_repr (UnitPrice t)) = true ->
  parse_fields (base_fields t) = Ok t.
Proof.
  intros [Hs _ Hc HT H6 H7 Hq Hu] Hi Hf Hr.
  repeat match goal with
         | Hf : Forall _ (_ :: _) |- _ => inversion Hf; subst; clear Hf
         end.
  unfold base_fields, parse_fields.
  rewrite (plain_text_unchanged _ (str_of_int_plain (Quantity t))), Hi.
  rewrite (plain_text_unchanged _ Hr), Hf. unfold bind.
  rewrite (replace_absent _ _ _ Hc).
  repeat match goal with
         | E : strip ?s = ?s |- _ => rewrite E; clear E
         end.
  rewrite HT, H6, H7, Hq, Hu. simpl. destruct t; reflexivity.
Qed.

Lemma rstrip_sep_app (a rest : string) (c : ascii) :
  rest <> EmptyString /\ rstrip rest = rest ->
  (a ++ String c rest)%string <> EmptyString
  /\ rstrip (a ++ String c rest) = (a ++ String c rest)%string.
Proof.
  intros [Hne Hr]. split; [destruct a; discriminate|].
  apply rstrip_app; [discriminate|].
  simpl. rewrite Hr. destruct rest; [contradiction|reflexivity].
Qed.

Lemma truthy_not_empty (s : string) : truthy s = true -> s <> EmptyString.
Proof. destruct s; [discriminate|discriminate]. Qed.

Lemma strip_base_line (t : Transaction) :
  parsed_shape t ->
  strip (join pipe (base_fields t)) = join pipe (base_fields t).
Proof.
  intros [Hs _ _ HT _ H7 _ _].
  pose proof (proj1 (List.Forall_forall _ _) Hs) as Hs'. cbn [In] in Hs'.
  assert (Hl : lstrip (TransactionID t) = TransactionID t)
    by (rewrite <- (Hs' (TransactionID t)) by tauto; apply lstrip_strip).
  assert (Hr : rstrip (Region t) = Region t)
    by (rewrite <- (Hs' (Region t)) by tauto; apply rstrip_strip).
  unfold strip, base_fields. cbn [join].
  rewrite lstrip_app; [|destruct (TransactionID t); [discriminate|discriminate]|exact Hl].
  pose proof (truthy_not_empty _ H7) as Hne.
  apply rstrip_sep_app. repeat apply rstrip_sep_app. split; assumption.
Qed.

Lemma parse_base_line (t : Transaction) :
  parsed_shape t ->
  py_int (str_of_int (Quantity t)) = Ok (Quantity t) ->
  py_float (py_repr (UnitPrice t)) = Ok (UnitPrice t) ->
  all_chars plain_char (py_repr (UnitPrice t)) = true ->
  parse_transactions [join pipe (base_fields t)] = ([t], 0%Z, []).
Proof.
  intros Hshape Hi Hf Hr.
  unfold parse_transactions, parse_loop. cbn [fold_left]. unfold parse_step.
  rewrite (strip_base_line t Hshape).
  rewrite split_join; [|discriminate|now apply base_fields_no_pipe].
  rewrite (reparse_fields t Hshape Hi Hf Hr).
  destruct (join pipe (base_fields t)) eqn:E; [|reflexivity].
  exfalso. pose proof (f_equal (split pipe) E) as E'.
  rewrite split_join in E'; [discriminate|discriminate|now apply base_fields_no_pipe].
Qed.

Lemma first_eight_enriched (e : EnrichedTransaction) :
  Forall (fun p => contains pipe p = false) (base_fields (base e)) ->
  first_eight (enriched_line e) = join pipe (base_fields (base e)).
Proof.
  intros Hp. unfold first_eight, enriched_line.
  rewrite join_app by discriminate.
  rewrite string_app_assoc, append_cons.
  rewrite split_join_prefix by (discriminate || assumption).
  rewrite take_app_length'; reflexivity.
Qed.

(** C9 (amended). For a transaction built by the parser and then
    enriched, the line of the enriched file cut down to its first eight
    fields parses back to that transaction, the eight base fields
    included, provided the text of its two numbers reads back as the same
    numbers ([int(str(q)) == q], [float(repr(p)) == p], which hold for
    the builtins of Python) and the text of the price has no white
    space, no separator and no comma. The whole line has twelve fields
    and one more for every separator inside the texts of the four
    enrichment fields, which are written as they are; and the parser
    discards it. *)
Theorem base_fields_round_trip (line : string) (e : EnrichedTransaction) :
  parse_line line = Some (base e) ->
  py_int (str_of_int (Quantity (base e))) = Ok (Quantity (base e)) ->
  py_float (py_repr (UnitPrice (base e))) = Ok (UnitPrice (base e)) ->
  all_chars plain_char (py_repr (UnitPrice (base e))) = true ->
  parse_transactions [first_eight (enriched_line e)] = ([base e], 0%Z, [])
  /\ parse_transactions [enriched_line e] = ([], 1%Z, [strip (enriched_line e)])
  /\ length (split pipe (enriched_line e))
     = (12 + separators_in (api_columns e))%nat.
Proof.
  intros Hparsed Hi Hf Hr.
  pose proof (parse_line_shape line (base e) Hparsed) as Hshape.
  pose proof (base_fields_no_pipe (base e) Hshape Hr) as Hnp.
  split; [|split; [apply enriched_line_discarded|]].
  - rewrite first_eight_enriched by exact Hnp.
    now apply parse_base_line.
  - rewrite enriched_line_field_count, separators_in_app.
    now rewrite (proj1 (separators_none _) Hnp).
Qed.

End RoundTrip.

(** * The lines of the enriched file *)

Section SaveProperties.
Context `{Builtins}.

(** X27. A line of the enriched file has twelve fields more than the
    number of separators inside the texts it writes: nothing is escaped.
    When no text holds a separator, the twelve fields are the eight base
    fields and the four enrichment fields, in the order of the header
    (which has twelve names), the last one followed by the end of the
    line. *)
Theorem saved_line_has_header_columns (e : EnrichedTransaction) :
  length (split pipe (enriched_line e))
  = (12 + separators_in (base_fields (base e) ++ api_columns e))%nat
  /\ (Forall (fun p => contains pipe p = false)
        (base_fields (base e) ++ api_columns e) ->
      split pipe (enriched_line e) = written_fields e)
  /\ length (split pipe header) = 12%nat
  /\ save_enriched_data [e] = [header; enriched_line e].
Proof.
  split; [|split; [|split; reflexivity]].
  - rewrite length_split, enriched_line_written.
    rewrite count_char_join_exact by (unfold written_fields, base_fields; discriminate).
    fold (separators_in (written_fields e)). rewrite separators_written.
    unfold written_fields, base_fields. simpl length. lia.
  - intros Hf. rewrite enriched_line_written. apply split_join.
    + unfold written_fields, base_fields. discriminate.
    + apply separators_none. rewrite separators_written.
      now apply separators_none.
Qed.

End SaveProperties.

(** * The reader and the parser *)

Lemma lines_seen_app (l1 l2 : list string) :
  lines_seen (l1 ++ l2) = lines_seen l1 ++ lines_seen l2.
Proof. unfold lines_seen. now rewrite map_app, filter_app. Qed.

Lemma lines_seen_clean (l : list string) : Forall (fun x => strip x = x /\ x <> EmptyString) (lines_seen l).
Proof.
  induction l as [|x l IH]; [constructor|].
  unfold lines_seen in *. cbn [map]. rewrite filter_bool_cons.
  destruct (truthy (strip x)) eqn:E; [|exact IH].
  constructor; [|exact IH]. split; [apply strip_idem|].
  now apply truthy_not_empty.
Qed.

Lemma lines_seen_of_clean (l : list string) :
  Forall (fun x => strip x = x /\ x <> EmptyString) l -> lines_seen l = l.
Proof.
  induction 1 as [|x l [Hs Hne] Hl IH]; [reflexivity|].
  unfold lines_seen in *. cbn [map]. rewrite filter_bool_cons, Hs, IH.
  destruct x; [congruence|reflexivity].
Qed.

Lemma lines_seen_idem (l : list string) : lines_seen (lines_seen l) = lines_seen l.
Proof. apply lines_seen_of_clean, lines_seen_clean. Qed.

(** ** [read_sales_data] *)

Lemma map_filter_strip (l : list string) :
  map strip (filter (fun line => truthy (strip line)) l) = lines_seen l.
Proof.
  unfold lines_seen. induction l as [|x l IH]; [reflexivity|].
  cbn [map]. rewrite !filter_bool_cons.
  destruct (truthy (strip x)); cbn [map]; now rewrite IH.
Qed.

Lemma length_lines_seen (l : list string) :
  (len (lines_seen l) + len (filter (fun line => blank line) l))%Z = len l.
Proof.
  unfold lines_seen, blank, len. induction l as [|x l IH]; [reflexivity|].
  cbn [map]. rewrite !filter_bool_cons.
  destruct (truthy (strip x)); simpl negb; cbv iota; simpl length; lia.
Qed.

Lemma clean_lines_spec (raw_lines : list string) :
  clean_lines raw_lines
  = (lines_seen (drop 1 raw_lines),
     match raw_lines with
     | [] => (-1)%Z
     | _ :: rest => len (filter (fun line => blank line) rest)
     end).
Proof.
  unfold clean_lines. rewrite map_filter_strip. f_equal.
  destruct raw_lines as [|h rest]; [reflexivity|].
  cbn [drop]. rewrite drop_0.
  pose proof (length_lines_seen rest) as Hl. unfold len in *. simpl length. lia.
Qed.

Lemma read_loop_outcome (open_file : string -> Opened) (encs : list string) :
  match read_loop open_file encs with
  | Read lines discarded =>
      exists pre encoding post raw_lines,
        encs = pre ++ encoding :: post
        /\ Forall (fun enc => open_file enc = UnicodeDecodeError) pre
        /\ open_file encoding = Lines raw_lines
        /\ (lines, discarded) = clean_lines raw_lines
  | RaiseFileNotFoundError =>
      exists pre encoding post,
        encs = pre ++ encoding :: post
        /\ Forall (fun enc => open_file enc = UnicodeDecodeError) pre
        /\ open_file encoding = FileNotFoundError
  | RaiseValueError =>
      Forall (fun enc => open_file enc = UnicodeDecodeError) encs
  end.
Proof.
  induction encs as [|enc rest IH]; simpl; [constructor|].
  destruct (open_file enc) as [raw_lines| |] eqn:E.
  - destruct (clean_lines raw_lines) as [lines discarded] eqn:Ec.
    exists [], enc, rest, raw_lines.
    split; [reflexivity|]. split; [constructor|]. split; [exact E|reflexivity].
  - destruct (read_loop open_file rest) as [lines discarded| |].
    + destruct IH as (pre & encoding & post & raw_lines & -> & Hpre & Ho & Hc).
      exists (enc :: pre), encoding, post, raw_lines.
      split; [reflexivity|]. split; [now constructor|]. split; [exact Ho|exact Hc].
    + destruct IH as (pre & encoding & post & -> & Hpre & Ho).
      exists (enc :: pre), encoding, post.
      split; [reflexivity|]. split; [now constructor|exact Ho].
    + now constructor.
  - exists [], enc, rest. split; [reflexivity|]. split; [constructor|exact E].
Qed.

(** X3. [read_sales_data] answers with the first of the three
    encodings that does not fail to decode the file: it returns the lines
    after the header, stripped, the blank ones left out, with the number
    of the blank ones as the count of the discarded lines, which is -1 for
    a file without any line; it raises [FileNotFoundError] if the file is
    not found, and [ValueError] only if all three encodings fail. *)
Theorem read_sales_data_outcome (open_file : string -> Opened) :
  match read_sales_data open_file with
  | Read lines discarded =>
      exists encoding raw_lines,
        first_to_answer open_file encoding (Lines raw_lines)
        /\ lines = lines_seen (drop 1 raw_lines)
        /\ Forall (fun l => strip l = l /\ l <> EmptyString) lines
        /\ discarded
           = match raw_lines with
             | [] => (-1)%Z
             | _ :: rest => len (filter (fun line => blank line) rest)
             end
  | RaiseFileNotFoundError =>
      exists encoding, first_to_answer open_file encoding FileNotFoundError
  | RaiseValueError =>
      Forall (fun enc => open_file enc = UnicodeDecodeError) encodings
  end.
Proof.
  unfold read_sales_data. pose proof (read_loop_outcome open_file encodings) as Ho.
  destruct (read_loop open_file encodings) as [lines discarded| |].
  - destruct Ho as (pre & encoding & post & raw_lines & He & Hpre & Hopen & Hc).
    rewrite clean_lines_spec in Hc. injection Hc as -> ->.
    exists encoding, raw_lines. split; [now exists pre, post|].
    split; [reflexivity|]. split; [apply lines_seen_clean|reflexivity].
  - destruct Ho as (pre & encoding & post & He & Hpre & Hopen).
    exists encoding. now exists pre, post.
  - exact Ho.
Qed.

Lemma read_lines_clean (open_file : string -> Opened) (lines : list string)
    (discarded : Z) :
  read_sales_data open_file = Read lines discarded ->
  Forall (fun l => strip l = l /\ l <> EmptyString) lines.
Proof.
  intros Hr. unfold read_sales_data in Hr.
  pose proof (read_loop_outcome open_file encodings) as Ho. rewrite Hr in Ho.
  destruct Ho as (pre & encoding & post & raw_lines & _ & _ & _ & Hc).
  rewrite clean_lines_spec in Hc. injection Hc as -> _. apply lines_seen_clean.
Qed.

Section ParserComposition.
Context `{Builtins}.

(** X4. The parser skips none of the lines the reader
    returns: each of them is counted, and is either parsed or kept as it
    is among the discarded records. *)
Theorem reader_feeds_parser (open_file : string -> Opened) (lines : list string)
    (discarded : Z) :
  read_sales_data open_file = Read lines discarded ->
  let '(parsed, discarded_count, records) := parse_transactions lines in
  (len parsed + discarded_count)%Z = len lines
  /\ parsed = omap parse_line lines
  /\ records = filter (fun l => is_discarded l) lines.
Proof.
  intros Hr. pose proof (read_lines_clean _ _ _ Hr) as Hc.
  unfold parse_transactions. rewrite parse_loop_spec. simpl.
  rewrite (lines_seen_of_clean _ Hc). split; [|split; reflexivity].
  unfold len. pose proof (length_omap_filter lines). lia.
Qed.

Lemma Forall_omap_parse (l : list string) :
  Forall parsed_shape (omap parse_line l).
Proof.
  induction l as [|x l IH]; [constructor|].
  rewrite omap_cons_eq. destruct (parse_line x) as [t|] eqn:E; [|exact IH].
  constructor; [|exact IH]. exact (parse_line_shape x t E).
Qed.

Lemma parsed_shapes (raw_lines : list string) :
  Forall parsed_shape (fst (fst (parse_transactions raw_lines))).
Proof.
  unfold parse_transactions. rewrite parse_loop_spec. simpl. apply Forall_omap_parse.
Qed.

(** X1. Every transaction [parse_transactions] returns is
    well formed: its text fields are stripped and hold no field separator,
    the product name holds no comma, the identifier of the transaction
    starts with [T], the customer and the region are not empty, the
    quantity is positive and the unit price is not zero or less. *)
Theorem parsed_records_are_well_formed (raw_lines : list string) :
  Forall parsed_shape (fst (fst (parse_transactions raw_lines))).
Proof. apply parsed_shapes. Qed.

(** X2. [parse_transactions] works line by line: the parsed
    transactions and the discarded records are in the order of the lines;
    the parsing of two lists put together is the parsing of the one
    followed by the parsing of the other, the counts added; and blank
    lines and white space around a line change nothing. *)
Theorem parsing_is_line_by_line (l1 l2 : list string) :
  let '(p1, d1, r1) := parse_transactions l1 in
  let '(p2, d2, r2) := parse_transactions l2 in
  parse_transactions (l1 ++ l2) = (p1 ++ p2, (d1 + d2)%Z, r1 ++ r2)
  /\ parse_transactions (lines_seen l1) = (p1, d1, r1)
  /\ p1 = omap parse_line (lines_seen l1)
  /\ r1 = filter (fun l => is_discarded l) (lines_seen l1).
Proof.
  unfold parse_transactions. rewrite !parse_loop_spec. simpl.
  rewrite lines_seen_idem, lines_seen_app, omap_app, filter_app.
  split; [|split; [|split]]; try reflexivity.
  f_equal. f_equal. unfold len. rewrite length_app. lia.
Qed.

End ParserComposition.

(** * Region-wise sales *)

Section RegionProperties.
Context {sorter : ListSort}.

Lemma region_acc_fold (amts : list float) (v : RegionAcc) :
  fold_left (fun v a => region_add a v) amts v
  = {| acc_total_sales := fold_left PrimFloat.add amts (acc_total_sales v);
       acc_transaction_count := acc_transaction_count v + len amts |}.
Proof.
  revert v. induction amts as [|a amts IH]; intros v; simpl.
  - destruct v; simpl. unfold len. simpl. now rewrite Z.add_0_r.
  - rewrite IH. simpl. f_equal. unfold len. simpl length. lia.
Qed.

Lemma region_group_value (r : string) (transactions : list Transaction) :
  group_value Region region_init region_add r transactions
  = {| acc_total_sales := group_sum Region r transactions;
       acc_transaction_count := group_size Region r transactions |}.
Proof.
  unfold group_value. rewrite region_acc_fold. simpl.
  unfold group_sum, group_size, float_sum, len. now rewrite length_map.
Qed.

(** The first loop: the table of the regions and the grand total. *)
Lemma region_loop_from (l : list Transaction) (d : list (string * RegionAcc)) (g : float) :
  amounts_defined l ->
  foldM region_step l (d, g)
  = (let* d' := foldM (group_step Region region_init region_add) l d in
     Ok (d', fold_left PrimFloat.add (map amount_of l) g)).
Proof.
  intros Hd. revert d g. induction Hd as [|t l Ht Hl IH]; intros d g; [reflexivity|].
  simpl. unfold group_step at 1. rewrite (amount_defined t Ht). simpl.
  now rewrite IH.
Qed.

Lemma region_loop (transactions : list Transaction) :
  amounts_defined transactions ->
  foldM region_step transactions ([], PyFloat.zero)
  = Ok (group_table Region region_init region_add transactions,
        grand_total transactions).
Proof.
  intros Hd. rewrite (region_loop_from _ _ _ Hd), (group_loop _ _ _ _ Hd).
  reflexivity.
Qed.

Lemma positive_not_zero (g : float) :
  PyFloat.lt PyFloat.zero g = true -> PyFloat.eq g PyFloat.zero = false.
Proof.
  intros Hlt. apply FloatOrder.lt_asym in Hlt.
  destruct (PyFloat.eq g PyFloat.zero) eqn:E; [|reflexivity].
  apply FloatOrder.eq_le in E as [E _]. congruence.
Qed.

(** The second loop never divides by zero: the division is made only when
    the grand total is greater than zero. *)
Lemma region_finish_ok (grand : float) (r : string) (s : RegionAcc) :
  region_finish grand (r, s)
  = Ok (r, {| total_sales := PyFloat.round2 (acc_total_sales s);
              transaction_count := acc_transaction_count s;
              percentage :=
                PyFloat.round2 (guarded_percentage (acc_total_sales s) grand) |}).
Proof.
  unfold region_finish, guarded_percentage, PyFloat.truediv.
  destruct (PyFloat.lt PyFloat.zero grand) eqn:Hlt; [|reflexivity].
  rewrite (positive_not_zero grand Hlt). reflexivity.
Qed.

Lemma region_finish_table (transactions : list Transaction) (ks : list string) :
  mapM_r (region_finish (grand_total transactions))
    (map (fun k => (k, group_value Region region_init region_add k transactions)) ks)
  = Ok (map (region_entry transactions) ks).
Proof.
  induction ks as [|k ks IH]; [reflexivity|].
  cbn [map mapM_r]. rewrite region_finish_ok, IH, region_group_value. reflexivity.
Qed.

(** [region_wise_sales] returns the table of the regions, sorted. *)
Lemma region_wise_sales_spec (transactions : list Transaction) :
  amounts_defined transactions ->
  region_wise_sales transactions
  = Ok (py_sorted region_key true (region_table transactions)).
Proof.
  intros Hd. unfold region_wise_sales. rewrite (region_loop _ Hd). simpl.
  unfold group_table. rewrite region_finish_table. reflexivity.
Qed.

(** When the grand total is not negative (and not a NaN), the guard of
    the code is the guard of the specification. *)
Lemma guarded_is_stated (total grand : float) :
  PyFloat.le PyFloat.zero grand = true ->
  guarded_percentage total grand = stated_percentage total grand.
Proof.
  intros Hle. unfold guarded_percentage, stated_percentage.
  destruct (PyFloat.lt PyFloat.zero grand) eqn:Hlt.
  - now rewrite (positive_not_zero grand Hlt).
  - destruct (FloatOrder.le_notnan _ _ Hle) as [Hz Hg].
    apply (FloatOrder.lt_false_le _ _ Hz Hg) in Hlt.
    assert (E : PyFloat.eq grand PyFloat.zero = true)
      by (apply FloatOrder.eq_le; split; assumption).
    now rewrite E.
Qed.

Lemma nonneg_amounts_defined (l : list Transaction) :
  nonneg_amounts l -> amounts_defined l.
Proof.
  unfold nonneg_amounts, amounts_defined. apply List.Forall_impl.
  intros t (a & -> & _). reflexivity.
Qed.

Lemma nonneg_amounts_of (l : list Transaction) :
  nonneg_amounts l ->
  Forall (fun a => PyFloat.le PyFloat.zero a = true) (map amount_of l).
Proof.
  induction 1 as [|t l (a & Ha & Hle) Hl IH]; simpl; constructor; [|exact IH].
  unfold amount_of. now rewrite Ha.
Qed.

(** Amounts that are not negative have a grand total that is not
    negative: the guard of the code is then the guard of the
    specification. *)
Lemma grand_total_nonneg (transactions : list Transaction) :
  nonneg_amounts transactions ->
  PyFloat.le PyFloat.zero (grand_total transactions) = true.
Proof. intros Hn. now apply FloatSum.float_sum_nonneg, nonneg_amounts_of. Qed.

(** ** Totals of amounts that are not negative *)

Lemma Forall_map_keys {A B : Type} (P : B -> Prop) (h : A -> B) (ks : list A) :
  (forall k, k ∈ ks -> P (h k)) -> Forall P (map h ks).
Proof.
  intros H. apply List.Forall_forall. intros y Hy.
  apply in_map_iff in Hy as (k & <- & Hk). apply H. now apply list_elem_of_In.
Qed.

Lemma nonneg_amounts_group (key : Transaction -> string) (k : string)
    (l : list Transaction) :
  nonneg_amounts l -> nonneg_amounts (in_group key k l).
Proof.
  unfold nonneg_amounts, in_group. induction 1 as [|t l Ht Hl IH]; [constructor|].
  rewrite filter_bool_cons. destruct (String.eqb (key t) k); [constructor|]; assumption.
Qed.

Lemma group_sum_nonneg (key : Transaction -> string) (k : string)
    (l : list Transaction) :
  nonneg_amounts l -> PyFloat.le PyFloat.zero (group_sum key k l) = true.
Proof.
  intros Hn. unfold group_sum.
  now apply FloatSum.float_sum_nonneg, nonneg_amounts_of, nonneg_amounts_group.
Qed.

Lemma rounded_group_sum_notnan (key : Transaction -> string) (k : string)
    (l : list Transaction) :
  nonneg_amounts l -> PyFloat.notnan (PyFloat.round2 (group_sum key k l)).
Proof.
  intros Hn. apply FloatRound.round2_notnan.
  now apply (FloatOrder.le_notnan _ _ (group_sum_nonneg key k l Hn)).
Qed.

Lemma region_table_comparable (transactions : list Transaction) :
  nonneg_amounts transactions ->
  comparable region_key (region_table transactions).
Proof.
  intros Hn. unfold comparable, region_table. apply Forall_map_keys.
  intros r _. now apply rounded_group_sum_notnan.
Qed.

(** C4 (amended). When the amounts are defined, [region_wise_sales]
    returns, for each region, the total and the percentage rounded to two
    decimals, the percentage being the share of the grand total when that
    total is greater than zero and [0.0] otherwise (zero, negative or NaN
    total: no division is made, none can fail); for a grand total that is
    not negative this is the percentage of the specification. The regions
    are those of the input, each once. When no rounded total is a NaN the
    regions are in descending order of the rounded total, and regions
    with the same rounded total stand in first-seen order; with a NaN
    among the totals [sorted] compares keys that [<] does not order, and
    only the entries are stated, not their order. When no amount is
    negative, no rounded total is a NaN and the percentages are those of
    the specification. *)
Theorem region_shares_sorted (transactions : list Transaction) :
  amounts_defined transactions ->
  exists res,
    region_wise_sales transactions = Ok res
    /\ Permutation res (region_table transactions)
    /\ (forall r s, In (r, s) res ->
          total_sales s = PyFloat.round2 (group_sum Region r transactions)
          /\ transaction_count s = group_size Region r transactions
          /\ percentage s
             = PyFloat.round2 (guarded_percentage (group_sum Region r transactions)
                                 (grand_total transactions))
          /\ (PyFloat.le PyFloat.zero (grand_total transactions) = true ->
              percentage s
              = PyFloat.round2 (stated_percentage (group_sum Region r transactions)
                                  (grand_total transactions))))
    /\ (comparable region_key (region_table transactions) ->
        StronglySorted (descends region_key) res
        /\ forall k, filter (fun e => same_key region_key k e) res
                     = filter (fun e => same_key region_key k e)
                         (region_table transactions))
    /\ (nonneg_amounts transactions ->
        comparable region_key (region_table transactions)
        /\ region_shares_as_stated transactions).
Proof.
  intros Hd. eexists. split; [now apply region_wise_sales_spec|].
  split; [apply py_sorted_perm|]. split; [|split].
  - intros r s Hin.
    apply (Permutation_in _ (py_sorted_perm region_key true _)) in Hin.
    unfold region_table in Hin. apply in_map_iff in Hin as (r' & E & _).
    injection E as <- <-. simpl. repeat split.
    intros Hle. now rewrite guarded_is_stated.
  - intros Hc. split; [now apply py_sorted_descending|].
    intros k. now apply py_sorted_stable.
  - intros Hn. split; [now apply region_table_comparable|].
    intros res Hres r s Hin.
    rewrite (region_wise_sales_spec _ Hd) in Hres. injection Hres as <-.
    apply (Permutation_in _ (py_sorted_perm region_key true _)) in Hin.
    unfold region_table in Hin. apply in_map_iff in Hin as (r' & E & _).
    injection E as <- <-. simpl.
    now rewrite guarded_is_stated by (now apply grand_total_nonneg).
Qed.

End RegionProperties.

(** * The peak sales day *)

Section PeakProperties.

Lemma day_acc_fold (amts : list float) (v : DayAcc) :
  fold_left (fun v a => day_add a v) amts v
  = {| revenue := fold_left PrimFloat.add amts (revenue v);
       day_transaction_count := day_transaction_count v + len amts |}.
Proof.
  revert v. induction amts as [|a amts IH]; intros v; simpl.
  - destruct v; simpl. unfold len. simpl. now rewrite Z.add_0_r.
  - rewrite IH. simpl. f_equal. unfold len. simpl length. lia.
Qed.

(** The first loop builds the table of the dates. *)
Lemma daily_totals_spec (transactions : list Transaction) :
  amounts_defined transactions ->
  foldM day_step transactions [] = Ok (day_table transactions).
Proof.
  intros Hd.
  change day_step with (group_step Date day_init day_add).
  rewrite (group_loop _ _ _ _ Hd). f_equal.
  unfold group_table, day_table. apply map_ext. intros d.
  unfold day_entry, group_value. rewrite day_acc_fold. simpl.
  unfold group_sum, group_size, float_sum, len. now rewrite length_map.
Qed.

Lemma peak_step_found (table : list (string * DayAcc)) (st : Peak)
    (e : string * DayAcc) :
  peak_found table st -> peak_found (table ++ [e]) (peak_step st e).
Proof.
  destruct st as [[pd pr] pc], e as [d' s']. unfold peak_found, peak_step.
  intros [Hmax Hst].
  assert (Hpos : PyFloat.lt pr (revenue s') = true ->
                 PyFloat.lt PyFloat.zero (revenue s') = true).
  { intros Hlt. destruct Hst as [[= -> -> ->] | (i & d & s & _ & [= -> -> ->] & Hz & _)].
    - exact Hlt.
    - eapply FloatOrder.lt_trans; eassumption. }
  destruct (PyFloat.lt pr (revenue s')) eqn:Hlt.
  - split.
    + intros e He. apply in_app_or in He as [He|[<-|[]]].
      * destruct (PyFloat.lt (revenue s') (revenue (snd e))) eqn:Hgt; [|reflexivity].
        rewrite <- (Hmax e He). symmetry.
        eapply FloatOrder.lt_trans; eassumption.
      * apply FloatOrder.lt_irrefl.
    + right. exists (length table), d', s'. repeat split.
      * now rewrite list_lookup_middle.
      * now apply Hpos.
      * intros j e Hj He.
        rewrite lookup_app_l in He by exact Hj.
        destruct (PyFloat.le (revenue s') (revenue (snd e))) eqn:Hle; [|reflexivity].
        rewrite <- (Hmax e); [|eapply list_elem_of_In, list_elem_of_lookup_2; exact He].
        symmetry. eapply FloatOrder.lt_le_trans; eassumption.
  - split.
    + intros e He. apply in_app_or in He as [He|[<-|[]]]; [now apply Hmax|exact Hlt].
    + destruct Hst as [Hinit | (i & d & s & Hi & Hs & Hz & Hbefore)]; [now left|].
      right. exists i, d, s. repeat split; try assumption.
      * rewrite lookup_app_l; [exact Hi|]. now apply lookup_lt_Some in Hi.
      * intros j e Hj He. apply (Hbefore j e Hj).
        rewrite lookup_app_l in He; [exact He|].
        apply lookup_lt_Some in Hi. lia.
Qed.

Lemma peak_loop_found (table : list (string * DayAcc)) :
  peak_found table (fold_left peak_step table peak_init).
Proof.
  induction table as [|e table IH] using rev_ind.
  - simpl. split; [intros e []|now left].
  - rewrite fold_left_app. simpl. now apply peak_step_found.
Qed.

Lemma round2_zero : PyFloat.round2 PyFloat.zero = PyFloat.zero.
Proof. reflexivity. Qed.

(** The outcome of [find_peak_sales_day]: the sentinel when no date has a
    revenue greater than zero, the first date of greatest revenue
    otherwise. *)
Lemma peak_cases (transactions : list Transaction) :
  amounts_defined transactions ->
  ((forall e, In e (day_table transactions) ->
      PyFloat.lt PyFloat.zero (revenue (snd e)) = false)
   /\ find_peak_sales_day transactions = Ok sentinel)
  \/ (exists i d s,
        first_greatest (day_table transactions) i d s
        /\ PyFloat.lt PyFloat.zero (revenue s) = true
        /\ find_peak_sales_day transactions
           = Ok (Some d, PyFloat.round2 (revenue s), day_transaction_count s)).
Proof.
  intros Hd. unfold find_peak_sales_day.
  rewrite (daily_totals_spec _ Hd). simpl.
  pose proof (peak_loop_found (day_table transactions)) as Hf.
  destruct (fold_left peak_step (day_table transactions) peak_init) as [[pd pr] pc].
  destruct Hf as [Hmax [[= -> -> ->] | (i & d & s & Hi & [= -> -> ->] & Hz & Hbefore)]].
  - left. split; [exact Hmax|]. now rewrite round2_zero.
  - right. exists i, d, s. repeat split; try assumption.
    intros j e Hj He. apply FloatOrder.le_false_cases; [|now apply (Hbefore j e)].
    now apply FloatOrder.lt_notnan in Hz.
Qed.

Lemma positive_amounts_defined (l : list Transaction) :
  positive_amounts l -> amounts_defined l.
Proof.
  unfold positive_amounts, amounts_defined. apply List.Forall_impl.
  intros t (a & -> & _). reflexivity.
Qed.

Lemma positive_amounts_of (l : list Transaction) :
  positive_amounts l ->
  Forall (fun a => PyFloat.lt PyFloat.zero a = true) (map amount_of l).
Proof.
  induction 1 as [|t l (a & Ha & Hlt) Hl IH]; simpl; constructor; [|exact IH].
  unfold amount_of. now rewrite Ha.
Qed.

Lemma positive_amounts_group (key : Transaction -> string) (k : string)
    (l : list Transaction) :
  positive_amounts l -> positive_amounts (in_group key k l).
Proof.
  unfold positive_amounts, in_group. induction 1 as [|t l Ht Hl IH]; [constructor|].
  rewrite filter_bool_cons. destruct (String.eqb (key t) k); [constructor|]; assumption.
Qed.

Lemma in_group_present (key : Transaction -> string) (k : string)
    (l : list Transaction) :
  k ∈ map key l -> in_group key k l <> [].
Proof.
  unfold in_group. induction l as [|t l IH]; [now intros ?%elem_of_nil|].
  simpl map. rewrite filter_bool_cons, elem_of_cons.
  destruct (String.eqb_spec (key t) k) as [_|Hne]; [discriminate|].
  intros [E|Hin]; [congruence|now apply IH].
Qed.

(** With amounts greater than zero, every date has a revenue greater than
    zero. *)
Lemma day_revenue_positive (transactions : list Transaction) :
  positive_amounts transactions ->
  forall e, In e (day_table transactions) ->
    PyFloat.lt PyFloat.zero (revenue (snd e)) = true.
Proof.
  intros Hp e He. unfold day_table in He.
  apply in_map_iff in He as (d & <- & Hd). simpl. unfold group_sum.
  apply (proj2 (list_elem_of_In _ _)) in Hd.
  apply (proj1 (elem_of_first_seen _ _)) in Hd.
  apply FloatSum.float_sum_pos.
  - intros E. apply map_eq_nil in E. now apply (in_group_present Date d transactions).
  - now apply positive_amounts_of, positive_amounts_group.
Qed.

(** C7 (amended). When the amounts are defined, [find_peak_sales_day]
    returns the date, the revenue rounded to two decimals and the number
    of transactions of the first date, in first-seen order, whose revenue
    no other date exceeds, provided that revenue is greater than zero;
    when no date has a revenue greater than zero, which is the case of
    the empty list, it returns the sentinel [(None, 0.0, 0)]. When every
    amount is greater than zero, the result is the one the specification
    states. *)
Theorem peak_day_or_sentinel (transactions : list Transaction) :
  amounts_defined transactions ->
  (((forall e, In e (day_table transactions) ->
       PyFloat.lt PyFloat.zero (revenue (snd e)) = false)
    /\ find_peak_sales_day transactions = Ok sentinel)
   \/ (exists i d s,
         first_greatest (day_table transactions) i d s
         /\ PyFloat.lt PyFloat.zero (revenue s) = true
         /\ find_peak_sales_day transactions
            = Ok (Some d, PyFloat.round2 (revenue s), day_transaction_count s)))
  /\ (transactions = [] -> find_peak_sales_day transactions = Ok sentinel)
  /\ (positive_amounts transactions -> peak_as_stated transactions).
Proof.
  intros Hd. split; [now apply peak_cases|]. split; [now intros ->|].
  intros Hp. unfold peak_as_stated.
  destruct transactions as [|t l] eqn:E; [reflexivity|]. rewrite <- E in *.
  destruct (peak_cases transactions Hd) as [[Hnone _]|(i & d & s & Hg & _ & Hr)].
  - exfalso.
    assert (Hin : In (day_entry transactions (Date t)) (day_table transactions)).
    { unfold day_table. apply in_map. rewrite E. simpl. now left. }
    pose proof (day_revenue_positive _ Hp _ Hin) as Hpos.
    rewrite (Hnone _ Hin) in Hpos. discriminate.
  - exists i, d, s. split; assumption.
Qed.

(** The empty list has no date: the sentinel. *)
Lemma peak_of_nothing : find_peak_sales_day [] = Ok sentinel.
Proof. reflexivity. Qed.

End PeakProperties.

(** * The total revenue and the product rankings *)

(** ** Loops over the amounts *)

(** A loop whose turn computes the amount first, and raises only when
    the amount does, raises [OverflowError] as soon as an amount is not
    defined. *)
Lemma amount_loop_raises {S : Type} (f : S -> Transaction -> result S)
    (l : list Transaction) (s : S) :
  (forall s t, f s t = let* a := amount t in f s t) ->
  (forall s t, is_ok (amount t) = true -> is_ok (f s t) = true) ->
  ~ amounts_defined l -> foldM f l s = Raise OverflowError.
Proof.
  intros Hf Hok. revert s. induction l as [|t l IH]; intros s Hn.
  - destruct Hn. constructor.
  - simpl. destruct (amount t) as [a|e] eqn:Ha.
    + specialize (Hok s t). rewrite Ha in Hok. specialize (Hok eq_refl).
      destruct (f s t) as [s'|]; [|discriminate]. simpl.
      apply IH. intros Hl. apply Hn. constructor; [|exact Hl]. now rewrite Ha.
    + rewrite Hf, Ha. simpl. f_equal. now apply (amount_raises t).
Qed.

(** ** [calculate_total_revenue] *)

Lemma revenue_loop (l : list Transaction) (acc : float) :
  amounts_defined l ->
  foldM revenue_step l acc = Ok (fold_left PrimFloat.add (map amount_of l) acc).
Proof.
  intros Hd. revert acc. induction Hd as [|t l Ht Hl IH]; intros acc; [reflexivity|].
  simpl. unfold revenue_step at 1. rewrite (amount_defined t Ht). simpl. apply IH.
Qed.

Lemma revenue_loop_raises (l : list Transaction) (acc : float) :
  ~ amounts_defined l -> foldM revenue_step l acc = Raise OverflowError.
Proof.
  apply amount_loop_raises.
  - intros s t. unfold revenue_step. now destruct (amount t).
  - intros s t. unfold revenue_step. now destruct (amount t).
Qed.

(** X10. [calculate_total_revenue] returns the sum of the amounts, added from
    [0.0] in the order of the list and rounded to two decimals, when every
    amount is defined; the [OverflowError] of an amount that is not leaves
    the function. The total of no transaction is [0.0], and the total of
    amounts that are not negative is not negative. *)
Theorem total_revenue_is_rounded_sum (transactions : list Transaction) :
  (amounts_defined transactions ->
     calculate_total_revenue transactions
     = Ok (PyFloat.round2 (grand_total transactions)))
  /\ (~ amounts_defined transactions ->
        calculate_total_revenue transactions = Raise OverflowError)
  /\ calculate_total_revenue [] = Ok PyFloat.zero
  /\ (nonneg_amounts transactions ->
        exists r, calculate_total_revenue transactions = Ok r
                  /\ PyFloat.le PyFloat.zero r = true).
Proof.
  assert (H1 : amounts_defined transactions ->
               calculate_total_revenue transactions
               = Ok (PyFloat.round2 (grand_total transactions))).
  { intros Hd. unfold calculate_total_revenue. now rewrite (revenue_loop _ _ Hd). }
  split; [exact H1|]. split; [|split].
  - intros Hn. unfold calculate_total_revenue. now rewrite (revenue_loop_raises _ _ Hn).
  - reflexivity.
  - intros Hn. eexists. split; [apply H1; now apply nonneg_amounts_defined|].
    now apply FloatRound.round2_nonneg, grand_total_nonneg.
Qed.

(** ** The table of the products *)

Lemma product_value (g : list Transaction) (v : ProductAcc) :
  fold_left (fun v t => product_add (Quantity t) (amount_of t) v) g v
  = {| total_quantity := fold_left Z.add (map Quantity g) (total_quantity v);
       total_revenue := fold_left PrimFloat.add (map amount_of g) (total_revenue v) |}.
Proof.
  revert v. induction g as [|t g IH]; intros v; [now destruct v|].
  simpl. now rewrite IH.
Qed.

Lemma product_loop (transactions : list Transaction) :
  amounts_defined transactions ->
  foldM product_step transactions [] = Ok (product_stats_table transactions).
Proof.
  intros Hd.
  change product_step
    with (group_step_with ProductName product_init
            (fun t a => product_add (Quantity t) a)).
  rewrite (group_loop_with _ _ _ _ Hd). f_equal.
  unfold group_table_with, product_stats_table. apply map_ext. intros p.
  unfold product_stats_entry, group_value_with. now rewrite product_value.
Qed.

Lemma product_loop_raises (transactions : list Transaction) :
  ~ amounts_defined transactions ->
  foldM product_step transactions [] = Raise OverflowError.
Proof.
  apply amount_loop_raises.
  - intros s t. unfold product_step. now destruct (amount t).
  - intros s t. unfold product_step. now destruct (amount t).
Qed.

Lemma product_row_names (transactions : list Transaction) :
  map (fun r : ProductRow => fst (fst r)) (product_rows transactions)
  = first_seen (map ProductName transactions).
Proof.
  unfold product_rows, product_stats_table. rewrite !map_map. apply map_id.
Qed.

Lemma product_row_quantities (transactions : list Transaction) :
  map row_quantity (product_rows transactions)
  = map (fun p => group_quantity ProductName p transactions)
        (first_seen (map ProductName transactions)).
Proof.
  unfold product_rows, product_stats_table. rewrite !map_map. reflexivity.
Qed.

Lemma length_product_rows (transactions : list Transaction) :
  len (product_rows transactions) = number_of ProductName transactions.
Proof.
  unfold len, number_of, product_rows, product_stats_table, len.
  now rewrite !length_map.
Qed.

Lemma length_ranked (reverse : bool) (transactions : list Transaction) :
  len (py_sorted_by Z.ltb row_quantity reverse (product_rows transactions))
  = number_of ProductName transactions.
Proof.
  rewrite <- length_product_rows. unfold len. f_equal.
  apply Permutation_length, py_sorted_by_perm.
Qed.

(** ** Slices *)

Lemma length_slice_to {A : Type} (n : Z) (l : list A) :
  len (slice_to n l)
  = if (0 <=? n)%Z then Z.min n (len l) else Z.max 0 (len l + n).
Proof.
  unfold slice_to, len. destruct (Z.leb_spec 0 n); rewrite length_take; lia.
Qed.

Lemma slice_to_all {A : Type} (n : Z) (l : list A) :
  (len l <= n)%Z -> slice_to n l = l.
Proof.
  unfold slice_to, len. intros Hn.
  destruct (Z.leb_spec 0 n); [|lia]. apply take_ge. lia.
Qed.

(** ** [top_selling_products] *)

Lemma descends_quantity (x y : ProductRow) :
  descends_by Z.ltb row_quantity x y -> quantity_descends x y.
Proof. unfold descends_by, quantity_descends. intros H. now apply Z.ltb_ge in H. Qed.

Lemma ascends_quantity (x y : ProductRow) :
  ascends_by Z.ltb row_quantity x y -> quantity_ascends x y.
Proof. unfold ascends_by, quantity_ascends. intros H. now apply Z.ltb_ge in H. Qed.

Lemma has_quantity_not_lt (q : Z) (x y : ProductRow) :
  has_quantity q x = true -> has_quantity q y = true ->
  Z.ltb (row_quantity y) (row_quantity x) = false.
Proof.
  unfold has_quantity. intros Hx Hy. apply Z.eqb_eq in Hx, Hy. apply Z.ltb_ge. lia.
Qed.

Lemma top_selling_spec (transactions : list Transaction) (n : Z) :
  amounts_defined transactions ->
  top_selling_products transactions n
  = Ok (slice_to n (py_sorted_by Z.ltb row_quantity true (product_rows transactions))).
Proof.
  intros Hd. unfold top_selling_products. now rewrite (product_loop _ Hd).
Qed.

Lemma top_selling_raises (transactions : list Transaction) (n : Z) :
  ~ amounts_defined transactions ->
  top_selling_products transactions n = Raise OverflowError.
Proof.
  intros Hn. unfold top_selling_products. now rewrite (product_loop_raises _ Hn).
Qed.

(** X11. When the amounts are defined, [top_selling_products]
    returns the first [n] rows of a ranking of the products: one row per
    product name, with the quantities of its transactions added and their
    amounts added and rounded to two decimals, in descending order of the
    total quantity, the products of equal quantity in first-seen order. *)
Theorem top_selling_is_ranking_prefix (transactions : list Transaction) (n : Z) :
  amounts_defined transactions ->
  exists ranked,
    top_selling_products transactions n = Ok (slice_to n ranked)
    /\ Permutation ranked (product_rows transactions)
    /\ StronglySorted quantity_descends ranked
    /\ (forall q, filter (fun r => has_quantity q r) ranked
                  = filter (fun r => has_quantity q r) (product_rows transactions))
    /\ NoDup (map (fun r : ProductRow => fst (fst r)) ranked).
Proof.
  intros Hd.
  exists (py_sorted_by Z.ltb row_quantity true (product_rows transactions)).
  split; [|split; [|split; [|split]]].
  - now apply top_selling_spec.
  - apply py_sorted_by_perm.
  - eapply sorted_weaken; [apply descends_quantity|].
    apply py_sorted_by_descending, orders_Z.
  - intros q. apply py_sorted_by_stable. apply has_quantity_not_lt.
  - assert (Hp : Permutation
                   (map (fun r : ProductRow => fst (fst r))
                      (py_sorted_by Z.ltb row_quantity true (product_rows transactions)))
                   (map (fun r : ProductRow => fst (fst r)) (product_rows transactions)))
      by apply Permutation_map, py_sorted_by_perm.
    rewrite Hp, product_row_names. apply NoDup_first_seen.
Qed.

(** X12. The number of rows [top_selling_products] returns: [n]
    of them when there are as many products, all of them otherwise; none
    for [n = 0]; and for a negative [n], as a slice has it, all but the
    last [-n]. *)
Theorem top_selling_row_count (transactions : list Transaction) (n : Z)
    (rows : list ProductRow) :
  top_selling_products transactions n = Ok rows ->
  len rows
  = if (0 <=? n)%Z then Z.min n (number_of ProductName transactions)
    else Z.max 0 (number_of ProductName transactions + n).
Proof.
  intros Hr. destruct (amounts_defined_dec transactions) as [Hd|Hn].
  - rewrite (top_selling_spec _ _ Hd) in Hr. apply ok_inj in Hr; subst rows.
    now rewrite length_slice_to, length_ranked.
  - rewrite (top_selling_raises _ _ Hn) in Hr. discriminate.
Qed.

(** X13. When [n] is the number of products or more, the
    quantities of the rows add up to the quantities of the transactions:
    every transaction is counted in the row of one product. *)
Theorem top_selling_conserves_quantity (transactions : list Transaction) (n : Z)
    (rows : list ProductRow) :
  top_selling_products transactions n = Ok rows ->
  (number_of ProductName transactions <= n)%Z ->
  int_sum (map row_quantity rows) = int_sum (map Quantity transactions).
Proof.
  intros Hr Hn. destruct (amounts_defined_dec transactions) as [Hd|Hnd].
  - rewrite (top_selling_spec _ _ Hd) in Hr. apply ok_inj in Hr; subst rows.
    rewrite slice_to_all.
    + rewrite (int_sum_perm _ (map row_quantity (product_rows transactions)))
        by (apply Permutation_map, py_sorted_by_perm).
      rewrite product_row_quantities. apply sum_of_groups.
    + now rewrite length_ranked.
  - rewrite (top_selling_raises _ _ Hnd) in Hr. discriminate.
Qed.

(** ** [low_performing_products] *)

Lemma map_filter_row (threshold : Z) (l : list (string * ProductAcc)) :
  map product_row
    (filter (fun e => (total_quantity (snd e) <? threshold)%Z) l)
  = filter (fun r => below threshold r) (map product_row l).
Proof.
  induction l as [|e l IH]; [reflexivity|].
  cbn [map]. rewrite !filter_bool_cons.
  change (below threshold (product_row e))
    with (total_quantity (snd e) <? threshold)%Z.
  destruct (total_quantity (snd e) <? threshold)%Z; cbn [map]; now rewrite IH.
Qed.

Lemma low_performing_spec (transactions : list Transaction) (threshold : Z) :
  amounts_defined transactions ->
  low_performing_products transactions threshold
  = Ok (py_sorted_by Z.ltb row_quantity false
          (filter (fun r => below threshold r) (product_rows transactions))).
Proof.
  intros Hd. unfold low_performing_products. rewrite (product_loop _ Hd).
  cbn [bind]. now rewrite map_filter_row.
Qed.

Lemma low_performing_raises (transactions : list Transaction) (threshold : Z) :
  ~ amounts_defined transactions ->
  low_performing_products transactions threshold = Raise OverflowError.
Proof.
  intros Hn. unfold low_performing_products. now rewrite (product_loop_raises _ Hn).
Qed.

(** X14. When the amounts are defined,
    [low_performing_products] returns the rows of the products whose total
    quantity is below the threshold, and only those, in ascending order
    of the total quantity, the products of equal quantity in first-seen
    order. *)
Theorem low_performing_is_selection (transactions : list Transaction)
    (threshold : Z) :
  amounts_defined transactions ->
  exists rows,
    low_performing_products transactions threshold = Ok rows
    /\ Permutation rows
         (filter (fun r => below threshold r) (product_rows transactions))
    /\ StronglySorted quantity_ascends rows
    /\ (forall q, filter (fun r => has_quantity q r) rows
                  = filter (fun r => has_quantity q r)
                      (filter (fun r => below threshold r)
                         (product_rows transactions))).
Proof.
  intros Hd.
  exists (py_sorted_by Z.ltb row_quantity false
            (filter (fun r => below threshold r) (product_rows transactions))).
  split; [|split; [|split]].
  - now apply low_performing_spec.
  - apply py_sorted_by_perm.
  - eapply sorted_weaken; [apply ascends_quantity|].
    apply py_sorted_by_ascending, orders_Z.
  - intros q. apply py_sorted_by_stable. apply has_quantity_not_lt.
Qed.

(** X30. The rows of [low_performing_products] are the rows of the
    full ranking of [top_selling_products] whose quantity is below the
    threshold. *)
Theorem low_performing_within_ranking (transactions : list Transaction)
    (threshold n : Z) (low top : list ProductRow) :
  low_performing_products transactions threshold = Ok low ->
  top_selling_products transactions n = Ok top ->
  (number_of ProductName transactions <= n)%Z ->
  Permutation low (filter (fun r => below threshold r) top).
Proof.
  intros Hlow Htop Hn. destruct (amounts_defined_dec transactions) as [Hd|Hnd].
  - rewrite (low_performing_spec _ _ Hd) in Hlow.
    rewrite (top_selling_spec _ _ Hd) in Htop.
    apply ok_inj in Hlow, Htop; subst low top.
    rewrite slice_to_all by (now rewrite length_ranked).
    now rewrite !py_sorted_by_perm.
  - rewrite (low_performing_raises _ _ Hnd) in Hlow. discriminate.
Qed.

(** * The customer analysis *)

(** ** [sorted] of a set of strings *)

Lemma in_insert_distinct (z x : string) (l : list string) :
  In z (insert_distinct x l) <-> z = x \/ In z l.
Proof.
  induction l as [|y l IH]; simpl; [intuition congruence|].
  destruct (String.eqb_spec x y) as [->|Hne]; [simpl; intuition congruence|].
  destruct (String.ltb x y); simpl; [intuition congruence|].
  rewrite IH. intuition congruence.
Qed.

Lemma in_sorted_set (z : string) (l : list string) : In z (sorted_set l) <-> In z l.
Proof.
  induction l as [|x l IH]; simpl; [reflexivity|].
  rewrite in_insert_distinct, IH. intuition congruence.
Qed.

Lemma insert_distinct_ascending (x : string) (l : list string) :
  strictly_ascending l -> strictly_ascending (insert_distinct x l).
Proof.
  unfold strictly_ascending. induction 1 as [|y l Hs IH Hy]; simpl.
  - repeat constructor.
  - destruct (String.eqb_spec x y) as [->|Hne]; [now constructor|].
    destruct (String.ltb x y) eqn:Hlt.
    + constructor; [now constructor|]. constructor; [exact Hlt|].
      eapply Forall_impl; [exact Hy|]. intros z Hz.
      now apply (string_ltb_trans x y z).
    + constructor; [exact IH|].
      apply List.Forall_forall. intros z Hz.
      apply in_insert_distinct in Hz as [->|Hz].
      * apply string_ltb_ge in Hlt as [E|Hlt]; [congruence|exact Hlt].
      * now apply (proj1 (List.Forall_forall _ _) Hy).
Qed.

Lemma sorted_set_ascending (l : list string) : strictly_ascending (sorted_set l).
Proof.
  induction l as [|x l IH]; simpl; [constructor|].
  now apply insert_distinct_ascending.
Qed.

(** A set of strings has one list in strictly ascending order. *)
Lemma strictly_ascending_unique (l1 l2 : list string) :
  strictly_ascending l1 -> strictly_ascending l2 ->
  (forall z, In z l1 <-> In z l2) -> l1 = l2.
Proof.
  unfold strictly_ascending. intros H1. revert l2.
  induction H1 as [|x l1 Hs1 IH Hx]; intros l2 H2 Hm.
  - destruct l2 as [|y l2]; [reflexivity|].
    destruct (proj2 (Hm y)). now left.
  - destruct H2 as [|y l2 Hs2 Hy]; [destruct (proj1 (Hm x)); now left|].
    pose proof (proj1 (List.Forall_forall _ _) Hx) as Hx'.
    pose proof (proj1 (List.Forall_forall _ _) Hy) as Hy'.
    assert (E : x = y).
    { destruct (proj1 (Hm x) (or_introl eq_refl)) as [E|Hin]; [congruence|].
      destruct (proj2 (Hm y) (or_introl eq_refl)) as [E|Hin']; [congruence|].
      pose proof (string_ltb_trans _ _ _ (Hy' _ Hin) (Hx' _ Hin')) as Hyy.
      rewrite string_ltb_irrefl in Hyy. discriminate. }
    subst y. f_equal. apply IH; [exact Hs2|].
    intros z. split; intros Hz.
    + destruct (proj1 (Hm z) (or_intror Hz)) as [E|Hin]; [|exact Hin].
      subst z. pose proof (Hx' _ Hz) as Hxx. cbv beta in Hxx.
      rewrite string_ltb_irrefl in Hxx. discriminate.
    + destruct (proj2 (Hm z) (or_intror Hz)) as [E|Hin]; [|exact Hin].
      subst z. pose proof (Hy' _ Hz) as Hxx. cbv beta in Hxx.
      rewrite string_ltb_irrefl in Hxx. discriminate.
Qed.

Lemma sorted_strings_of_list (l : list string) :
  sorted_strings (list_to_set l) = sorted_set l.
Proof.
  unfold sorted_strings.
  apply strictly_ascending_unique; try apply sorted_set_ascending.
  intros z. rewrite !in_sorted_set, <- !list_elem_of_In, elem_of_elements.
  apply elem_of_list_to_set.
Qed.

(** ** The table of the customers *)

Lemma customer_value (g : list Transaction) (v : CustomerAcc) :
  fold_left (fun v t => customer_add (ProductName t) (amount_of t) v) g v
  = {| acc_total_spent := fold_left PrimFloat.add (map amount_of g) (acc_total_spent v);
       acc_purchase_count := acc_purchase_count v + len g;
       acc_products_bought :=
         acc_products_bought v ∪ list_to_set (map ProductName g) |}.
Proof.
  revert v. induction g as [|t g IH]; intros v.
  - destruct v as [s c p]. unfold len. simpl. f_equal; [lia|].
    now rewrite union_empty_r_L.
  - cbn [fold_left]. rewrite IH. unfold len. cbn [map length list_to_set].
    simpl acc_total_spent. simpl acc_purchase_count. simpl acc_products_bought.
    f_equal; [lia|]. now rewrite (assoc_L (∪)).
Qed.

Lemma customer_loop (transactions : list Transaction) :
  amounts_defined transactions ->
  foldM customer_step transactions []
  = Ok (map (customer_acc_entry transactions)
          (first_seen (map CustomerID transactions))).
Proof.
  intros Hd.
  change customer_step
    with (group_step_with CustomerID customer_init
            (fun t a => customer_add (ProductName t) a)).
  rewrite (group_loop_with _ _ _ _ Hd). f_equal.
  unfold group_table_with. apply map_ext. intros c.
  unfold customer_acc_entry, group_value_with. rewrite customer_value.
  unfold group_sum, float_sum, group_size. simpl.
  f_equal. f_equal. apply union_empty_l_L.
Qed.

Lemma customer_loop_raises (transactions : list Transaction) :
  ~ amounts_defined transactions ->
  foldM customer_step transactions [] = Raise OverflowError.
Proof.
  apply amount_loop_raises.
  - intros s t. unfold customer_step. now destruct (amount t).
  - intros s t. unfold customer_step. now destruct (amount t).
Qed.

(** ** The average *)

Lemma at_least_one_not_zero (f : float) :
  sf_at_least_one (Prim2SF f) -> PyFloat.eq f PyFloat.zero = false.
Proof.
  intros (m & e & Hf & _). unfold PyFloat.eq.
  rewrite FloatAxioms.eqb_spec, Hf. reflexivity.
Qed.

(** The division by a positive count raises nothing but the
    [OverflowError] of a count beyond the floats: the divisor is never
    zero. *)
Lemma truediv_int_positive (x : float) (n : Z) :
  (0 < n)%Z ->
  truediv_int x n = Ok (PrimFloat.div x (float_of n))
  \/ truediv_int x n = Raise OverflowError.
Proof.
  intros Hn. unfold truediv_int, float_of.
  destruct (PyFloat.float_of_int n) as [f|e] eqn:Hf; simpl.
  - left. unfold PyFloat.truediv.
    now rewrite (at_least_one_not_zero f (FloatRound.float_of_int_pos n f Hn Hf)).
  - right. f_equal. now apply (FloatRound.float_of_int_raises n).
Qed.

Lemma truediv_int_small (x : float) (n : Z) :
  (0 < n < 2 ^ 1023)%Z ->
  truediv_int x n = Ok (PrimFloat.div x (float_of n)).
Proof.
  intros [Hn Hhi]. destruct (truediv_int_positive x n Hn) as [H|H]; [exact H|].
  destruct (FloatRound.float_of_int_small n ltac:(lia)) as [f Hf].
  unfold truediv_int in H. rewrite Hf in H. simpl in H.
  unfold PyFloat.truediv in H.
  rewrite (at_least_one_not_zero f (FloatRound.float_of_int_pos n f Hn Hf)) in H.
  discriminate.
Qed.

Lemma customer_finish_cases (transactions : list Transaction) (c : string) :
  c ∈ first_seen (map CustomerID transactions) ->
  customer_finish (customer_acc_entry transactions c)
  = Ok (customer_entry transactions c)
  \/ customer_finish (customer_acc_entry transactions c) = Raise OverflowError.
Proof.
  intros Hc. destruct (group_size_pos CustomerID c transactions Hc) as [Hlo _].
  unfold customer_finish, customer_acc_entry, customer_entry.
  cbn [acc_purchase_count acc_total_spent acc_products_bought].
  assert (Hpos : (0 <? group_size CustomerID c transactions)%Z = true)
    by (apply Z.ltb_lt; lia).
  rewrite Hpos, sorted_strings_of_list.
  destruct (truediv_int_positive (group_sum CustomerID c transactions)
              (group_size CustomerID c transactions) ltac:(lia)) as [-> | ->];
    [left|right]; reflexivity.
Qed.

Lemma customer_finish_small (transactions : list Transaction) (c : string) :
  (len transactions < 2 ^ 1023)%Z ->
  c ∈ first_seen (map CustomerID transactions) ->
  customer_finish (customer_acc_entry transactions c)
  = Ok (customer_entry transactions c).
Proof.
  intros Hlen Hc. destruct (group_size_pos CustomerID c transactions Hc) as [Hlo Hhi].
  unfold customer_finish, customer_acc_entry, customer_entry.
  cbn [acc_purchase_count acc_total_spent acc_products_bought].
  assert (Hpos : (0 <? group_size CustomerID c transactions)%Z = true)
    by (apply Z.ltb_lt; lia).
  rewrite Hpos, sorted_strings_of_list, truediv_int_small by lia. reflexivity.
Qed.

Lemma mapM_r_cases {A B : Type} (f : A -> result B) (g : A -> B) (l : list A) :
  Forall (fun x => f x = Ok (g x) \/ f x = Raise OverflowError) l ->
  mapM_r f l = Ok (map g l) \/ mapM_r f l = Raise OverflowError.
Proof.
  induction 1 as [|x l [Hx|Hx] Hl [IH|IH]]; simpl; rewrite ?Hx, ?IH; simpl; auto.
Qed.

Lemma mapM_r_all {A B : Type} (f : A -> result B) (g : A -> B) (l : list A) :
  Forall (fun x => f x = Ok (g x)) l -> mapM_r f l = Ok (map g l).
Proof. induction 1 as [|x l Hx Hl IH]; simpl; rewrite ?Hx, ?IH; reflexivity. Qed.

Section CustomerProperties.
Context {sorter : ListSort}.

(** What [customer_analysis] comes to: the table of the customers,
    sorted, or the [OverflowError] of an amount or of a count. *)
Lemma customer_analysis_cases (transactions : list Transaction) :
  customer_analysis transactions
  = Ok (py_sorted customer_key true (customer_table transactions))
  \/ customer_analysis transactions = Raise OverflowError.
Proof.
  unfold customer_analysis.
  destruct (amounts_defined_dec transactions) as [Hd|Hn].
  - rewrite (customer_loop _ Hd). cbn [bind].
    destruct (mapM_r_cases customer_finish
                (fun e : string * CustomerAcc => customer_entry transactions (fst e))
                (map (customer_acc_entry transactions)
                   (first_seen (map CustomerID transactions)))) as [H|H].
    + apply Forall_map_keys. intros c Hc. now apply customer_finish_cases.
    + left. rewrite H. cbn [bind]. rewrite map_map. reflexivity.
    + right. now rewrite H.
  - right. now rewrite (customer_loop_raises _ Hn).
Qed.

Lemma customer_analysis_spec (transactions : list Transaction) :
  amounts_defined transactions -> (len transactions < 2 ^ 1023)%Z ->
  customer_analysis transactions
  = Ok (py_sorted customer_key true (customer_table transactions)).
Proof.
  intros Hd Hlen. unfold customer_analysis. rewrite (customer_loop _ Hd). cbn [bind].
  rewrite (mapM_r_all customer_finish
             (fun e : string * CustomerAcc => customer_entry transactions (fst e))).
  - cbn [bind]. rewrite map_map. reflexivity.
  - apply Forall_map_keys. intros c Hc. now apply customer_finish_small.
Qed.

(** ** The order of the customers *)

Lemma customer_table_comparable (transactions : list Transaction) :
  nonneg_amounts transactions ->
  comparable customer_key (customer_table transactions).
Proof.
  intros Hn. unfold comparable, customer_table. apply Forall_map_keys.
  intros c _. now apply rounded_group_sum_notnan.
Qed.

(** X15. When the amounts are defined (and the list is not so
    long that a count has no float), [customer_analysis] returns one entry
    per customer: the amounts of the customer added and rounded, the
    number of the purchases, the average (the total not yet rounded,
    divided by the count, then rounded) and the products bought in
    ascending order without repetition. When no rounded total is a NaN,
    as is the case when no amount is negative, the entries are in
    descending order of the rounded total, and the customers of equal
    total stand in first-seen order. *)
Theorem customer_analysis_is_sorted_table (transactions : list Transaction) :
  amounts_defined transactions -> (len transactions < 2 ^ 1023)%Z ->
  exists res,
    customer_analysis transactions = Ok res
    /\ Permutation res (customer_table transactions)
    /\ (comparable customer_key (customer_table transactions) ->
        StronglySorted (descends customer_key) res
        /\ forall k, filter (fun e => same_key customer_key k e) res
                     = filter (fun e => same_key customer_key k e)
                         (customer_table transactions))
    /\ (nonneg_amounts transactions ->
        comparable customer_key (customer_table transactions)).
Proof.
  intros Hd Hlen. eexists. split; [now apply customer_analysis_spec|].
  split; [apply py_sorted_perm|]. split.
  - intros Hc. split; [now apply py_sorted_descending|].
    intros k. now apply py_sorted_stable.
  - apply customer_table_comparable.
Qed.

(** X17. [customer_analysis] never raises [ZeroDivisionError]
    (nor [ValueError]): every customer of the table has one purchase at
    least, and the float of a positive count is not zero. *)
Theorem customer_average_never_divides_by_zero (transactions : list Transaction) :
  customer_analysis transactions <> Raise ZeroDivisionError
  /\ customer_analysis transactions <> Raise ValueError.
Proof.
  destruct (customer_analysis_cases transactions) as [-> | ->];
    split; discriminate.
Qed.

Lemma customer_entry_facts (transactions : list Transaction) (c : string) :
  c ∈ first_seen (map CustomerID transactions) ->
  let s := snd (customer_entry transactions c) in
  (1 <= purchase_count s)%Z
  /\ strictly_ascending (products_bought s)
  /\ (forall p, In p (products_bought s)
                <-> exists t, In t transactions
                              /\ CustomerID t = c /\ ProductName t = p).
Proof.
  intros Hc. simpl. split; [|split].
  - now apply group_size_pos.
  - apply sorted_set_ascending.
  - intros p. rewrite in_sorted_set, in_map_iff. unfold in_group.
    split.
    + intros (t & Hp & Ht). exists t.
      apply (proj2 (list_elem_of_In _ _)) in Ht.
      apply list_elem_of_filter in Ht as [Hk Ht].
      apply Is_true_true, String.eqb_eq in Hk.
      split; [now apply list_elem_of_In|]. now split.
    + intros (t & Ht & Hk & Hp). exists t. split; [exact Hp|].
      apply list_elem_of_In, list_elem_of_filter. split.
      * apply Is_true_true, String.eqb_eq. exact Hk.
      * now apply list_elem_of_In.
Qed.

(** X16. Whenever [customer_analysis] returns, its entries
    are consistent with the transactions: the customers are distinct, each
    has one purchase at least, the purchase counts add up to the number of
    transactions, and the products bought by a customer are exactly the
    product names of the transactions of that customer, in strictly
    ascending order. *)
Theorem customer_entries_account_for_input (transactions : list Transaction)
    (res : list (string * CustomerStats)) :
  customer_analysis transactions = Ok res ->
  NoDup (map fst res)
  /\ int_sum (map (fun e => purchase_count (snd e)) res) = len transactions
  /\ Forall (fun e =>
       (1 <= purchase_count (snd e))%Z
       /\ strictly_ascending (products_bought (snd e))
       /\ (forall p, In p (products_bought (snd e))
                     <-> exists t, In t transactions
                                   /\ CustomerID t = fst e /\ ProductName t = p))
       res.
Proof.
  intros Hr. destruct (customer_analysis_cases transactions) as [H|H];
    rewrite H in Hr; [|discriminate].
  apply ok_inj in Hr. subst res.
  pose proof (py_sorted_perm customer_key true (customer_table transactions)) as Hp.
  split; [|split].
  - assert (Hp' : Permutation
                    (map fst (py_sorted customer_key true (customer_table transactions)))
                    (map fst (customer_table transactions)))
      by now apply Permutation_map.
    rewrite Hp'. unfold customer_table. rewrite map_map. simpl.
    rewrite map_id. apply NoDup_first_seen.
  - rewrite (int_sum_perm _ (map (fun e => purchase_count (snd e))
                               (customer_table transactions)))
      by now apply Permutation_map.
    unfold customer_table. rewrite map_map. simpl.
    apply sum_of_group_sizes.
  - rewrite Hp. unfold customer_table. apply Forall_map_keys.
    intros c Hc. exact (customer_entry_facts transactions c Hc).
Qed.

End CustomerProperties.

(** * More on the validator *)

Lemma mapM_amount_ok (l : list Transaction) (amounts : list float) :
  mapM_r amount l = Ok amounts -> amounts_defined l /\ amounts = map amount_of l.
Proof.
  revert amounts. induction l as [|t l IH]; intros amounts; simpl.
  - intros [= <-]. split; [constructor|reflexivity].
  - unfold amount_of. destruct (amount t) as [a|] eqn:Ha; simpl; [|discriminate].
    destruct (mapM_r amount l) as [rest|]; simpl; [|discriminate].
    intros [= <-]. destruct (IH rest eq_refl) as [Hd ->].
    split; [|reflexivity]. constructor; [now rewrite Ha|exact Hd].
Qed.

Lemma mapM_amount_spec (l : list Transaction) :
  amounts_defined l -> mapM_r amount l = Ok (map amount_of l).
Proof.
  induction 1 as [|t l Ht Hl IH]; [reflexivity|].
  simpl. rewrite (amount_defined t Ht), IH. reflexivity.
Qed.

Lemma display_spec (valid : list Transaction) :
  amounts_defined valid -> display valid = Ok (display_of valid).
Proof.
  intros Hd. unfold display, display_of. rewrite (mapM_amount_spec _ Hd).
  cbn [bind]. destruct (map amount_of valid); reflexivity.
Qed.

Lemma display_ok (valid : list Transaction) (shown : Display) :
  display valid = Ok shown -> amounts_defined valid.
Proof.
  unfold display. destruct (mapM_r amount valid) as [amounts|] eqn:E; [|discriminate].
  intros _. exact (proj1 (mapM_amount_ok _ _ E)).
Qed.

Lemma validate_and_filter_spec (transactions : list Transaction)
    (region : option string) (min_amount max_amount : option float) :
  amounts_defined (valid_set transactions) ->
  validate_and_filter transactions region min_amount max_amount
  = Ok (validated_of transactions region min_amount max_amount).
Proof.
  unfold validated_of, valid_set. intros Hd. unfold validate_and_filter.
  destruct (validate transactions) as [valid n] eqn:Hv. simpl in Hd |- *.
  rewrite (display_spec valid Hd). cbn [bind].
  rewrite filter_region_spec.
  rewrite (filter_amount_spec min_amount max_amount _
             (amounts_defined_kept region valid Hd)).
  reflexivity.
Qed.

Lemma validate_and_filter_ok (transactions : list Transaction)
    (region : option string) (min_amount max_amount : option float)
    (v : Validated) :
  validate_and_filter transactions region min_amount max_amount = Ok v ->
  amounts_defined (valid_set transactions)
  /\ v = validated_of transactions region min_amount max_amount.
Proof.
  intros Hv.
  assert (Hd : amounts_defined (valid_set transactions)).
  { unfold validate_and_filter, valid_set in *.
    destruct (validate transactions) as [valid n]. simpl.
    destruct (display valid) as [shown|] eqn:E; [|discriminate].
    exact (display_ok _ _ E). }
  split; [exact Hd|]. rewrite (validate_and_filter_spec _ _ _ _ Hd) in Hv.
  now apply ok_inj in Hv.
Qed.

Lemma len_filter_le {A : Type} (f : A -> bool) (l : list A) :
  (0 <= len (filter (fun x => f x) l) <= len l)%Z.
Proof. unfold len. pose proof (length_filter (fun x => f x) l). lia. Qed.

Lemma len_kept_le (region : option string) (l : list Transaction) :
  (len (kept_by_region region l) <= len l)%Z.
Proof.
  unfold kept_by_region. destruct region as [r|]; [|lia].
  destruct (truthy r); [|lia]. apply len_filter_le.
Qed.

(** X5. Whenever [validate_and_filter] returns, its summary
    accounts for every input transaction once: the input count is the sum
    of the invalid ones, of the ones removed by each filter and of the
    ones returned, and no count is negative. *)
Theorem summary_accounts_for_input (transactions : list Transaction)
    (region : option string) (min_amount max_amount : option float)
    (v : Validated) :
  validate_and_filter transactions region min_amount max_amount = Ok v ->
  total_input (summary v) = len transactions
  /\ total_input (summary v)
     = (invalid (summary v) + filtered_by_region (summary v)
        + filtered_by_amount (summary v) + final_count (summary v))%Z
  /\ (0 <= invalid (summary v))%Z
  /\ (0 <= filtered_by_region (summary v))%Z
  /\ (0 <= filtered_by_amount (summary v))%Z
  /\ final_count (summary v) = len (filtered_transactions v)
  /\ invalid_count v = invalid (summary v).
Proof.
  intros Hv. destruct (validate_and_filter_ok _ _ _ _ _ Hv) as [_ ->].
  unfold validated_of. cbn [summary total_input invalid filtered_by_region
    filtered_by_amount final_count filtered_transactions invalid_count].
  pose proof (validate_counts transactions) as Hc. unfold valid_set.
  pose proof (len_kept_le region (fst (validate transactions))) as Hk.
  pose proof (len_filter_le (amount_within min_amount max_amount)
                (kept_by_region region (fst (validate transactions)))) as Ha.
  assert (Hi : (0 <= snd (validate transactions))%Z).
  { rewrite validate_spec. simpl. unfold len. lia. }
  repeat split; lia.
Qed.

Lemma filter_all {A : Type} (f : A -> bool) (l : list A) :
  Forall (fun x => f x = true) l -> filter (fun x => f x) l = l.
Proof.
  induction 1 as [|x l Hx Hl IH]; [reflexivity|].
  now rewrite filter_bool_cons, Hx, IH.
Qed.

Lemma Forall_filter_bool {A : Type} (f : A -> bool) (l : list A) :
  Forall (fun x => f x = true) (filter (fun x => f x) l).
Proof.
  induction l as [|x l IH]; [constructor|].
  rewrite filter_bool_cons. destruct (f x) eqn:E; [now constructor|exact IH].
Qed.

Lemma Forall_filter_keep {A : Type} (P : A -> Prop) (f : A -> bool) (l : list A) :
  Forall P l -> Forall P (filter (fun x => f x) l).
Proof.
  induction 1 as [|x l Hx Hl IH]; [constructor|].
  rewrite filter_bool_cons. destruct (f x); [now constructor|exact IH].
Qed.

Lemma kept_in_region (region : option string) (l : list Transaction) :
  Forall (in_region region) (kept_by_region region l).
Proof.
  unfold kept_by_region, in_region. destruct region as [r|].
  - destruct (truthy r) eqn:Ht.
    + eapply Forall_impl; [apply Forall_filter_bool|]. auto.
    + apply List.Forall_forall. intros t _. discriminate.
  - apply List.Forall_forall. auto.
Qed.

Lemma kept_sublist (region : option string) (l : list Transaction) :
  sublist (kept_by_region region l) l.
Proof.
  unfold kept_by_region. destruct region as [r|]; [|reflexivity].
  destruct (truthy r); [|reflexivity]. apply sublist_filter.
Qed.

Lemma filtered_facts (transactions : list Transaction) (region : option string)
    (min_amount max_amount : option float) :
  let out := filtered_transactions
               (validated_of transactions region min_amount max_amount) in
  sublist out transactions
  /\ Forall (fun t => passes_checks t = true) out
  /\ Forall (in_region region) out
  /\ Forall (fun t => amount_within min_amount max_amount t = true) out.
Proof.
  unfold validated_of, valid_set. cbn [filtered_transactions].
  rewrite validate_spec. cbn [fst]. split; [|split; [|split]].
  - etransitivity; [apply sublist_filter|].
    etransitivity; [apply kept_sublist|]. apply sublist_filter.
  - apply Forall_filter_keep.
    assert (Hk : forall l, Forall (fun t => passes_checks t = true) l ->
                 Forall (fun t => passes_checks t = true) (kept_by_region region l)).
    { intros l Hl. unfold kept_by_region. destruct region as [r|]; [|exact Hl].
      destruct (truthy r); [|exact Hl]. now apply Forall_filter_keep. }
    apply Hk, Forall_filter_bool.
  - apply Forall_filter_keep, kept_in_region.
  - apply Forall_filter_bool.
Qed.

(** X6. What [validate_and_filter] returns is taken from its
    input, in the order of the input, without repetition or addition;
    every transaction returned passes the five checks, is in the region
    asked for (up to case) and has an amount within the bounds. *)
Theorem filtered_output_is_valid_sublist (transactions : list Transaction)
    (region : option string) (min_amount max_amount : option float)
    (v : Validated) :
  validate_and_filter transactions region min_amount max_amount = Ok v ->
  sublist (filtered_transactions v) transactions
  /\ Forall (fun t => passes_checks t = true) (filtered_transactions v)
  /\ Forall (in_region region) (filtered_transactions v)
  /\ Forall (fun t => amount_within min_amount max_amount t = true)
       (filtered_transactions v).
Proof.
  intros Hv. destruct (validate_and_filter_ok _ _ _ _ _ Hv) as [_ ->].
  apply filtered_facts.
Qed.

Lemma amount_within_defined (lo hi : option float) (l : list Transaction) :
  Forall (fun t => amount_within lo hi t = true) l -> amounts_defined l.
Proof.
  unfold amounts_defined. apply List.Forall_impl. intros t.
  unfold amount_within. destruct (amount t); [reflexivity|discriminate].
Qed.

Lemma kept_all (region : option string) (l : list Transaction) :
  Forall (in_region region) l -> kept_by_region region l = l.
Proof.
  unfold kept_by_region, in_region. destruct region as [r|]; [|reflexivity].
  destruct (truthy r); [|reflexivity]. intros Hl. apply filter_all.
  eapply Forall_impl; [exact Hl|]. auto.
Qed.

(** X7. Validating and filtering the result again, with the
    same region and bounds, returns the same transactions: none is
    invalid and none is removed. *)
Theorem revalidation_changes_nothing (transactions : list Transaction)
    (region : option string) (min_amount max_amount : option float)
    (v : Validated) :
  validate_and_filter transactions region min_amount max_amount = Ok v ->
  exists v',
    validate_and_filter (filtered_transactions v) region min_amount max_amount
    = Ok v'
    /\ filtered_transactions v' = filtered_transactions v
    /\ invalid_count v' = 0%Z
    /\ filtered_by_region (summary v') = 0%Z
    /\ filtered_by_amount (summary v') = 0%Z
    /\ final_count (summary v') = total_input (summary v').
Proof.
  intros Hv. destruct (validate_and_filter_ok _ _ _ _ _ Hv) as [_ ->].
  destruct (filtered_facts transactions region min_amount max_amount)
    as (_ & Hp & Hr & Ha).
  set (out := filtered_transactions
                (validated_of transactions region min_amount max_amount)) in *.
  assert (Hvalid : valid_set out = out)
    by (unfold valid_set; rewrite validate_spec; now apply filter_all).
  assert (Hinv : snd (validate out) = 0%Z).
  { pose proof (validate_counts out) as Hc. fold (valid_set out) in Hc.
    rewrite Hvalid in Hc. lia. }
  exists (validated_of out region min_amount max_amount). split.
  - apply validate_and_filter_spec. rewrite Hvalid.
    now apply (amount_within_defined min_amount max_amount).
  - unfold validated_of. cbn [summary total_input invalid filtered_by_region
      filtered_by_amount final_count filtered_transactions invalid_count].
    rewrite Hvalid, (kept_all region out Hr), (filter_all _ out Ha), Hinv.
    repeat split; lia.
Qed.

(** ** The display step *)

Lemma min_fold (r : list float) (m : float) :
  In (fold_left (fun m i => if PyFloat.lt i m then i else m) r m) (m :: r).
Proof.
  revert m. induction r as [|i r IH]; intros m; [now left|].
  cbn [fold_left]. destruct (IH (if PyFloat.lt i m then i else m)) as [E|Hin].
  - rewrite <- E. destruct (PyFloat.lt i m); [right; now left|now left].
  - right. now right.
Qed.

Lemma max_fold (r : list float) (m : float) :
  In (fold_left (fun m i => if PyFloat.lt m i then i else m) r m) (m :: r).
Proof.
  revert m. induction r as [|i r IH]; intros m; [now left|].
  cbn [fold_left]. destruct (IH (if PyFloat.lt m i then i else m)) as [E|Hin].
  - rewrite <- E. destruct (PyFloat.lt m i); [right; now left|now left].
  - right. now right.
Qed.

Lemma min_fold_least (r : list float) (m : float) :
  PyFloat.notnan m -> Forall PyFloat.notnan r ->
  Forall (fun a =>
            PyFloat.le (fold_left (fun m i => if PyFloat.lt i m then i else m) r m) a
            = true) (m :: r).
Proof.
  intros Hm Hr. revert m Hm. induction Hr as [|i r Hi Hr IH]; intros m Hm.
  - constructor; [now apply FloatOrder.le_refl|constructor].
  - cbn [fold_left].
    assert (Hn : PyFloat.notnan (if PyFloat.lt i m then i else m))
      by (destruct (PyFloat.lt i m); assumption).
    specialize (IH _ Hn). inversion IH as [|? ? Hhead Htail]; subst.
    assert (Hmi : PyFloat.le (if PyFloat.lt i m then i else m) m = true
                  /\ PyFloat.le (if PyFloat.lt i m then i else m) i = true).
    { destruct (PyFloat.lt i m) eqn:Hlt.
      - split; [now apply FloatOrder.lt_le|now apply FloatOrder.le_refl].
      - split; [now apply FloatOrder.le_refl|now apply FloatOrder.lt_false_le]. }
    destruct Hmi as [H1 H2].
    constructor; [exact (FloatOrder.le_trans _ _ _ Hhead H1)|].
    constructor; [exact (FloatOrder.le_trans _ _ _ Hhead H2)|exact Htail].
Qed.

Lemma max_fold_greatest (r : list float) (m : float) :
  PyFloat.notnan m -> Forall PyFloat.notnan r ->
  Forall (fun a =>
            PyFloat.le a (fold_left (fun m i => if PyFloat.lt m i then i else m) r m)
            = true) (m :: r).
Proof.
  intros Hm Hr. revert m Hm. induction Hr as [|i r Hi Hr IH]; intros m Hm.
  - constructor; [now apply FloatOrder.le_refl|constructor].
  - cbn [fold_left].
    assert (Hn : PyFloat.notnan (if PyFloat.lt m i then i else m))
      by (destruct (PyFloat.lt m i); assumption).
    specialize (IH _ Hn). inversion IH as [|? ? Hhead Htail]; subst.
    assert (Hmi : PyFloat.le m (if PyFloat.lt m i then i else m) = true
                  /\ PyFloat.le i (if PyFloat.lt m i then i else m) = true).
    { destruct (PyFloat.lt m i) eqn:Hlt.
      - split; [now apply FloatOrder.lt_le|now apply FloatOrder.le_refl].
      - split; [now apply FloatOrder.le_refl|now apply FloatOrder.lt_false_le]. }
    destruct Hmi as [H1 H2].
    constructor; [exact (FloatOrder.le_trans _ _ _ H1 Hhead)|].
    constructor; [exact (FloatOrder.le_trans _ _ _ H2 Hhead)|exact Htail].
Qed.

(** X8. The display step of [validate_and_filter] shows the
    regions of the valid transactions, each once, in strictly ascending
    order, and, unless no transaction is valid, two of their amounts as
    the range: when no amount is a NaN, no amount is below the first or
    above the second. *)
Theorem display_shows_regions_and_range (transactions : list Transaction)
    (region : option string) (min_amount max_amount : option float)
    (v : Validated) :
  validate_and_filter transactions region min_amount max_amount = Ok v ->
  let amounts := map amount_of (valid_set transactions) in
  strictly_ascending (shown_regions (printed v))
  /\ (forall r, In r (shown_regions (printed v))
                <-> In r (map Region (valid_set transactions)))
  /\ match shown_amount_range (printed v) with
     | None => valid_set transactions = []
     | Some (lo, hi) =>
         In lo amounts /\ In hi amounts
         /\ (Forall PyFloat.notnan amounts ->
             Forall (fun a => PyFloat.le lo a = true /\ PyFloat.le a hi = true)
               amounts)
     end.
Proof.
  intros Hv. destruct (validate_and_filter_ok _ _ _ _ _ Hv) as [_ ->].
  unfold validated_of, display_of. cbn [printed shown_regions shown_amount_range].
  split; [apply sorted_set_ascending|]. split; [intros r; apply in_sorted_set|].
  destruct (valid_set transactions) as [|t l]; [reflexivity|].
  cbn [map amount_range].
  split; [apply min_fold|]. split; [apply max_fold|].
  intros Hn. inversion Hn as [|? ? Hx Hr]; subst.
  pose proof (min_fold_least _ _ Hx Hr) as Hmin.
  pose proof (max_fold_greatest _ _ Hx Hr) as Hmax.
  apply List.Forall_forall. intros a Ha.
  split; [exact (proj1 (List.Forall_forall _ _) Hmin a Ha)
         |exact (proj1 (List.Forall_forall _ _) Hmax a Ha)].
Qed.

(** ** The validator after the parser *)

Lemma passes_checks_parsed (t : Transaction) :
  parsed_shape t -> passes_checks t = prefixes_ok t.
Proof.
  intros [_ _ _ HT _ _ Hq Hu]. unfold passes_checks, prefixes_ok.
  now rewrite Hq, Hu, HT.
Qed.

Lemma filter_ext_Forall {A : Type} (f g : A -> bool) (l : list A) :
  Forall (fun x => f x = g x) l ->
  filter (fun x => f x) l = filter (fun x => g x) l
  /\ filter (fun x => negb (f x)) l = filter (fun x => negb (g x)) l.
Proof.
  induction 1 as [|x l Hx Hl [IH1 IH2]]; [split; reflexivity|].
  rewrite !filter_bool_cons, Hx, IH1, IH2. split; reflexivity.
Qed.

Section ValidatorAfterParser.
Context `{Builtins}.

(** X9. On the transactions the parser returns, three of
    the five checks of the validator never fail: a parsed transaction is
    invalid exactly when its product identifier does not start with [P]
    or its customer identifier does not start with [C]. *)
Theorem parsed_records_fail_only_on_prefixes (raw_lines : list string) :
  let parsed := fst (fst (parse_transactions raw_lines)) in
  validate parsed
  = (filter (fun t => prefixes_ok t) parsed,
     len (filter (fun t => negb (prefixes_ok t)) parsed)).
Proof.
  intros parsed. rewrite validate_spec.
  destruct (filter_ext_Forall passes_checks prefixes_ok parsed) as [-> ->];
    [|reflexivity].
  eapply Forall_impl; [apply parsed_shapes|]. apply passes_checks_parsed.
Qed.

End ValidatorAfterParser.

(** * The daily trend and the peak day *)

(** ** The table of the dates *)

Lemma trend_value (g : list Transaction) (v : TrendAcc) :
  fold_left (fun v t => trend_add (CustomerID t) (amount_of t) v) g v
  = {| acc_revenue := fold_left PrimFloat.add (map amount_of g) (acc_revenue v);
       acc_day_count := acc_day_count v + len g;
       acc_customers := acc_customers v ∪ list_to_set (map CustomerID g) |}.
Proof.
  revert v. induction g as [|t g IH]; intros v.
  - destruct v as [s c p]. unfold len. simpl. f_equal; [lia|].
    now rewrite union_empty_r_L.
  - cbn [fold_left]. rewrite IH. unfold len. cbn [map length list_to_set].
    simpl acc_revenue. simpl acc_day_count. simpl acc_customers.
    f_equal; [lia|]. now rewrite (assoc_L (∪)).
Qed.

Lemma trend_loop (transactions : list Transaction) :
  amounts_defined transactions ->
  foldM trend_step transactions []
  = Ok (map (trend_acc_entry transactions) (first_seen (map Date transactions))).
Proof.
  intros Hd.
  change trend_step
    with (group_step_with Date trend_init
            (fun t a => trend_add (CustomerID t) a)).
  rewrite (group_loop_with _ _ _ _ Hd). f_equal.
  unfold group_table_with. apply map_ext. intros c.
  unfold trend_acc_entry, group_value_with. rewrite trend_value.
  unfold group_sum, float_sum, group_size. simpl.
  f_equal. f_equal. apply union_empty_l_L.
Qed.

Lemma trend_loop_raises (transactions : list Transaction) :
  ~ amounts_defined transactions ->
  foldM trend_step transactions [] = Raise OverflowError.
Proof.
  apply amount_loop_raises.
  - intros s t. unfold trend_step. now destruct (amount t).
  - intros s t. unfold trend_step. now destruct (amount t).
Qed.

(** The size of the set of the items of a list is the number of its
    distinct items. *)
Lemma size_list_to_set_first_seen (l : list string) :
  size (list_to_set l : gset string) = length (first_seen l).
Proof.
  rewrite <- (size_list_to_set (C := gset string) (first_seen l))
    by apply NoDup_first_seen.
  f_equal. apply set_eq. intros x.
  now rewrite !elem_of_list_to_set, elem_of_first_seen.
Qed.

Lemma trend_finish_entry (transactions : list Transaction) (d : string) :
  trend_finish (trend_acc_entry transactions d) = trend_entry transactions d.
Proof.
  unfold trend_finish, trend_acc_entry, trend_entry. simpl.
  now rewrite size_list_to_set_first_seen.
Qed.

Lemma daily_sales_trend_spec (transactions : list Transaction) :
  amounts_defined transactions ->
  daily_sales_trend transactions
  = Ok (py_sorted_by String.ltb fst false (trend_table transactions)).
Proof.
  intros Hd. unfold daily_sales_trend. rewrite (trend_loop _ Hd). cbn [bind].
  rewrite map_map. do 2 f_equal. apply map_ext. intros d.
  apply trend_finish_entry.
Qed.

Lemma daily_sales_trend_raises (transactions : list Transaction) :
  ~ amounts_defined transactions ->
  daily_sales_trend transactions = Raise OverflowError.
Proof.
  intros Hn. unfold daily_sales_trend. now rewrite (trend_loop_raises _ Hn).
Qed.

Lemma trend_table_dates (transactions : list Transaction) :
  map fst (trend_table transactions) = first_seen (map Date transactions).
Proof. unfold trend_table. rewrite map_map. apply map_id. Qed.

(** A list sorted by distinct keys is strictly sorted. *)
Lemma sorted_distinct_strict {V : Type} (l : list (string * V)) :
  StronglySorted (ascends_by String.ltb fst) l -> NoDup (map fst l) ->
  StronglySorted (fun x y => String.ltb (fst x) (fst y) = true) l.
Proof.
  induction 1 as [|x l Hs IH Hx]; intros Hnd; [constructor|].
  cbn [map] in Hnd. apply NoDup_cons in Hnd as [Hnx Hnd].
  constructor; [now apply IH|].
  apply List.Forall_forall. intros y Hy.
  pose proof (proj1 (List.Forall_forall _ _) Hx y Hy) as Hxy.
  unfold ascends_by in Hxy. apply string_ltb_ge in Hxy as [E|Hlt]; [|exact Hlt].
  destruct Hnx. rewrite E. apply elem_of_map. exists y.
  split; [reflexivity|now apply list_elem_of_In].
Qed.

Lemma length_first_seen_le (l : list string) :
  (length (first_seen l) <= length l)%nat.
Proof.
  induction l as [|x l IH]; simpl; [lia|].
  pose proof (length_filter (fun y => negb (String.eqb y x)) (first_seen l)). lia.
Qed.

Lemma first_seen_nonempty (l : list string) : l <> [] -> first_seen l <> [].
Proof. destruct l; [congruence|discriminate]. Qed.

Lemma trend_entry_facts (transactions : list Transaction) (d : string) :
  d ∈ first_seen (map Date transactions) ->
  let s := snd (trend_entry transactions d) in
  (1 <= unique_customers s <= trend_transaction_count s)%Z.
Proof.
  intros Hd. simpl. unfold group_size, len.
  destruct (group_size_pos Date d transactions Hd) as [Hlo _].
  unfold group_size, len in Hlo.
  pose proof (length_first_seen_le (map CustomerID (in_group Date d transactions))) as Hle.
  rewrite length_map in Hle. split; [|lia].
  destruct (in_group Date d transactions) as [|t g]; [simpl in Hlo; lia|].
  simpl. lia.
Qed.

(** X18. When the amounts are defined, [daily_sales_trend]
    returns one entry per date, in strictly ascending order of the date:
    the amounts of the date added and rounded, the number of its
    transactions, and the number of its distinct customers. The
    transaction counts add up to the number of transactions, and every
    date has one distinct customer at least and no more distinct
    customers than transactions. *)
Theorem daily_trend_is_sorted_table (transactions : list Transaction) :
  amounts_defined transactions ->
  exists res,
    daily_sales_trend transactions = Ok res
    /\ Permutation res (trend_table transactions)
    /\ StronglySorted date_ascends res
    /\ int_sum (map (fun e => trend_transaction_count (snd e)) res)
       = len transactions
    /\ Forall (fun e =>
         (1 <= unique_customers (snd e) <= trend_transaction_count (snd e))%Z)
         res.
Proof.
  intros Hd. eexists. split; [now apply daily_sales_trend_spec|].
  pose proof (py_sorted_by_perm String.ltb fst false (trend_table transactions)) as Hp.
  split; [exact Hp|]. split; [|split].
  - apply sorted_distinct_strict.
    + apply py_sorted_by_ascending, orders_string.
    + assert (Hp' : Permutation
                      (map fst (py_sorted_by String.ltb fst false
                                  (trend_table transactions)))
                      (map fst (trend_table transactions)))
        by now apply Permutation_map.
      rewrite Hp', trend_table_dates. apply NoDup_first_seen.
  - rewrite (int_sum_perm _ (map (fun e => trend_transaction_count (snd e))
                               (trend_table transactions)))
      by now apply Permutation_map.
    unfold trend_table. rewrite map_map. simpl. apply sum_of_group_sizes.
  - rewrite Hp. unfold trend_table. apply Forall_map_keys.
    intros d Hd'. exact (trend_entry_facts transactions d Hd').
Qed.

(** ** The peak day and the trend *)

Lemma day_loop_raises (transactions : list Transaction) :
  ~ amounts_defined transactions ->
  foldM day_step transactions [] = Raise OverflowError.
Proof.
  apply amount_loop_raises.
  - intros s t. unfold day_step. now destruct (amount t).
  - intros s t. unfold day_step. now destruct (amount t).
Qed.

Lemma find_peak_raises (transactions : list Transaction) :
  ~ amounts_defined transactions ->
  find_peak_sales_day transactions = Raise OverflowError.
Proof.
  intros Hn. unfold find_peak_sales_day. now rewrite (day_loop_raises _ Hn).
Qed.

(** X19. The peak day is a day of the trend: the date
    [find_peak_sales_day] returns has an entry in the result of
    [daily_sales_trend], with the same rounded revenue and the same number
    of transactions. *)
Theorem peak_day_is_in_trend (transactions : list Transaction) (d : string)
    (r : float) (c : Z) (trend : list (string * TrendStats)) :
  find_peak_sales_day transactions = Ok (Some d, r, c) ->
  daily_sales_trend transactions = Ok trend ->
  exists u, In (d, {| trend_revenue := r; trend_transaction_count := c;
                      unique_customers := u |}) trend.
Proof.
  intros Hp Ht. destruct (amounts_defined_dec transactions) as [Hd|Hn].
  - rewrite (daily_sales_trend_spec _ Hd) in Ht. apply ok_inj in Ht. subst trend.
    destruct (peak_cases transactions Hd) as [[_ Hs]|(i & d' & s & Hg & _ & Hr)].
    + rewrite Hs in Hp. discriminate.
    + rewrite Hr in Hp. injection Hp as -> <- <-.
      destruct Hg as (Hi & _). apply list_elem_of_lookup_2 in Hi.
      unfold day_table in Hi.
      apply (proj1 (elem_of_map _ _ _)) in Hi as (k & E & Hk).
      injection E as -> ->.
      exists (unique_customers (snd (trend_entry transactions k))).
      apply (Permutation_in _ (Permutation_sym (py_sorted_by_perm _ _ _ _))).
      unfold trend_table. apply in_map_iff. exists k.
      split; [reflexivity|now apply list_elem_of_In].
  - rewrite (find_peak_raises _ Hn) in Hp. discriminate.
Qed.

(** ** The old [find_peak_sales_day] *)

Lemma greater_revenue_first (r pre : list (string * DayAcc))
    (m : string * DayAcc) (i : nat) :
  pre !! i = Some m ->
  (forall e, In e pre -> PyFloat.lt (revenue (snd m)) (revenue (snd e)) = false) ->
  (forall j e, (j < i)%nat -> pre !! j = Some e ->
     PyFloat.lt (revenue (snd e)) (revenue (snd m)) = true
     \/ PrimFloat.is_nan (revenue (snd e)) = true) ->
  exists i',
    (pre ++ r) !! i' = Some (fold_left greater_revenue r m)
    /\ (forall e, In e (pre ++ r) ->
          PyFloat.lt (revenue (snd (fold_left greater_revenue r m)))
                     (revenue (snd e)) = false)
    /\ (forall j e, (j < i')%nat -> (pre ++ r) !! j = Some e ->
          PyFloat.lt (revenue (snd e))
                     (revenue (snd (fold_left greater_revenue r m))) = true
          \/ PrimFloat.is_nan (revenue (snd e)) = true).
Proof.
  revert pre m i. induction r as [|x r IH]; intros pre m i Hi Hmax Hbefore.
  - rewrite app_nil_r. exists i. simpl. auto.
  - cbn [fold_left]. rewrite (cons_middle x pre r), app_assoc.
    unfold greater_revenue at 2 4 6.
    destruct (PyFloat.lt (revenue (snd m)) (revenue (snd x))) eqn:Hlt.
    + apply (IH (pre ++ [x]) x (length pre)).
      * rewrite lookup_app_r by lia. now rewrite Nat.sub_diag.
      * intros e He. apply in_app_iff in He as [He|[<-|[]]].
        -- destruct (PyFloat.lt (revenue (snd x)) (revenue (snd e))) eqn:Hxe;
             [|reflexivity].
           specialize (Hmax e He).
           rewrite (FloatOrder.lt_trans _ _ _ Hlt Hxe) in Hmax. discriminate.
        -- apply FloatOrder.lt_irrefl.
      * intros j e Hj He. rewrite lookup_app_l in He by lia.
        destruct (PrimFloat.is_nan (revenue (snd e))) eqn:Hnan; [now right|left].
        apply list_elem_of_lookup_2, list_elem_of_In in He.
        destruct (FloatOrder.lt_notnan _ _ Hlt) as [Hm _].
        eapply FloatOrder.le_lt_trans; [|exact Hlt].
        apply FloatOrder.lt_false_le; [exact Hm|exact Hnan|now apply Hmax].
    + apply (IH (pre ++ [x]) m i).
      * rewrite lookup_app_l; [exact Hi|]. now apply lookup_lt_Some in Hi.
      * intros e He. apply in_app_iff in He as [He|[<-|[]]]; [now apply Hmax|exact Hlt].
      * intros j e Hj He. apply lookup_lt_Some in Hi.
        rewrite lookup_app_l in He by lia. now apply (Hbefore j e).
Qed.

Lemma max_by_revenue_first (table : list (string * DayAcc)) :
  table <> [] ->
  exists i d s,
    first_greatest table i d s /\ Old.max_by_revenue table = Ok (d, s).
Proof.
  destruct table as [|x r]; [congruence|]. intros _.
  destruct (greater_revenue_first r [x] x 0) as (i & Hi & Hmax & Hbefore).
  - reflexivity.
  - intros e [<-|[]]. apply FloatOrder.lt_irrefl.
  - intros j e Hj. lia.
  - simpl app in *. unfold Old.max_by_revenue.
    change (fun m i0 : string * DayAcc =>
              if PyFloat.lt (revenue (snd m)) (revenue (snd i0)) then i0 else m)
      with greater_revenue.
    destruct (fold_left greater_revenue r x) as [d s] eqn:E.
    exists i, d, s. split; [|reflexivity].
    split; [exact Hi|]. split; [exact Hmax|exact Hbefore].
Qed.

Lemma day_table_nonempty (transactions : list Transaction) :
  transactions <> [] -> day_table transactions <> [].
Proof.
  destruct transactions as [|t l]; [congruence|]. intros _. discriminate.
Qed.

Lemma old_peak_first (transactions : list Transaction) :
  amounts_defined transactions -> transactions <> [] ->
  exists i d s,
    first_greatest (day_table transactions) i d s
    /\ Old.find_peak_sales_day transactions
       = Ok (d, PyFloat.round2 (revenue s), day_transaction_count s).
Proof.
  intros Hd Hne. unfold Old.find_peak_sales_day.
  rewrite (daily_totals_spec _ Hd). cbn [bind].
  destruct (max_by_revenue_first (day_table transactions)
              (day_table_nonempty _ Hne)) as (i & d & s & Hg & ->).
  exists i, d, s. split; [exact Hg|reflexivity].
Qed.

Lemma peak_fold_agrees (r : list (string * DayAcc)) (m : string * DayAcc) :
  fold_left peak_step r (peak_of m) = peak_of (fold_left greater_revenue r m).
Proof.
  revert m. induction r as [|x r IH]; intros m; [reflexivity|].
  cbn [fold_left]. rewrite <- IH. f_equal.
  unfold peak_step, peak_of, greater_revenue. destruct x as [d s]. simpl.
  now destruct (PyFloat.lt (revenue (snd m)) (revenue s)).
Qed.

Lemma peak_variants_agree (transactions : list Transaction) :
  positive_amounts transactions -> transactions <> [] ->
  exists d r c,
    Old.find_peak_sales_day transactions = Ok (d, r, c)
    /\ find_peak_sales_day transactions = Ok (Some d, r, c).
Proof.
  intros Hp Hne. pose proof (positive_amounts_defined _ Hp) as Hd.
  unfold Old.find_peak_sales_day, find_peak_sales_day.
  rewrite (daily_totals_spec _ Hd). cbn [bind].
  pose proof (day_revenue_positive _ Hp) as Hpos.
  destruct (day_table transactions) as [|x r] eqn:E;
    [now destruct (day_table_nonempty _ Hne)|].
  unfold Old.max_by_revenue.
  change (fun m i0 : string * DayAcc =>
            if PyFloat.lt (revenue (snd m)) (revenue (snd i0)) then i0 else m)
    with greater_revenue.
  cbn [bind fold_left].
  assert (Hx : peak_step peak_init x = peak_of x).
  { destruct x as [d s].
    pose proof (Hpos (d, s) (or_introl eq_refl)) as H0. cbn [snd] in H0.
    unfold peak_step, peak_init, peak_of. cbn [fst snd]. now rewrite H0. }
  rewrite Hx, peak_fold_agrees.
  destruct (fold_left greater_revenue r x) as [d s].
  exists d, (PyFloat.round2 (revenue s)), (day_transaction_count s).
  split; reflexivity.
Qed.

(** X20. The old [find_peak_sales_day] raises [ValueError] on the
    empty list, where the current one returns the sentinel; on every other
    list whose amounts are defined it returns the first date whose
    revenue no other date exceeds, whatever the sign of the revenues; and
    when every amount is greater than zero the old and the current
    function return the same date, revenue and count. *)
Theorem old_peak_is_first_greatest (transactions : list Transaction) :
  Old.find_peak_sales_day [] = Raise ValueError
  /\ find_peak_sales_day [] = Ok sentinel
  /\ (amounts_defined transactions -> transactions <> [] ->
      exists i d s,
        first_greatest (day_table transactions) i d s
        /\ Old.find_peak_sales_day transactions
           = Ok (d, PyFloat.round2 (revenue s), day_transaction_count s))
  /\ (positive_amounts transactions -> transactions <> [] ->
      exists d r c,
        Old.find_peak_sales_day transactions = Ok (d, r, c)
        /\ find_peak_sales_day transactions = Ok (Some d, r, c)).
Proof.
  split; [reflexivity|]. split; [reflexivity|].
  split; [apply old_peak_first|apply peak_variants_agree].
Qed.

(** * What the aggregations have in common *)

Section AggregationProperties.
Context {sorter : ListSort}.

Lemma region_loop_raises (transactions : list Transaction) :
  ~ amounts_defined transactions ->
  foldM region_step transactions ([], PyFloat.zero) = Raise OverflowError.
Proof.
  apply amount_loop_raises.
  - intros [d g] t. unfold region_step. now destruct (amount t).
  - intros [d g] t. unfold region_step. now destruct (amount t).
Qed.

Lemma region_wise_sales_raises (transactions : list Transaction) :
  ~ amounts_defined transactions ->
  region_wise_sales transactions = Raise OverflowError.
Proof.
  intros Hn. unfold region_wise_sales. now rewrite (region_loop_raises _ Hn).
Qed.

Lemma customer_analysis_raises (transactions : list Transaction) :
  ~ amounts_defined transactions ->
  customer_analysis transactions = Raise OverflowError.
Proof.
  intros Hn. unfold customer_analysis. now rewrite (customer_loop_raises _ Hn).
Qed.

(** X21. No aggregation catches the [OverflowError] of a quantity
    beyond the range of the floats (their [except] clauses name [KeyError]
    and [TypeError] only): when an amount is not defined, each of the seven
    raises it. *)
Theorem overflow_leaves_every_aggregation (transactions : list Transaction) :
  ~ amounts_defined transactions ->
  calculate_total_revenue transactions = Raise OverflowError
  /\ region_wise_sales transactions = Raise OverflowError
  /\ (forall n, top_selling_products transactions n = Raise OverflowError)
  /\ customer_analysis transactions = Raise OverflowError
  /\ daily_sales_trend transactions = Raise OverflowError
  /\ find_peak_sales_day transactions = Raise OverflowError
  /\ (forall threshold,
        low_performing_products transactions threshold = Raise OverflowError).
Proof.
  intros Hn. repeat split.
  - unfold calculate_total_revenue. now rewrite (revenue_loop_raises _ _ Hn).
  - now apply region_wise_sales_raises.
  - intros n. now apply top_selling_raises.
  - now apply customer_analysis_raises.
  - now apply daily_sales_trend_raises.
  - now apply find_peak_raises.
  - intros threshold. now apply low_performing_raises.
Qed.

(** ** The regions *)

Lemma region_table_regions (transactions : list Transaction) :
  map fst (region_table transactions) = first_seen (map Region transactions).
Proof. unfold region_table. rewrite map_map. apply map_id. Qed.

(** X22. Whenever [region_wise_sales] returns, its entries
    are one per region of the input, and their transaction counts add up
    to the number of transactions. When no amount is negative, the
    entries are in descending order of the rounded total, and no rounded
    total is negative. *)
Theorem region_entries_account_for_input (transactions : list Transaction)
    (res : list (string * RegionStats)) :
  region_wise_sales transactions = Ok res ->
  NoDup (map fst res)
  /\ (forall r, In r (map fst res) <-> In r (map Region transactions))
  /\ int_sum (map (fun e => transaction_count (snd e)) res) = len transactions
  /\ (nonneg_amounts transactions ->
      StronglySorted (descends region_key) res
      /\ Forall (fun e => PyFloat.le PyFloat.zero (total_sales (snd e)) = true)
           res).
Proof.
  intros Hr. destruct (amounts_defined_dec transactions) as [Hd|Hn].
  - rewrite (region_wise_sales_spec _ Hd) in Hr. apply ok_inj in Hr. subst res.
    pose proof (py_sorted_perm region_key true (region_table transactions)) as Hp.
    assert (Hp' : Permutation
                    (map fst (py_sorted region_key true (region_table transactions)))
                    (first_seen (map Region transactions)))
      by (rewrite <- region_table_regions; now apply Permutation_map).
    split; [|split; [|split]].
    + rewrite Hp'. apply NoDup_first_seen.
    + intros r. rewrite <- !list_elem_of_In, Hp'. apply elem_of_first_seen.
    + rewrite (int_sum_perm _ (map (fun e => transaction_count (snd e))
                                 (region_table transactions)))
        by now apply Permutation_map.
      unfold region_table. rewrite map_map. simpl. apply sum_of_group_sizes.
    + intros Hnn. split.
      * now apply py_sorted_descending, region_table_comparable.
      * rewrite Hp. unfold region_table.
        apply Forall_map_keys. intros r _. simpl.
        now apply FloatRound.round2_nonneg, group_sum_nonneg.
  - rewrite (region_wise_sales_raises _ Hn) in Hr. discriminate.
Qed.

End AggregationProperties.

(** * The product mapping *)

Lemma mapping_from (api_products : list ApiItem) (m : gmap Z CatalogEntry) (k : Z) :
  fold_left mapping_step api_products m !! k
  = match last (products_with_id k api_products) with
    | Some product => Some (catalog_entry product)
    | None => m !! k
    end.
Proof.
  revert m. induction api_products as [|item l IH]; intros m; [reflexivity|].
  cbn [fold_left]. rewrite IH. unfold products_with_id. rewrite omap_cons_eq.
  fold (products_with_id k l).
  destruct item as [product|]; [|reflexivity]. unfold mapping_step.
  destruct (api_id product) as [j|] eqn:Hid.
  - destruct (decide (Some j = Some k)) as [E|Hne].
    + injection E as ->. rewrite last_cons, lookup_insert_eq.
      destruct (last (products_with_id k l)); reflexivity.
    + rewrite lookup_insert_ne by congruence. reflexivity.
  - destruct (decide (None = Some k)); [discriminate|reflexivity].
Qed.

Lemma mapping_lookup (api_products : list ApiItem) (k : Z) :
  create_product_mapping api_products !! k
  = catalog_entry <$> last (products_with_id k api_products).
Proof.
  unfold create_product_mapping. rewrite mapping_from, lookup_empty.
  destruct (last (products_with_id k api_products)); reflexivity.
Qed.

Lemma products_with_id_skipped (api_products : list ApiItem) (k : Z) :
  Forall has_no_id api_products -> products_with_id k api_products = [].
Proof.
  induction 1 as [|item l Hi Hl IH]; [reflexivity|].
  unfold products_with_id. rewrite omap_cons_eq. fold (products_with_id k l).
  destruct item as [product|]; [|exact IH]. simpl in Hi. rewrite Hi.
  destruct (decide (None = Some k)); [discriminate|exact IH].
Qed.

Lemma mapping_of_skipped (api_products : list ApiItem) :
  Forall has_no_id api_products -> create_product_mapping api_products = ∅.
Proof.
  intros Hs. apply map_eq. intros k.
  now rewrite mapping_lookup, products_with_id_skipped, lookup_empty.
Qed.

(** X23. [create_product_mapping] keeps, for every identifier, the
    fields of the last dictionary of the list that has it: an identifier
    that occurs again overwrites the earlier entry, and the items that are
    no dictionaries or have no identifier leave no trace. *)
Theorem product_mapping_last_wins (api_products : list ApiItem) (k : Z) :
  create_product_mapping api_products !! k
  = catalog_entry <$> last (products_with_id k api_products).
Proof. apply mapping_lookup. Qed.

Section ApiProperties.
Context `{Builtins}.

Lemma digits_not_empty (raw : string) :
  digits_of raw <> EmptyString -> truthy raw = true.
Proof. destruct raw; [now intros []|reflexivity]. Qed.

Lemma api_fields_of_key (product_mapping : gmap Z CatalogEntry) (raw : string)
    (k : Z) :
  digits_of raw <> EmptyString -> py_int (digits_of raw) = Ok k ->
  api_fields product_mapping (Some raw)
  = match product_mapping !! k with
    | Some api_info => api_from api_info
    | None => api_defaults
    end.
Proof.
  intros Hd Hk. unfold api_fields, find_api_info.
  rewrite (digits_not_empty raw Hd). fold (digits_of raw).
  destruct (digits_of raw) as [|c r] eqn:E; [congruence|]. cbn [truthy].
  rewrite Hk. simpl. destruct (product_mapping !! k); reflexivity.
Qed.

(** X24. A transaction whose product identifier has the digits
    of [k] gets the category, the brand and the rating of the last
    dictionary of the API list whose identifier is [k], with
    [API_Match = true]; it gets the defaults when the list has no such
    dictionary. *)
Theorem enrichment_uses_last_product (api_products : list ApiItem)
    (txn : Transaction) (k : Z) :
  digits_of (ProductID txn) <> EmptyString ->
  py_int (digits_of (ProductID txn)) = Ok k ->
  api_of (enrich_txn (create_product_mapping api_products) txn)
  = match last (products_with_id k api_products) with
    | Some product => api_from_product product
    | None => api_defaults
    end.
Proof.
  intros Hd Hk.
  rewrite (proj1 (api_of_enrich_txn _ txn)), (api_fields_of_key _ _ k Hd Hk).
  rewrite mapping_lookup.
  destruct (last (products_with_id k api_products)); reflexivity.
Qed.

Lemma api_fields_empty (product_id_raw : option string) :
  api_fields ∅ product_id_raw = api_defaults.
Proof.
  unfold api_fields, find_api_info.
  destruct product_id_raw as [raw|]; [|reflexivity].
  destruct (truthy raw); [|reflexivity].
  destruct (truthy (filter_chars isdigit raw)); [|reflexivity].
  destruct (py_int (filter_chars isdigit raw)) as [k|e]; [|reflexivity].
  simpl. now rewrite lookup_empty.
Qed.

Lemma enrich_txn_empty (txn : Transaction) : enrich_txn ∅ txn = enrich_default txn.
Proof. unfold enrich_txn. now rewrite api_fields_empty. Qed.

Lemma matched_count_defaults (transactions : list Transaction) :
  matched_count (map enrich_default transactions) = 0%Z.
Proof.
  unfold matched_count, len. induction transactions as [|t l IH]; [reflexivity|].
  cbn [map]. rewrite filter_bool_cons. exact IH.
Qed.

(** X25. When the API list holds no dictionary with an
    identifier, as when the download failed and the list is empty, the
    mapping is empty, every transaction keeps the default enrichment
    fields and no transaction is counted as matched. *)
Theorem enrichment_without_products (api_products : list ApiItem)
    (transactions : list Transaction) :
  Forall has_no_id api_products ->
  create_product_mapping api_products = ∅
  /\ enrich_sales_data transactions (create_product_mapping api_products)
     = map enrich_default transactions
  /\ matched_count
       (enrich_sales_data transactions (create_product_mapping api_products))
     = 0%Z.
Proof.
  intros Hs. rewrite (mapping_of_skipped _ Hs), enrich_sales_data_map.
  assert (E : map (enrich_txn ∅) transactions = map enrich_default transactions)
    by (apply map_ext; apply enrich_txn_empty).
  rewrite E. split; [reflexivity|]. split; [reflexivity|].
  apply matched_count_defaults.
Qed.

Lemma old_enrich_txn_agrees (product_mapping : gmap Z CatalogEntry)
    (txn : Transaction) (e : exn) :
  py_int EmptyString = Raise e ->
  Old.enrich_txn product_mapping txn = enrich_txn product_mapping txn.
Proof.
  intros He. unfold Old.enrich_txn, enrich_txn, api_fields,
    Old.find_api_info, find_api_info.
  destruct (truthy (ProductID txn)); [|reflexivity].
  destruct (filter_chars isdigit (ProductID txn)) as [|c r] eqn:E.
  - cbn [truthy]. rewrite He. reflexivity.
  - cbn [truthy].
    destruct (py_int (String c r)) as [k|e']; [|reflexivity].
    simpl. destruct (product_mapping !! k); reflexivity.
Qed.

(** X26. The old [enrich_sales_data], which calls [int] on the
    digits of the identifier without testing that there are any, returns
    what the current one returns, as [int] raises on the empty text and
    the exception is caught. *)
Theorem old_enrichment_agrees (transactions : list Transaction)
    (product_mapping : gmap Z CatalogEntry) (e : exn) :
  py_int EmptyString = Raise e ->
  Old.enrich_sales_data transactions product_mapping
  = enrich_sales_data transactions product_mapping.
Proof.
  intros He. unfold Old.enrich_sales_data, enrich_sales_data.
  rewrite !append_loop_map. f_equal. apply map_ext. intros txn.
  now apply (old_enrich_txn_agrees _ _ e).
Qed.

End ApiProperties.

(** * The aggregations after the parser and the validator *)

Section PipelineLemmas.
Context {sorter : ListSort}.

Lemma positive_amounts_nonneg (l : list Transaction) :
  positive_amounts l -> nonneg_amounts l.
Proof.
  unfold positive_amounts, nonneg_amounts. apply List.Forall_impl.
  intros t (a & Ha & Hlt). exists a. split; [exact Ha|now apply FloatOrder.lt_le].
Qed.

(** A positive quantity and a unit price greater than zero give an
    amount greater than zero. *)
Lemma amount_positive (t : Transaction) (a : float) :
  (Quantity t <=? 0)%Z = false ->
  PyFloat.le (UnitPrice t) PyFloat.zero = false ->
  PyFloat.notnan (UnitPrice t) ->
  amount t = Ok a -> PyFloat.lt PyFloat.zero a = true.
Proof.
  intros Hq Hu Hn Ha. apply (FloatRound.mul_int_float_pos (Quantity t) (UnitPrice t)).
  - now apply Z.leb_gt in Hq.
  - apply FloatOrder.le_false_lt; [exact Hn|apply FloatOrder.notnan_zero|exact Hu].
  - exact Ha.
Qed.

Lemma checked_amounts_positive (l : list Transaction) :
  Forall (fun t => (Quantity t <=? 0)%Z = false
                   /\ PyFloat.le (UnitPrice t) PyFloat.zero = false) l ->
  prices_are_numbers l -> amounts_defined l -> positive_amounts l.
Proof.
  unfold prices_are_numbers, amounts_defined, positive_amounts.
  induction 1 as [|t l [Hq Hu] Hl IH]; intros Hn Hd; [constructor|].
  inversion Hn; subst. inversion Hd; subst.
  constructor; [|now apply IH].
  exists (amount_of t). split; [now apply amount_defined|].
  apply (amount_positive t); try assumption. now apply amount_defined.
Qed.

Lemma positive_peak_as_stated (transactions : list Transaction) :
  positive_amounts transactions -> peak_as_stated transactions.
Proof.
  intros Hp. pose proof (positive_amounts_defined _ Hp) as Hd.
  unfold peak_as_stated.
  destruct transactions as [|t l] eqn:E; [reflexivity|]. rewrite <- E in *.
  destruct (peak_cases transactions Hd) as [[Hnone _]|(i & d & s & Hg & _ & Hr)].
  - exfalso.
    assert (Hin : In (day_entry transactions (Date t)) (day_table transactions)).
    { unfold day_table. apply in_map. rewrite E. simpl. now left. }
    pose proof (day_revenue_positive _ Hp _ Hin) as Hpos.
    rewrite (Hnone _ Hin) in Hpos. discriminate.
  - exists i, d, s. split; assumption.
Qed.

Lemma nonneg_region_shares (transactions : list Transaction) :
  nonneg_amounts transactions -> region_shares_as_stated transactions.
Proof.
  intros Hn res Hres r s Hin. pose proof (nonneg_amounts_defined _ Hn) as Hd.
  rewrite (region_wise_sales_spec _ Hd) in Hres. apply ok_inj in Hres. subst res.
  apply (Permutation_in _ (py_sorted_perm region_key true _)) in Hin.
  unfold region_table in Hin. apply in_map_iff in Hin as (r' & E & _).
  injection E as <- <-. simpl.
  now rewrite guarded_is_stated by (now apply grand_total_nonneg).
Qed.

End PipelineLemmas.

Section Pipeline.
Context `{Builtins} {sorter : ListSort}.

(** X28. The transactions the parser returns, when no unit
    price is a NaN and no quantity is beyond the floats, have amounts
    greater than zero: a product does not underflow. On them
    [find_peak_sales_day] returns the first date of greatest revenue
    unless there is no transaction; and [region_wise_sales] computes the
    percentages of the specification, with a grand total that is greater
    than zero unless there is no transaction, and returns the regions in
    descending order of the rounded total. *)
Theorem parsed_amounts_are_positive (raw_lines : list string) :
  let parsed := fst (fst (parse_transactions raw_lines)) in
  prices_are_numbers parsed -> amounts_defined parsed ->
  positive_amounts parsed
  /\ peak_as_stated parsed
  /\ region_shares_as_stated parsed
  /\ (parsed <> [] -> PyFloat.lt PyFloat.zero (grand_total parsed) = true)
  /\ exists res,
       region_wise_sales parsed = Ok res
       /\ StronglySorted (descends region_key) res.
Proof.
  intros parsed Hn Hd.
  assert (Hp : positive_amounts parsed).
  { apply checked_amounts_positive; [|exact Hn|exact Hd].
    eapply Forall_impl; [apply parsed_shapes|].
    intros t [_ _ _ _ _ _ Hq Hu]. now split. }
  pose proof (positive_amounts_nonneg _ Hp) as Hnn.
  split; [exact Hp|]. split; [now apply positive_peak_as_stated|].
  split; [now apply nonneg_region_shares|]. split.
  - intros Hne. apply FloatSum.float_sum_pos; [|now apply positive_amounts_of].
    destruct parsed; [congruence|discriminate].
  - eexists. split; [now apply region_wise_sales_spec|].
    now apply py_sorted_descending, region_table_comparable.
Qed.

End Pipeline.

Section ValidatedPipeline.
Context {sorter : ListSort}.

Lemma passes_checks_positive (t : Transaction) :
  passes_checks t = true ->
  (Quantity t <=? 0)%Z = false /\ PyFloat.le (UnitPrice t) PyFloat.zero = false.
Proof.
  unfold passes_checks. intros Hp.
  repeat (apply andb_true_iff in Hp as [Hp ?]).
  split; now apply negb_true_iff.
Qed.

(** X29. The transactions [validate_and_filter] returns,
    when no unit price is a NaN, have amounts greater than zero, and
    [calculate_total_revenue] returns for them a total that is not
    negative. *)
Theorem valid_amounts_are_positive (transactions : list Transaction)
    (region : option string) (min_amount max_amount : option float)
    (v : Validated) :
  validate_and_filter transactions region min_amount max_amount = Ok v ->
  prices_are_numbers (filtered_transactions v) ->
  positive_amounts (filtered_transactions v)
  /\ exists total,
       calculate_total_revenue (filtered_transactions v) = Ok total
       /\ PyFloat.le PyFloat.zero total = true.
Proof.
  intros Hv Hn. destruct (validate_and_filter_ok _ _ _ _ _ Hv) as [_ ->].
  destruct (filtered_facts transactions region min_amount max_amount)
    as (_ & Hp & _ & Ha).
  set (out := filtered_transactions
                (validated_of transactions region min_amount max_amount)) in *.
  pose proof (amount_within_defined _ _ _ Ha) as Hd.
  assert (Hpos : positive_amounts out).
  { apply checked_amounts_positive; [|exact Hn|exact Hd].
    eapply Forall_impl; [exact Hp|]. apply passes_checks_positive. }
  split; [exact Hpos|].
  exists (PyFloat.round2 (grand_total out)). split.
  - unfold calculate_total_revenue. now rewrite (revenue_loop _ _ Hd).
  - apply FloatRound.round2_nonneg, grand_total_nonneg.
    now apply positive_amounts_nonneg.
Qed.

End ValidatedPipeline.

(** * The scenarios of the specification, the counterexamples and the
    witnesses, run with the reference builtins *)

#[local] Set Warnings "-inexact-float".

Section Scenarios.
#[local] Existing Instance Reference.builtins.
#[local] Existing Instance Reference.sorting.

Example parse_sample_line :
  parse_transactions [sample_line] = ([sample_txn], 0%Z, [])
  /\ amount sample_txn = Ok 100000%float.
Proof. split; vm_compute; reflexivity. Qed.

Example parse_short_line :
  parse_transactions [short_line] = ([], 1%Z, [short_line]).
Proof. vm_compute. reflexivity. Qed.

Example parse_zero_quantity :
  parse_transactions ["T001|2024-01-05|P101|Laptop|0|50000|C001|North"]
  = ([], 1%Z, ["T001|2024-01-05|P101|Laptop|0|50000|C001|North"]).
Proof. vm_compute. reflexivity. Qed.

Example parse_thousands_separators :
  fst (fst (parse_transactions ["T9|2024-02-01|P5|Desk, oak|1,000|1,234.5|C9| West "]))
  = [{| TransactionID := "T9"; Date := "2024-02-01"; ProductID := "P5";
        ProductName := "Desk  oak"; Quantity := 1000; UnitPrice := 1234.5%float;
        CustomerID := "C9"; Region := "West" |}].
Proof. vm_compute. reflexivity. Qed.

Example enrich_hit_and_miss :
  map api_of (enrich_sales_data [mouse_txn; sample_txn] sample_catalog)
  = [(Some "accessories", None, Some 4.5%float, true); api_defaults]
  /\ api_fields sample_catalog (Some "") = api_defaults.
Proof. split; vm_compute; reflexivity. Qed.

Example enriched_file :
  save_enriched_data (enrich_sales_data [mouse_txn; sample_txn] sample_catalog)
  = [header;
     "T002|2024-01-06|P7|Mouse|3|10.5|C002|south|accessories||4.5|True
";
     "T001|2024-01-05|P101|Laptop|2|50000.0|C001|North||||False
"].
Proof. vm_compute. reflexivity. Qed.

(** Two regions with the same total: the one seen first comes first. *)
Example equal_totals_first_seen :
  region_wise_sales
    [ {| TransactionID := "T1"; Date := "d"; ProductID := "P1"; ProductName := "a";
         Quantity := 1; UnitPrice := 5%float; CustomerID := "C1"; Region := "West" |};
      {| TransactionID := "T2"; Date := "d"; ProductID := "P1"; ProductName := "a";
         Quantity := 3; UnitPrice := 10%float; CustomerID := "C1"; Region := "North" |};
      {| TransactionID := "T3"; Date := "d"; ProductID := "P1"; ProductName := "a";
         Quantity := 2; UnitPrice := 15%float; CustomerID := "C1"; Region := "East" |} ]
  = Ok [ ("North", {| total_sales := 30%float; transaction_count := 1;
                      percentage := 46.15%float |});
         ("East", {| total_sales := 30%float; transaction_count := 1;
                     percentage := 46.15%float |});
         ("West", {| total_sales := 5%float; transaction_count := 1;
                     percentage := 7.69%float |}) ].
Proof. vm_compute. reflexivity. Qed.

(** The superseded filter compares the regions as they are written. *)
Example old_region_filter_is_case_sensitive :
  (exists v, validate_and_filter [sample_txn] (Some "NORTH") None None = Ok v
             /\ filtered_transactions v = [sample_txn])
  /\ (exists v, Old.validate_and_filter [sample_txn] (Some "NORTH") None None = Ok v
                /\ Old.filtered v = []).
Proof. split; eexists; split; vm_compute; reflexivity. Qed.

(** The superseded [region_wise_sales] divides without a guard. *)
Example old_region_shares_divide_by_zero :
  Old.region_wise_sales [free_txn] = Raise ZeroDivisionError
  /\ is_ok (region_wise_sales [free_txn]) = true.
Proof. split; vm_compute; reflexivity. Qed.

(** A quantity beyond the range of the floats: the product raises, in the
    display step as in the aggregations. *)
Example huge_quantity_overflows :
  let t := {| TransactionID := "T1"; Date := "d"; ProductID := "P1";
              ProductName := "a"; Quantity := 10 ^ 400; UnitPrice := 1%float;
              CustomerID := "C1"; Region := "West" |} in
  validate_and_filter [t] None None None = Raise OverflowError
  /\ region_wise_sales [t] = Raise OverflowError
  /\ find_peak_sales_day [t] = Raise OverflowError.
Proof. repeat split; vm_compute; reflexivity. Qed.

End Scenarios.

(** ** A unit price that is a NaN *)

Section Findings.
#[local] Existing Instance Reference.builtins.
#[local] Existing Instance Reference.sorting.

(** C2. The validator keeps a transaction whose unit price is a NaN: the
    check [UnitPrice <= 0] is false for it, although the price is not
    greater than zero, so that the valid set holds a transaction the
    predicate of the specification excludes and the invalid counter stays
    at zero. The parser builds such a transaction from a line whose price
    reads [nan]. *)
Theorem nan_price_passes_validation :
  parse_transactions [nan_line] = ([nan_txn], 0%Z, [])
  /\ validate [nan_txn] = ([nan_txn], 0%Z)
  /\ (exists v, validate_and_filter [nan_txn] None None None = Ok v
                /\ filtered_transactions v = [nan_txn]
                /\ invalid_count v = 0%Z)
  /\ PyFloat.lt PyFloat.zero (UnitPrice nan_txn) = false
  /\ spec_valid nan_txn = false.
Proof.
  repeat split; try (vm_compute; reflexivity).
  eexists. repeat split; vm_compute; reflexivity.
Qed.

(** ** Counterexamples *)

Lemma float_neq (x y : float) : PrimFloat.Leibniz.eqb x y = false -> x <> y.
Proof. intros Hne E. apply FloatAxioms.Leibniz.eqb_spec in E. congruence. Qed.

(** C4, as stated: for a return (a negative grand total) and for a price
    that is a NaN, the percentage is [0.0] where the specification has
    the share of the grand total. *)
Lemma region_shares_not_as_stated :
  ~ region_shares_as_stated [return_txn] /\ ~ region_shares_as_stated [nan_txn].
Proof.
  split; intros Hc.
  - assert (Hr : region_wise_sales [return_txn]
                 = Ok [("North", {| total_sales := (-10)%float; transaction_count := 1;
                                    percentage := 0%float |})])
      by (vm_compute; reflexivity).
    specialize (Hc _ Hr "North" _ (or_introl eq_refl)).
    revert Hc. apply float_neq. vm_compute. reflexivity.
  - assert (Hr : region_wise_sales [nan_txn]
                 = Ok [("East", {| total_sales := nan; transaction_count := 1;
                                   percentage := 0%float |})])
      by (vm_compute; reflexivity).
    specialize (Hc _ Hr "East" _ (or_introl eq_refl)).
    revert Hc. apply float_neq. vm_compute. reflexivity.
Qed.

(** C5, as stated: a transaction the parser builds and the validator
    keeps, with a quantity beyond the range of the floats, makes the call
    raise in the display step; no filter is applied and nothing is
    returned. *)
Lemma filters_not_applied_on_overflow :
  parse_transactions [huge_line] = ([huge_txn], 0%Z, [])
  /\ valid_set [huge_txn] = [huge_txn]
  /\ validate_and_filter [huge_txn] None None None = Raise OverflowError
  /\ ~ filters_as_stated [huge_txn] None None None.
Proof.
  assert (Hr : validate_and_filter [huge_txn] None None None = Raise OverflowError)
    by (vm_compute; reflexivity).
  repeat split; try (vm_compute; reflexivity).
  intros (v & Hv & _). rewrite Hr in Hv. discriminate.
Qed.

(** C8, as stated: of a line of seven fields with white space around
    it, the list of discarded records holds the stripped text, not the
    text of the line. *)
Lemma padded_line_not_kept_verbatim :
  snd (parse_transactions [padded_line]) = [short_line]
  /\ ~ kept_verbatim [padded_line].
Proof.
  assert (Hr : snd (parse_transactions [padded_line]) = [short_line])
    by (vm_compute; reflexivity).
  split; [exact Hr|]. intros Hk.
  assert (Hin : In padded_line (snd (parse_transactions [padded_line]))).
  { apply Hk; [now left|]. left. vm_compute. lia. }
  rewrite Hr in Hin. destruct Hin as [E|[]]. discriminate.
Qed.

(** C7, as stated: for a list that is not empty but has no revenue
    greater than zero (a free item, a price that is a NaN), the sentinel
    is returned, not a date. *)
Lemma peak_not_as_stated :
  ~ peak_as_stated [free_txn] /\ ~ peak_as_stated [nan_txn].
Proof.
  split; intros (i & d & s & _ & Hp).
  - assert (Hs : find_peak_sales_day [free_txn] = Ok sentinel)
      by (vm_compute; reflexivity).
    rewrite Hs in Hp. discriminate.
  - assert (Hs : find_peak_sales_day [nan_txn] = Ok sentinel)
      by (vm_compute; reflexivity).
    rewrite Hs in Hp. discriminate.
Qed.

(** C9, as stated: the line written for the enriched sample transaction
    does not parse back to it; it is discarded. *)
Lemma encoded_line_does_not_parse_back : ~ recovers_base sample_enriched.
Proof.
  unfold recovers_base. rewrite enriched_line_discarded. discriminate.
Qed.

End Findings.

(** ** Witnesses *)

Section Witnesses.
#[local] Existing Instance Reference.builtins.
#[local] Existing Instance Reference.sorting.

Lemma rejected_line_kept_stripped_witness :
  (In padded_line [sample_line; padded_line] /\ must_reject padded_line)
  /\ strip padded_line = short_line
  /\ parse_line short_line = None
  /\ In short_line (snd (parse_transactions [sample_line; padded_line]))
  /\ ~ In padded_line (snd (parse_transactions [sample_line; padded_line])).
Proof.
  assert (H1 : In padded_line [sample_line; padded_line]) by (right; left; reflexivity).
  assert (H2 : must_reject padded_line) by (left; vm_compute; lia).
  assert (Hs : strip padded_line = short_line) by reflexivity.
  assert (Hne : strip padded_line <> EmptyString) by discriminate.
  destruct (rejected_line_kept_stripped [sample_line; padded_line] padded_line H1 H2)
    as [Hkept Hraw].
  destruct (Hkept Hne) as [Hnone Hin]. rewrite Hs in Hnone, Hin.
  split; [split; assumption|]. split; [exact Hs|]. split; [exact Hnone|].
  split; [exact Hin|].
  intros Hp. apply Hraw in Hp as [Hp _]. rewrite Hs in Hp. discriminate.
Defined.

Lemma filters_applied_in_order_witness :
  amounts_defined (valid_set [sample_txn; mouse_txn; return_txn])
  /\ exists v,
       validate_and_filter [sample_txn; mouse_txn; return_txn]
         (Some "NORTH") (Some 30%float) None = Ok v
       /\ filtered_transactions v
          = filter (fun t => amount_within (Some 30%float) None t)
              (kept_by_region (Some "NORTH")
                 (valid_set [sample_txn; mouse_txn; return_txn]))
       /\ filtered_by_region (summary v)
          = (len (valid_set [sample_txn; mouse_txn; return_txn])
             - len (kept_by_region (Some "NORTH")
                      (valid_set [sample_txn; mouse_txn; return_txn])))%Z
       /\ filtered_by_amount (summary v)
          = (len (kept_by_region (Some "NORTH")
                    (valid_set [sample_txn; mouse_txn; return_txn]))
             - len (filtered_transactions v))%Z
       /\ final_count (summary v) = len (filtered_transactions v).
Proof.
  assert (Hd : amounts_defined (valid_set [sample_txn; mouse_txn; return_txn]))
    by (repeat constructor).
  split; [exact Hd|].
  exact (proj1 (filters_applied_in_order [sample_txn; mouse_txn; return_txn]
                  (Some "NORTH") (Some 30%float) None) Hd).
Defined.

Lemma empty_valid_set_returns_witness :
  valid_set [return_txn] = []
  /\ validate_and_filter [return_txn] (Some "North") (Some 1%float) None =
       Ok {| printed := {| shown_regions := []; shown_amount_range := None |};
             filtered_transactions := [];
             invalid_count := len [return_txn];
             summary := {| total_input := len [return_txn];
                           invalid := len [return_txn];
                           filtered_by_region := 0;
                           filtered_by_amount := 0;
                           final_count := 0 |} |}.
Proof.
  assert (He : valid_set [return_txn] = []) by reflexivity.
  split; [exact He|].
  exact (empty_valid_set_returns [return_txn] (Some "North") (Some 1%float) None He).
Defined.

Lemma region_shares_sorted_witness :
  amounts_defined [mouse_txn; sample_txn]
  /\ exists res,
       region_wise_sales [mouse_txn; sample_txn] = Ok res
       /\ Permutation res (region_table [mouse_txn; sample_txn])
       /\ StronglySorted (descends region_key) res
       /\ map fst res = ["North"; "south"]%string.
Proof.
  assert (Hd : amounts_defined [mouse_txn; sample_txn]) by (repeat constructor).
  assert (Hn : nonneg_amounts [mouse_txn; sample_txn])
    by (repeat constructor; eexists; split; reflexivity).
  split; [exact Hd|].
  destruct (region_shares_sorted [mouse_txn; sample_txn] Hd)
    as (res & Hr & Hp & _ & Hs & Hc).
  exists res. split; [exact Hr|]. split; [exact Hp|].
  split; [exact (proj1 (Hs (proj1 (Hc Hn))))|].
  assert (Hv : region_wise_sales [mouse_txn; sample_txn]
               = Ok (py_sorted region_key true (region_table [mouse_txn; sample_txn])))
    by (vm_compute; reflexivity).
  rewrite Hv in Hr. injection Hr as <-. vm_compute. reflexivity.
Defined.

Lemma peak_day_or_sentinel_witness :
  amounts_defined [mouse_txn; sample_txn]
  /\ exists i d s,
       first_greatest (day_table [mouse_txn; sample_txn]) i d s
       /\ find_peak_sales_day [mouse_txn; sample_txn]
          = Ok (Some d, PyFloat.round2 (revenue s), day_transaction_count s).
Proof.
  assert (Hd : amounts_defined [mouse_txn; sample_txn]) by (repeat constructor).
  assert (Hp : positive_amounts [mouse_txn; sample_txn])
    by (repeat constructor; eexists; split; reflexivity).
  split; [exact Hd|].
  exact (proj2 (proj2 (peak_day_or_sentinel [mouse_txn; sample_txn] Hd)) Hp).
Defined.

Lemma base_fields_round_trip_witness :
  (parse_line sample_line = Some (base sample_enriched)
   /\ py_int (str_of_int (Quantity (base sample_enriched)))
      = Ok (Quantity (base sample_enriched))
   /\ py_float (py_repr (UnitPrice (base sample_enriched)))
      = Ok (UnitPrice (base sample_enriched))
   /\ all_chars plain_char (py_repr (UnitPrice (base sample_enriched))) = true)
  /\ parse_transactions [first_eight (enriched_line sample_enriched)]
     = ([base sample_enriched], 0%Z, [])
  /\ parse_transactions [enriched_line sample_enriched]
     = ([], 1%Z, [strip (enriched_line sample_enriched)])
  /\ length (split pipe (enriched_line sample_enriched))
     = (12 + separators_in (api_columns sample_enriched))%nat.
Proof.
  assert (H1 : parse_line sample_line = Some (base sample_enriched))
    by (vm_compute; reflexivity).
  assert (H2 : py_int (str_of_int (Quantity (base sample_enriched)))
               = Ok (Quantity (base sample_enriched)))
    by (vm_compute; reflexivity).
  assert (H3 : py_float (py_repr (UnitPrice (base sample_enriched)))
               = Ok (UnitPrice (base sample_enriched)))
    by (vm_compute; reflexivity).
  assert (H4 : all_chars plain_char (py_repr (UnitPrice (base sample_enriched))) = true)
    by (vm_compute; reflexivity).
  split; [repeat split; assumption|].
  exact (base_fields_round_trip sample_line sample_enriched H1 H2 H3 H4).
Defined.

End Witnesses.

(** * The further properties on sample data *)

Section MoreScenarios.
#[local] Existing Instance Reference.builtins.
#[local] Existing Instance Reference.sorting.

(** The three sample transactions through the aggregations. *)
Example rank_three_transactions :
  top_selling_products three_txns 5
  = Ok [("Mouse"%string, 7%Z, 73.5%float); ("Laptop"%string, 2%Z, 100000%float)]
  /\ top_selling_products three_txns (-1) = Ok [("Mouse"%string, 7%Z, 73.5%float)]
  /\ low_performing_products three_txns 7
     = Ok [("Laptop"%string, 2%Z, 100000%float)]
  /\ calculate_total_revenue three_txns = Ok 100073.5%float.
Proof. repeat split; vm_compute; reflexivity. Qed.

Example analyse_three_transactions :
  customer_analysis three_txns
  = Ok [("C001"%string,
         {| total_spent := 100042%float; purchase_count := 2;
            avg_order_value := 50021%float;
            products_bought := ["Laptop"; "Mouse"]%string |});
        ("C002"%string,
         {| total_spent := 31.5%float; purchase_count := 1;
            avg_order_value := 31.5%float;
            products_bought := ["Mouse"%string] |})]
  /\ daily_sales_trend three_txns
     = Ok [("2024-01-05"%string,
            {| trend_revenue := 100042%float; trend_transaction_count := 2;
               unique_customers := 1 |});
           ("2024-01-06"%string,
            {| trend_revenue := 31.5%float; trend_transaction_count := 1;
               unique_customers := 1 |})].
Proof. split; vm_compute; reflexivity. Qed.

(** A file that is not valid UTF-8 is read with the second encoding; a
    file without any line has -1 discarded lines. *)
Example read_sample_files :
  read_sales_data latin1_file = Read [sample_line; short_line] 1
  /\ read_sales_data (fun _ => Lines []) = Read [] (-1)
  /\ read_sales_data (fun _ => FileNotFoundError) = RaiseFileNotFoundError
  /\ read_sales_data (fun _ => UnicodeDecodeError) = RaiseValueError.
Proof. repeat split; vm_compute; reflexivity. Qed.

End MoreScenarios.

Section MoreWitnesses.
#[local] Existing Instance Reference.builtins.
#[local] Existing Instance Reference.sorting.

Lemma reader_feeds_parser_witness :
  read_sales_data latin1_file = Read [sample_line; short_line] 1
  /\ let '(parsed, discarded_count, records) :=
       parse_transactions [sample_line; short_line] in
     (len parsed + discarded_count)%Z = len [sample_line; short_line]
     /\ parsed = omap parse_line [sample_line; short_line]
     /\ records = filter (fun l => is_discarded l) [sample_line; short_line].
Proof.
  assert (Hr : read_sales_data latin1_file = Read [sample_line; short_line] 1)
    by (vm_compute; reflexivity).
  split; [exact Hr|].
  exact (reader_feeds_parser latin1_file [sample_line; short_line] 1 Hr).
Defined.

Lemma summary_accounts_for_input_witness :
  exists v,
    validate_and_filter [sample_txn; mouse_txn; return_txn]
      (Some "NORTH"%string) (Some 30%float) None = Ok v
    /\ total_input (summary v) = 3%Z
    /\ invalid (summary v) = 1%Z
    /\ filtered_by_region (summary v) = 1%Z
    /\ filtered_by_amount (summary v) = 0%Z
    /\ final_count (summary v) = 1%Z
    /\ total_input (summary v)
       = (invalid (summary v) + filtered_by_region (summary v)
          + filtered_by_amount (summary v) + final_count (summary v))%Z.
Proof.
  eexists. split; [vm_compute; reflexivity|].
  match goal with
  | |- total_input (summary ?v) = _ /\ _ =>
      assert (Hv : validate_and_filter [sample_txn; mouse_txn; return_txn]
                     (Some "NORTH"%string) (Some 30%float) None = Ok v)
        by (vm_compute; reflexivity);
      pose proof (summary_accounts_for_input _ _ _ _ v Hv) as (_ & Hsum & _)
  end.
  do 5 (split; [reflexivity|]). exact Hsum.
Defined.

Lemma filtered_output_is_valid_sublist_witness :
  exists v,
    validate_and_filter [sample_txn; mouse_txn; return_txn]
      (Some "NORTH"%string) (Some 30%float) None = Ok v
    /\ sublist (filtered_transactions v) [sample_txn; mouse_txn; return_txn]
    /\ Forall (in_region (Some "NORTH"%string)) (filtered_transactions v).
Proof.
  eexists. split; [vm_compute; reflexivity|].
  match goal with
  | |- sublist (filtered_transactions ?v) _ /\ _ =>
      assert (Hv : validate_and_filter [sample_txn; mouse_txn; return_txn]
                     (Some "NORTH"%string) (Some 30%float) None = Ok v)
        by (vm_compute; reflexivity);
      pose proof (filtered_output_is_valid_sublist _ _ _ _ v Hv) as (Hs & _ & Hr & _)
  end.
  split; assumption.
Defined.

Lemma revalidation_changes_nothing_witness :
  exists v v',
    validate_and_filter [sample_txn; mouse_txn; return_txn]
      (Some "NORTH"%string) (Some 30%float) None = Ok v
    /\ validate_and_filter (filtered_transactions v)
         (Some "NORTH"%string) (Some 30%float) None = Ok v'
    /\ filtered_transactions v' = filtered_transactions v
    /\ invalid_count v' = 0%Z.
Proof.
  eexists.
  match goal with
  | |- exists v', validate_and_filter _ _ _ _ = Ok ?v /\ _ =>
      assert (Hv : validate_and_filter [sample_txn; mouse_txn; return_txn]
                     (Some "NORTH"%string) (Some 30%float) None
                   = Ok (validated_of [sample_txn; mouse_txn; return_txn]
                           (Some "NORTH"%string) (Some 30%float) None))
        by (vm_compute; reflexivity)
  end.
  destruct (revalidation_changes_nothing _ _ _ _ _ Hv) as (v' & H1 & H2 & H3 & _).
  exists v'. split; [exact Hv|]. repeat split; assumption.
Defined.

Lemma display_shows_regions_and_range_witness :
  exists v,
    validate_and_filter [sample_txn; mouse_txn; return_txn] None None None = Ok v
    /\ strictly_ascending (shown_regions (printed v))
    /\ shown_regions (printed v) = ["North"; "south"]%string
    /\ shown_amount_range (printed v) = Some (31.5%float, 100000%float).
Proof.
  eexists. split; [vm_compute; reflexivity|].
  match goal with
  | |- strictly_ascending (shown_regions (printed ?v)) /\ _ =>
      assert (Hv : validate_and_filter [sample_txn; mouse_txn; return_txn]
                     None None None = Ok v)
        by (vm_compute; reflexivity);
      pose proof (display_shows_regions_and_range _ _ _ _ v Hv) as (Hs & _)
  end.
  split; [exact Hs|]. split; reflexivity.
Defined.

Lemma top_selling_is_ranking_prefix_witness :
  amounts_defined three_txns
  /\ exists ranked,
       top_selling_products three_txns 1 = Ok (slice_to 1 ranked)
       /\ Permutation ranked (product_rows three_txns)
       /\ StronglySorted quantity_descends ranked.
Proof.
  assert (Hd : amounts_defined three_txns) by (repeat constructor).
  split; [exact Hd|].
  destruct (top_selling_is_ranking_prefix three_txns 1 Hd)
    as (ranked & Hr & Hp & Hs & _).
  exists ranked. repeat split; assumption.
Defined.

Lemma top_selling_row_count_witness :
  exists rows,
    top_selling_products three_txns (-1) = Ok rows
    /\ len rows = 1%Z
    /\ len rows = Z.max 0 (number_of ProductName three_txns + -1).
Proof.
  eexists. split; [vm_compute; reflexivity|]. split; [reflexivity|].
  match goal with
  | |- len ?rows = _ =>
      assert (Hr : top_selling_products three_txns (-1) = Ok rows)
        by (vm_compute; reflexivity);
      exact (top_selling_row_count three_txns (-1) rows Hr)
  end.
Defined.

Lemma top_selling_conserves_quantity_witness :
  exists rows,
    top_selling_products three_txns 5 = Ok rows
    /\ (number_of ProductName three_txns <= 5)%Z
    /\ int_sum (map row_quantity rows) = int_sum (map Quantity three_txns).
Proof.
  eexists. split; [vm_compute; reflexivity|].
  assert (Hn : (number_of ProductName three_txns <= 5)%Z)
    by (apply Z.leb_le; vm_compute; reflexivity).
  split; [exact Hn|].
  match goal with
  | |- int_sum (map row_quantity ?rows) = _ =>
      assert (Hr : top_selling_products three_txns 5 = Ok rows)
        by (vm_compute; reflexivity);
      exact (top_selling_conserves_quantity three_txns 5 rows Hr Hn)
  end.
Defined.

Lemma low_performing_is_selection_witness :
  amounts_defined three_txns
  /\ exists rows,
       low_performing_products three_txns 7 = Ok rows
       /\ Permutation rows
            (filter (fun r => below 7 r) (product_rows three_txns))
       /\ StronglySorted quantity_ascends rows.
Proof.
  assert (Hd : amounts_defined three_txns) by (repeat constructor).
  split; [exact Hd|].
  destruct (low_performing_is_selection three_txns 7 Hd)
    as (rows & Hr & Hp & Hs & _).
  exists rows. repeat split; assumption.
Defined.

Lemma low_performing_within_ranking_witness :
  exists low top,
    low_performing_products three_txns 7 = Ok low
    /\ top_selling_products three_txns 5 = Ok top
    /\ (number_of ProductName three_txns <= 5)%Z
    /\ Permutation low (filter (fun r => below 7 r) top).
Proof.
  eexists. eexists. split; [vm_compute; reflexivity|].
  split; [vm_compute; reflexivity|].
  assert (Hn : (number_of ProductName three_txns <= 5)%Z)
    by (apply Z.leb_le; vm_compute; reflexivity).
  split; [exact Hn|].
  match goal with
  | |- Permutation ?low (filter _ ?top) =>
      assert (Hl : low_performing_products three_txns 7 = Ok low)
        by (vm_compute; reflexivity);
      assert (Ht : top_selling_products three_txns 5 = Ok top)
        by (vm_compute; reflexivity);
      exact (low_performing_within_ranking three_txns 7 5 low top Hl Ht Hn)
  end.
Defined.

Lemma customer_analysis_is_sorted_table_witness :
  (amounts_defined three_txns /\ (len three_txns < 2 ^ 1023)%Z)
  /\ exists res,
       customer_analysis three_txns = Ok res
       /\ Permutation res (customer_table three_txns)
       /\ StronglySorted (descends customer_key) res.
Proof.
  assert (Hd : amounts_defined three_txns) by (repeat constructor).
  assert (Hl : (len three_txns < 2 ^ 1023)%Z) by (vm_compute; reflexivity).
  assert (Hn : nonneg_amounts three_txns)
    by (repeat constructor; eexists; split; reflexivity).
  split; [split; assumption|].
  destruct (customer_analysis_is_sorted_table three_txns Hd Hl)
    as (res & Hr & Hp & Hs & Hc).
  exists res. split; [exact Hr|]. split; [exact Hp|exact (proj1 (Hs (Hc Hn)))].
Defined.

Lemma customer_entries_account_for_input_witness :
  exists res,
    customer_analysis three_txns = Ok res
    /\ NoDup (map fst res)
    /\ int_sum (map (fun e => purchase_count (snd e)) res) = len three_txns.
Proof.
  eexists. split; [vm_compute; reflexivity|].
  match goal with
  | |- NoDup (map fst ?res) /\ _ =>
      assert (Hr : customer_analysis three_txns = Ok res)
        by (vm_compute; reflexivity);
      pose proof (customer_entries_account_for_input three_txns res Hr)
        as (H1 & H2 & _)
  end.
  split; assumption.
Defined.

Lemma daily_trend_is_sorted_table_witness :
  amounts_defined three_txns
  /\ exists res,
       daily_sales_trend three_txns = Ok res
       /\ Permutation res (trend_table three_txns)
       /\ StronglySorted date_ascends res.
Proof.
  assert (Hd : amounts_defined three_txns) by (repeat constructor).
  split; [exact Hd|].
  destruct (daily_trend_is_sorted_table three_txns Hd) as (res & Hr & Hp & Hs & _).
  exists res. repeat split; assumption.
Defined.

Lemma peak_day_is_in_trend_witness :
  exists trend,
    find_peak_sales_day three_txns
    = Ok (Some "2024-01-05"%string, 100042%float, 2%Z)
    /\ daily_sales_trend three_txns = Ok trend
    /\ exists u,
         In ("2024-01-05"%string,
             {| trend_revenue := 100042%float; trend_transaction_count := 2;
                unique_customers := u |}) trend.
Proof.
  eexists.
  assert (Hp : find_peak_sales_day three_txns
               = Ok (Some "2024-01-05"%string, 100042%float, 2%Z))
    by (vm_compute; reflexivity).
  split; [exact Hp|]. split; [vm_compute; reflexivity|].
  match goal with
  | |- exists u, In _ ?trend =>
      assert (Ht : daily_sales_trend three_txns = Ok trend)
        by (vm_compute; reflexivity);
      exact (peak_day_is_in_trend three_txns _ _ _ trend Hp Ht)
  end.
Defined.

Lemma overflow_leaves_every_aggregation_witness :
  ~ amounts_defined [sample_txn; huge_txn]
  /\ calculate_total_revenue [sample_txn; huge_txn] = Raise OverflowError
  /\ customer_analysis [sample_txn; huge_txn] = Raise OverflowError
  /\ daily_sales_trend [sample_txn; huge_txn] = Raise OverflowError.
Proof.
  assert (Hn : ~ amounts_defined [sample_txn; huge_txn]).
  { intros Hd. inversion Hd as [|? ? _ Hd']; subst.
    inversion Hd' as [|? ? Hh _]; subst. vm_compute in Hh. discriminate. }
  split; [exact Hn|].
  destruct (overflow_leaves_every_aggregation [sample_txn; huge_txn] Hn)
    as (H1 & _ & _ & H4 & H5 & _).
  repeat split; assumption.
Defined.

Lemma region_entries_account_for_input_witness :
  exists res,
    region_wise_sales three_txns = Ok res
    /\ NoDup (map fst res)
    /\ int_sum (map (fun e => transaction_count (snd e)) res) = len three_txns.
Proof.
  eexists. split; [vm_compute; reflexivity|].
  match goal with
  | |- NoDup (map fst ?res) /\ _ =>
      assert (Hr : region_wise_sales three_txns = Ok res)
        by (vm_compute; reflexivity);
      pose proof (region_entries_account_for_input three_txns res Hr)
        as (H1 & _ & H3 & _)
  end.
  split; assumption.
Defined.

Lemma enrichment_uses_last_product_witness :
  (digits_of (ProductID mouse_txn) <> EmptyString
   /\ py_int (digits_of (ProductID mouse_txn)) = Ok 7%Z)
  /\ api_of (enrich_txn
               (create_product_mapping
                  [Dict mouse_product; NotADict; Dict mouse_product_again])
               mouse_txn)
     = api_from_product mouse_product_again.
Proof.
  assert (H1 : digits_of (ProductID mouse_txn) <> EmptyString) by discriminate.
  assert (H2 : py_int (digits_of (ProductID mouse_txn)) = Ok 7%Z)
    by (vm_compute; reflexivity).
  split; [split; assumption|].
  exact (enrichment_uses_last_product
           [Dict mouse_product; NotADict; Dict mouse_product_again]
           mouse_txn 7 H1 H2).
Defined.

Lemma enrichment_without_products_witness :
  Forall has_no_id [NotADict; Dict anonymous_product]
  /\ enrich_sales_data [sample_txn; mouse_txn]
       (create_product_mapping [NotADict; Dict anonymous_product])
     = map enrich_default [sample_txn; mouse_txn]
  /\ matched_count
       (enrich_sales_data [sample_txn; mouse_txn]
          (create_product_mapping [NotADict; Dict anonymous_product]))
     = 0%Z.
Proof.
  assert (Hs : Forall has_no_id [NotADict; Dict anonymous_product])
    by (repeat constructor).
  split; [exact Hs|].
  exact (proj2 (enrichment_without_products
                  [NotADict; Dict anonymous_product] [sample_txn; mouse_txn] Hs)).
Defined.

Lemma old_enrichment_agrees_witness :
  py_int EmptyString = Raise ValueError
  /\ Old.enrich_sales_data [sample_txn; mouse_txn; free_txn] sample_catalog
     = enrich_sales_data [sample_txn; mouse_txn; free_txn] sample_catalog.
Proof.
  assert (He : py_int EmptyString = Raise ValueError) by reflexivity.
  split; [exact He|].
  exact (old_enrichment_agrees [sample_txn; mouse_txn; free_txn] sample_catalog
           ValueError He).
Defined.

Lemma parsed_amounts_are_positive_witness :
  (prices_are_numbers (fst (fst (parse_transactions [sample_line; mouse_line])))
   /\ amounts_defined (fst (fst (parse_transactions [sample_line; mouse_line]))))
  /\ positive_amounts (fst (fst (parse_transactions [sample_line; mouse_line])))
  /\ peak_as_stated (fst (fst (parse_transactions [sample_line; mouse_line])))
  /\ exists res,
       region_wise_sales (fst (fst (parse_transactions [sample_line; mouse_line])))
       = Ok res
       /\ StronglySorted (descends region_key) res.
Proof.
  assert (Hp : fst (fst (parse_transactions [sample_line; mouse_line]))
               = [sample_txn; mouse_txn]) by (vm_compute; reflexivity).
  assert (Hn : prices_are_numbers
                 (fst (fst (parse_transactions [sample_line; mouse_line]))))
    by (rewrite Hp; repeat constructor).
  assert (Hd : amounts_defined
                 (fst (fst (parse_transactions [sample_line; mouse_line]))))
    by (rewrite Hp; repeat constructor).
  split; [split; assumption|].
  destruct (parsed_amounts_are_positive [sample_line; mouse_line] Hn Hd)
    as (H1 & H2 & _ & _ & H5).
  repeat split; assumption.
Defined.

Lemma valid_amounts_are_positive_witness :
  exists v,
    validate_and_filter [sample_txn; mouse_txn; return_txn] None None None = Ok v
    /\ prices_are_numbers (filtered_transactions v)
    /\ positive_amounts (filtered_transactions v)
    /\ exists total,
         calculate_total_revenue (filtered_transactions v) = Ok total
         /\ PyFloat.le PyFloat.zero total = true.
Proof.
  eexists. split; [vm_compute; reflexivity|].
  match goal with
  | |- prices_are_numbers (filtered_transactions ?v) /\ _ =>
      assert (Hv : validate_and_filter [sample_txn; mouse_txn; return_txn]
                     None None None = Ok v)
        by (vm_compute; reflexivity);
      assert (Hn : prices_are_numbers (filtered_transactions v))
        by (repeat constructor);
      split; [exact Hn|];
      exact (valid_amounts_are_positive _ _ _ _ v Hv Hn)
  end.
Defined.

End MoreWitnesses.
